(** * ShabdX: the layered translation services, embedded and verified

    The development follows the TypeScript sources:

    - [FallbackTranslationService]  (the bundled dictionary matcher:
      pattern rules, lexicon store, segmenter and resolution engine);
    - [OfflineTranslationService] as found in
      [src/services/OfflineTranslation.ts] (module [Offline]);
    - the extended [OfflineTranslationService] with hard-coded texts,
      compound-word decomposition and affix matching (module [OfflineExt]);
    - [OnlineTranslationService], whose requests are answered by an
      endpoint given as a function (module [Online]);
    - the translation handler of the page, which chooses between the
      three services (module [App]).

    ECMAScript strings are sequences of UTF-16 code units and are modelled
    as [list N].  The ECMAScript library operations the services call
    (trim, split, includes, replace, property reads on plain objects,
    regular-expression matching) are modelled first, in module [JS]. *)

From Stdlib Require Import String Ascii List NArith ZArith Lia Bool.
Import ListNotations.

Set Implicit Arguments.

(* ================================================================== *)
(** * ECMAScript strings and plain objects *)
(* ================================================================== *)

Module JS.

(** A string value: its UTF-16 code units. *)
Definition jsstring := list N.

(** ** Literals

    Source literals are written as ordinary (UTF-8) string literals and
    decoded to code points, then encoded as UTF-16. *)

Fixpoint utf8_bytes (s : string) : list N :=
  match s with
  | EmptyString => []
  | String a r => N_of_ascii a :: utf8_bytes r
  end.

Fixpoint utf8_decode (bs : list N) : list N :=
  match bs with
  | [] => []
  | b0 :: r0 =>
    if (b0 <? 128)%N then b0 :: utf8_decode r0
    else
      match r0 with
      | [] => []
      | b1 :: r1 =>
        if (b0 <? 224)%N then
          ((b0 - 192) * 64 + (b1 - 128))%N :: utf8_decode r1
        else
          match r1 with
          | [] => []
          | b2 :: r2 =>
            if (b0 <? 240)%N then
              ((b0 - 224) * 4096 + (b1 - 128) * 64 + (b2 - 128))%N
                :: utf8_decode r2
            else
              match r2 with
              | [] => []
              | b3 :: r3 =>
                ((b0 - 240) * 262144 + (b1 - 128) * 4096
                 + (b2 - 128) * 64 + (b3 - 128))%N :: utf8_decode r3
              end
          end
      end
  end.

Definition utf16_encode_cp (cp : N) : list N :=
  if (cp <? 65536)%N then [cp]
  else
    let v := (cp - 65536)%N in
    [(55296 + v / 1024)%N; (56320 + v mod 1024)%N].

Definition utf16_encode (cps : list N) : jsstring :=
  flat_map utf16_encode_cp cps.

(** [lit "..."] is the string value denoted by a source literal. *)
Definition lit (s : string) : jsstring :=
  utf16_encode (utf8_decode (utf8_bytes s)).

(** ** Equality and basic tests *)

Fixpoint str_eqb (a b : jsstring) : bool :=
  match a, b with
  | [], [] => true
  | x :: a', y :: b' => (x =? y)%N && str_eqb a' b'
  | _, _ => false
  end.

Definition is_empty (s : jsstring) : bool :=
  match s with [] => true | _ => false end.

(** [WhiteSpace] and [LineTerminator] code points: what [trim] strips and
    what the class escape [\s] matches. *)
Definition isWhiteSpace (c : N) : bool :=
  ((c =? 9) || (c =? 10) || (c =? 11) || (c =? 12) || (c =? 13)
   || (c =? 32) || (c =? 160) || (c =? 5760)
   || ((8192 <=? c) && (c <=? 8202))
   || (c =? 8232) || (c =? 8233) || (c =? 8239) || (c =? 8287)
   || (c =? 12288) || (c =? 65279))%N.

(** [LineTerminator]: excluded from the regular-expression dot. *)
Definition isLineTerminator (c : N) : bool :=
  ((c =? 10) || (c =? 13) || (c =? 8232) || (c =? 8233))%N.

Fixpoint trimStart (s : jsstring) : jsstring :=
  match s with
  | [] => []
  | c :: r => if isWhiteSpace c then trimStart r else s
  end.

Definition trimEnd (s : jsstring) : jsstring :=
  rev (trimStart (rev s)).

(** [String.prototype.trim]. *)
Definition trim (s : jsstring) : jsstring := trimEnd (trimStart s).

(** [String.prototype.startsWith]. *)
Fixpoint startsWith (s p : jsstring) : bool :=
  match p, s with
  | [], _ => true
  | x :: p', y :: s' => (x =? y)%N && startsWith s' p'
  | _ :: _, [] => false
  end.

(** [String.prototype.includes]. *)
Fixpoint includes (s sub : jsstring) : bool :=
  startsWith s sub ||
  match s with
  | [] => false
  | _ :: r => includes r sub
  end.

(** The first occurrence of [sub] in [s]: the text before it and the text
    after it. *)
Fixpoint find_first (s sub : jsstring) : option (jsstring * jsstring) :=
  if startsWith s sub then Some ([], skipn (length sub) s)
  else
    match s with
    | [] => None
    | c :: r =>
      match find_first r sub with
      | Some (b, a) => Some (c :: b, a)
      | None => None
      end
    end.

(** [Array.prototype.join] on strings. *)
Fixpoint join (sep : jsstring) (l : list jsstring) : jsstring :=
  match l with
  | [] => []
  | [x] => x
  | x :: r => x ++ sep ++ join sep r
  end.

(** ** [String.prototype.split] with a regular-expression separator

    [sepAt s] is the length of the separator match that starts at the
    head of [s], if there is one (never [0] for the separators used
    here).  [split_go] walks the subject as the specification's loop
    does: a match closes the current piece and the walk resumes after
    it; the text after the last match is the last piece. *)

Fixpoint split_go (sepAt : jsstring -> nat) (skip : nat) (cur : jsstring)
         (s : jsstring) : list jsstring :=
  match s with
  | [] => [rev cur]
  | c :: r =>
    match skip with
    | S n => split_go sepAt n cur r
    | O =>
      match sepAt s with
      | S n => rev cur :: split_go sepAt n [] r
      | O => split_go sepAt 0 (c :: cur) r
      end
    end
  end.

Definition split (sepAt : jsstring -> nat) (s : jsstring) : list jsstring :=
  split_go sepAt 0 [] s.

(** Separator [/[cls]/]: one code unit of the class. *)
Definition sep_one (cls : N -> bool) (s : jsstring) : nat :=
  match s with
  | c :: _ => if cls c then 1 else 0
  | [] => 0
  end.

(** Separator [/[cls]+/]: a maximal run of code units of the class. *)
Fixpoint sep_run (cls : N -> bool) (s : jsstring) : nat :=
  match s with
  | c :: r => if cls c then S (sep_run cls r) else 0
  | [] => 0
  end.

(** Separator [/\r?\n/]: a line feed, or a carriage return and the
    line feed that follows it. *)
Definition sep_newline (s : jsstring) : nat :=
  match s with
  | c :: r =>
    if (c =? 13)%N then
      match r with
      | d :: _ => if (d =? 10)%N then 2 else 0
      | [] => 0
      end
    else if (c =? 10)%N then 1 else 0
  | [] => 0
  end.

(** [s.split(/\s+/)]. *)
Definition split_ws (s : jsstring) : list jsstring :=
  split (sep_run isWhiteSpace) s.

(** ** Replacement text

    [String.prototype.replace] expands dollar sequences of the
    replacement text ([GetSubstitution]).  With no capture groups in the
    pattern, which is the case at every call site, the sequences that
    expand are [$$], [$&], [$`] and [$']; a dollar followed by anything
    else stands for itself. *)

Fixpoint GetSubstitution (matched before after template : jsstring)
  : jsstring :=
  match template with
  | [] => []
  | c :: r =>
    if (c =? 36)%N then
      match r with
      | d :: r' =>
        if (d =? 36)%N then 36%N :: GetSubstitution matched before after r'
        else if (d =? 38)%N then
          matched ++ GetSubstitution matched before after r'
        else if (d =? 96)%N then
          before ++ GetSubstitution matched before after r'
        else if (d =? 39)%N then
          after ++ GetSubstitution matched before after r'
        else c :: GetSubstitution matched before after r
      | [] => [c]
      end
    else c :: GetSubstitution matched before after r
  end.

(** [s.replace(pat, repl)] with a string pattern: the first occurrence
    only. *)
Definition replace (s pat repl : jsstring) : jsstring :=
  match find_first s pat with
  | Some (before, after) =>
    before ++ GetSubstitution pat before after repl ++ after
  | None => s
  end.

(** [s.replace(new RegExp(pat, 'g'), repl)] where the pattern source
    denotes the literal, non-empty text [pat]: every occurrence, left to
    right, without overlap.  [before] is kept reversed. *)
Fixpoint replaceAll_go (pat repl : jsstring) (skip : nat)
         (before : jsstring) (s : jsstring) : jsstring :=
  match s with
  | [] => []
  | c :: r =>
    match skip with
    | S n => replaceAll_go pat repl n (c :: before) r
    | O =>
      if startsWith s pat && negb (is_empty pat) then
        GetSubstitution pat (rev before) (skipn (length pat) s) repl
        ++ replaceAll_go pat repl (length pat - 1) (c :: before) r
      else c :: replaceAll_go pat repl 0 (c :: before) r
    end
  end.

Definition replaceAll (s pat repl : jsstring) : jsstring :=
  replaceAll_go pat repl 0 [] s.

(** Plain substitution, as the specification words it: every
    occurrence of the non-empty text [pat] is replaced by the text
    [repl] itself. *)
Fixpoint spliceAll_go (pat repl : jsstring) (skip : nat) (s : jsstring)
  : jsstring :=
  match s with
  | [] => []
  | c :: r =>
    match skip with
    | S n => spliceAll_go pat repl n r
    | O =>
      if startsWith s pat && negb (is_empty pat) then
        repl ++ spliceAll_go pat repl (length pat - 1) r
      else c :: spliceAll_go pat repl 0 r
    end
  end.

Definition spliceAll (s pat repl : jsstring) : jsstring :=
  spliceAll_go pat repl 0 s.

(** Decimal digits of a number, as in a template literal. *)
Fixpoint decimal_go (fuel : nat) (n : N) (acc : jsstring) : jsstring :=
  match fuel with
  | O => acc
  | S f =>
    let acc' := (48 + n mod 10)%N :: acc in
    if (n <? 10)%N then acc' else decimal_go f (n / 10)%N acc'
  end.

Definition decimal (n : nat) : jsstring :=
  decimal_go (S n) (N.of_nat n) [].

(** ** Plain objects used as maps

    An object literal or [{}] is an ordered collection of own
    properties.  None of the keys used by the services is an array
    index, so own properties are enumerated in insertion order; writing
    an existing key keeps its position. *)

Definition jsobject (A : Type) := list (jsstring * A).

Fixpoint own_get {A} (o : jsobject A) (k : jsstring) : option A :=
  match o with
  | [] => None
  | (k', v) :: r => if str_eqb k' k then Some v else own_get r k
  end.

Fixpoint obj_set {A} (o : jsobject A) (k : jsstring) (v : A) : jsobject A :=
  match o with
  | [] => [(k, v)]
  | (k', v') :: r =>
    if str_eqb k' k then (k', v) :: r else (k', v') :: obj_set r k v
  end.

Definition obj_delete {A} (o : jsobject A) (k : jsstring) : jsobject A :=
  filter (fun kv => negb (str_eqb (fst kv) k)) o.

Definition obj_keys {A} (o : jsobject A) : list jsstring := map fst o.

(** An object literal with repeated keys: later values win. *)
Definition object_literal {A} (l : list (jsstring * A)) : jsobject A :=
  fold_left (fun o kv => obj_set o (fst kv) (snd kv)) l [].

(** The property names every plain object inherits from
    [Object.prototype]. *)
Definition objectPrototypeNames : list jsstring :=
  map lit
    [ "constructor"; "hasOwnProperty"; "isPrototypeOf";
      "propertyIsEnumerable"; "toLocaleString"; "toString"; "valueOf";
      "__proto__"; "__defineGetter__"; "__defineSetter__";
      "__lookupGetter__"; "__lookupSetter__" ]%string.

Definition isPrototypeName (k : jsstring) : bool :=
  existsb (str_eqb k) objectPrototypeNames.

(** The result of a property read [o[k]]: an own value, or a member
    inherited from [Object.prototype] (a function, or the prototype
    object itself for [__proto__]); [None] stands for [undefined]. *)
Inductive propval (A : Type) : Type :=
| Own (a : A)
| Inherited (name : jsstring).

Arguments Own {A} a.
Arguments Inherited {A} name.

Definition obj_get {A} (o : jsobject A) (k : jsstring) : option (propval A) :=
  match own_get o k with
  | Some v => Some (Own v)
  | None => if isPrototypeName k then Some (Inherited k) else None
  end.

(** A value read from a dictionary: a string, or an inherited member. *)
Definition jsval := propval jsstring.

Definition truthy (v : jsval) : bool :=
  match v with
  | Own s => negb (is_empty s)
  | Inherited _ => true
  end.

(** [o[k]] when it is truthy: the guard [if (o[k]) return o[k]]. *)
Definition lookup (o : jsobject jsstring) (k : jsstring) : option jsval :=
  match obj_get o k with
  | Some v => if truthy v then Some v else None
  | None => None
  end.

(** [Map.prototype.get] when it is truthy: a [Map] has no inherited
    entries. *)
Definition map_lookup (m : jsobject jsstring) (k : jsstring)
  : option jsstring :=
  match own_get m k with
  | Some v => if is_empty v then None else Some v
  | None => None
  end.

(** What the host leaves to Unicode data or to the implementation. *)
Class Host : Type := {
  (** [String.prototype.toLowerCase] *)
  toLowerCase : jsstring -> jsstring;
  (** [Canonicalize] of a case-insensitive regular expression *)
  canonicalize : N -> N;
  (** code points with general category [L] or [N] *)
  isLetterOrNumber : N -> bool;
  (** source text of a built-in function, by property name *)
  nativeToString : jsstring -> jsstring
}.

(** [ToString] of a value read from a dictionary. *)
Definition ToString {H : Host} (v : jsval) : jsstring :=
  match v with
  | Own s => s
  | Inherited name =>
    if str_eqb name (lit "__proto__") then lit "[object Object]"
    else nativeToString name
  end.

(** Outcome of a call: a value, or an exception. *)
Inductive completion (A : Type) : Type :=
| Returned (a : A)
| Thrown (message : jsstring).

Arguments Returned {A} a.
Arguments Thrown {A} message.

End JS.

(* ================================================================== *)
(** * Regular expressions (the backtracking matcher of ECMAScript) *)
(* ================================================================== *)

Module Regex.
Import JS.

(** The pattern syntax the services use.  A class is given by its
    membership test; none of the classes used contains a cased letter,
    so membership does not depend on the [i] flag. *)
Inductive regex : Type :=
| Eps                                  (* empty pattern *)
| Chr (c : N)                          (* a pattern character *)
| Cls (p : N -> bool)                  (* [...], \s, . *)
| Seq (r1 r2 : regex)
| Alt (r1 r2 : regex)                  (* r1|r2 *)
| Rep (greedy : bool) (min : nat) (max : option nat) (r : regex)
| Grp (i : nat) (r : regex)            (* capture group number i *)
| Bol                                  (* ^ *)
| Eol.                                 (* $ *)

(** Matcher state: index reached, remaining input, captures
    ([None] is [undefined]); capture [i] is at position [i - 1]. *)
Record mstate : Type := MState {
  endIndex : nat;
  rest : jsstring;
  captures : list (option jsstring)
}.

Fixpoint set_nth {A} (n : nat) (x : A) (l : list A) : list A :=
  match n, l with
  | O, _ :: r => x :: r
  | S n', y :: r => y :: set_nth n' x r
  | _, [] => []
  end.

Definition set_capture (i : nat) (v : option jsstring) (st : mstate) : mstate :=
  MState (endIndex st) (rest st) (set_nth (i - 1) v (captures st)).

(** The capture groups inside a pattern. *)
Fixpoint groups (r : regex) : list nat :=
  match r with
  | Seq a b | Alt a b => groups a ++ groups b
  | Rep _ _ _ a => groups a
  | Grp i a => i :: groups a
  | _ => []
  end.

Definition clear_captures (gs : list nat) (st : mstate) : mstate :=
  fold_left (fun s i => set_capture i None s) gs st.

Definition pred_max (max : option nat) : option nat :=
  match max with
  | Some n => Some (n - 1)
  | None => None
  end.

Definition orElse {A} (a : option A) (b : unit -> option A) : option A :=
  match a with
  | Some x => Some x
  | None => b tt
  end.

Section Matcher.
Context {H : Host}.

(** [RepeatMatcher]: [m] is the matcher of the quantified atom and [gs]
    its capture groups.  After [min] iterations an iteration that
    consumes nothing fails, so at most [min + length (rest x)]
    iterations succeed; [fuel] is set above that bound by [rmatch]. *)
Fixpoint RepeatMatcher (fuel : nat)
         (m : mstate -> (mstate -> option mstate) -> option mstate)
         (gs : list nat) (greedy : bool) (min : nat) (max : option nat)
         (x : mstate) (c : mstate -> option mstate) : option mstate :=
  match fuel with
  | O => None
  | S fuel' =>
    match max with
    | Some O => c x
    | _ =>
      let d := fun y : mstate =>
        if Nat.eqb min 0 && Nat.eqb (endIndex y) (endIndex x) then None
        else RepeatMatcher fuel' m gs greedy (min - 1) (pred_max max) y c in
      let xr := clear_captures gs x in
      if negb (Nat.eqb min 0) then m xr d
      else if negb greedy then orElse (c x) (fun _ => m xr d)
      else orElse (m xr d) (fun _ => c x)
    end
  end.

(** The matcher of a pattern, in continuation-passing style, with the
    [i] (ignore case) flag. *)
Fixpoint rmatch (r : regex) (x : mstate) (c : mstate -> option mstate)
  : option mstate :=
  match r with
  | Eps => c x
  | Chr ch =>
    match rest x with
    | a :: tl =>
      if (canonicalize a =? canonicalize ch)%N
      then c (MState (S (endIndex x)) tl (captures x))
      else None
    | [] => None
    end
  | Cls p =>
    match rest x with
    | a :: tl =>
      if p a then c (MState (S (endIndex x)) tl (captures x)) else None
    | [] => None
    end
  | Seq r1 r2 => rmatch r1 x (fun y => rmatch r2 y c)
  | Alt r1 r2 => orElse (rmatch r1 x c) (fun _ => rmatch r2 x c)
  | Rep greedy min max r1 =>
    RepeatMatcher (S (min + length (rest x))) (rmatch r1) (groups r1)
                  greedy min max x c
  | Grp i r1 =>
    rmatch r1 x (fun y =>
      c (set_capture i
           (Some (firstn (endIndex y - endIndex x) (rest x))) y))
  | Bol => if Nat.eqb (endIndex x) 0 then c x else None
  | Eol => match rest x with [] => c x | _ => None end
  end.

(** [RegExp.prototype.exec] for a pattern without the [g] flag: the
    first start index at which the pattern matches.  The result holds
    the remaining state; [ngroups] is the number of capture groups. *)
Fixpoint exec_from (r : regex) (ngroups : nat) (index : nat) (s : jsstring)
  : option (nat * mstate) :=
  match rmatch r (MState index s (repeat None ngroups)) (fun y => Some y) with
  | Some y => Some (index, y)
  | None =>
    match s with
    | [] => None
    | _ :: tl => exec_from r ngroups (S index) tl
    end
  end.

(** [s.match(pattern)]: the captures [m[1]], ..., [m[ngroups]], or
    [None] when the pattern does not match. *)
Definition match_ (r : regex) (s : jsstring) : option (list (option jsstring)) :=
  let ngroups := length (groups r) in
  match exec_from r ngroups 0 s with
  | Some (_, y) => Some (captures y)
  | None => None
  end.

End Matcher.

(** A matcher state whose remaining input and captures have no line
    feed, and a continuation that keeps states so: the invariant behind
    line preservation. *)
Definition st_ok (st : mstate) : Prop :=
  ~ In 10%N (rest st)
  /\ Forall (fun c => forall s, c = Some s -> ~ In 10%N s) (captures st).

Definition cont_ok (c : mstate -> option mstate) : Prop :=
  forall x y, st_ok x -> c x = Some y -> st_ok y.

(** [later x y]: the state [y] is [x] after some input was consumed
    (possibly none). *)
Definition later (x y : mstate) : Prop :=
  length (rest y) <= length (rest x)
  /\ endIndex y + length (rest y) = endIndex x + length (rest x).

(** Pattern-building shorthands. *)
Fixpoint seqs (l : list regex) : regex :=
  match l with
  | [] => Eps
  | [r] => r
  | r :: tl => Seq r (seqs tl)
  end.

(** The characters of a literal, in sequence. *)
Definition word (s : string) : regex := seqs (map Chr (lit s)).

Definition star (r : regex) : regex := Rep true 0 None r.
Definition plus (r : regex) : regex := Rep true 1 None r.
Definition opt (r : regex) : regex := Rep true 0 (Some 1) r.
Definition lazy_plus (r : regex) : regex := Rep false 1 None r.

(** [\s] *)
Definition ws : regex := Cls isWhiteSpace.
(** [.] *)
Definition dot : regex := Cls (fun c => negb (isLineTerminator c)).
(** [[...]] with the listed members *)
Definition oneOf (s : string) : regex :=
  Cls (fun c => existsb (N.eqb c) (lit s)).

End Regex.

(* ================================================================== *)
(** * A concrete host, for evaluating the services on examples *)
(* ================================================================== *)

Module BasicHost.
Import JS.

(** Lower-casing of the Basic Latin, Latin-1 and basic Cyrillic capital
    letters; every other code unit is kept.  On strings whose cased
    letters lie in these ranges this is [String.prototype.toLowerCase]. *)
Definition lowerUnit (c : N) : N :=
  if ((65 <=? c) && (c <=? 90))%N then (c + 32)%N
  else if ((192 <=? c) && (c <=? 222) && negb (c =? 215))%N then (c + 32)%N
  else if ((1040 <=? c) && (c <=? 1071))%N then (c + 32)%N
  else if ((1024 <=? c) && (c <=? 1039))%N then (c + 80)%N
  else c.

(** [Canonicalize] restricted to Basic Latin.  The patterns of the
    services contain only Basic Latin characters and characters without
    case, and no code unit above 127 canonicalizes to a Basic Latin
    character, so this gives the same matches as the full mapping. *)
Definition upperUnit (c : N) : N :=
  if ((97 <=? c) && (c <=? 122))%N then (c - 32)%N else c.

(** Letters and digits of Basic Latin and Latin-1. *)
Definition letterOrNumber (c : N) : bool :=
  (((48 <=? c) && (c <=? 57)) || ((65 <=? c) && (c <=? 90))
   || ((97 <=? c) && (c <=? 122))
   || (c =? 170) || (c =? 181) || (c =? 186)
   || (c =? 178) || (c =? 179) || (c =? 185)
   || ((188 <=? c) && (c <=? 190))
   || ((192 <=? c) && (c <=? 255) && negb (c =? 215) && negb (c =? 247)))%N.

(** The source text V8 gives a built-in function: it shows the name of
    the function, which is the property name except for [constructor],
    whose value is the function [Object]. *)
Definition nativeSource (name : jsstring) : jsstring :=
  lit "function "
      ++ (if str_eqb name (lit "constructor") then lit "Object" else name)
      ++ lit "() { [native code] }".

#[export] Instance basicHost : Host := {|
  toLowerCase := map lowerUnit;
  canonicalize := upperUnit;
  isLetterOrNumber := letterOrNumber;
  nativeToString := nativeSource
|}.

End BasicHost.

(* ================================================================== *)
(** * Numbers *)
(* ================================================================== *)

Module Numbers.

(** What the services need of the Number type (binary64): decimal
    literals with two fraction digits, addition, comparison and the
    progress percentage [(i / total) * 100].  The laws are those of
    rounded addition on finite non-negative values: rounding is
    monotone and exact on representable results. *)
Class Number : Type := {
  num : Type;
  (** the literal [k / 100], so [ofHundredths 1550] is [15.5] *)
  ofHundredths : Z -> num;
  add : num -> num -> num;
  le : num -> num -> Prop;
  (** [(i / total) * 100] *)
  percent : nat -> nat -> num;
  le_refl : forall a, le a a;
  le_trans : forall a b c, le a b -> le b c -> le a c;
  add_le_mono_l : forall a b c, le a b -> le (add a c) (add b c);
  le_add_r : forall a c, le (ofHundredths 0) c -> le a (add a c);
  ofHundredths_nonneg : forall k, (0 <= k)%Z -> le (ofHundredths 0) (ofHundredths k);
  percent_full : forall n, n <> 0 -> percent n n = ofHundredths 10000
}.

Definition zero {N : Number} : num := ofHundredths 0.

(** Exact arithmetic on hundredths is an instance. *)
#[export, refine] Instance exactNumber : Number := {|
  num := Z;
  ofHundredths := fun k => k;
  add := Z.add;
  le := Z.le;
  percent := fun i total => (Z.of_nat i * 10000 / Z.of_nat total)%Z
|}.
Proof.
  - intros; lia.
  - intros; lia.
  - intros; lia.
  - intros; lia.
  - intros; lia.
  - intros n Hn. rewrite Z.mul_comm, Z.div_mul; lia.
Defined.

End Numbers.

(* ================================================================== *)
(** * FallbackTranslationService *)
(* ================================================================== *)

Module Fallback.
Import JS Regex.

Definition TranslationPair := jsobject jsstring.
Definition LanguageDict := jsobject TranslationPair.

Record PatternRule : Type := {
  pattern : regex;
  template : jsstring
}.

(** [^(?:\s*(?:hello|hi)[,!]?\s+)?this\s+is\s+(.+?)[.!?]?\s*$] *)
Definition pat_this_is : regex :=
  seqs [ Bol;
         opt (seqs [ star ws; Alt (word "hello") (word "hi");
                     opt (oneOf ",!"); plus ws ]);
         word "this"; plus ws; word "is"; plus ws;
         Grp 1 (lazy_plus dot); opt (oneOf ".!?"); star ws; Eol ].

(** [^\s*my\s+name\s+is\s+(.+?)[.!?]?\s*$] *)
Definition pat_my_name_is : regex :=
  seqs [ Bol; star ws; word "my"; plus ws; word "name"; plus ws;
         word "is"; plus ws;
         Grp 1 (lazy_plus dot); opt (oneOf ".!?"); star ws; Eol ].

(** [^\s*i\s+am\s+(.+?)[.!?]?\s*$] *)
Definition pat_i_am : regex :=
  seqs [ Bol; star ws; word "i"; plus ws; word "am"; plus ws;
         Grp 1 (lazy_plus dot); opt (oneOf ".!?"); star ws; Eol ].

(** [^\s*how\s+are\s+you\s*\??\s*$] *)
Definition pat_how_are_you : regex :=
  seqs [ Bol; star ws; word "how"; plus ws; word "are"; plus ws;
         word "you"; star ws; opt (word "?"); star ws; Eol ].

(** [^\s*यो\s+(.+?)\s+हो\s*[।]?\s*$] *)
Definition pat_ne_this_is : regex :=
  seqs [ Bol; star ws; word "यो"; plus ws; Grp 1 (lazy_plus dot);
         plus ws; word "हो"; star ws; opt (oneOf "।"); star ws; Eol ].

(** [^\s*मेरो\s+नाम\s+(.+?)\s+हो\s*[।]?\s*$] *)
Definition pat_ne_my_name_is : regex :=
  seqs [ Bol; star ws; word "मेरो"; plus ws; word "नाम"; plus ws;
         Grp 1 (lazy_plus dot);
         plus ws; word "हो"; star ws; opt (oneOf "।"); star ws; Eol ].

(** [^\s*म\s+(.+?)\s+हुँ\s*[।]?\s*$] *)
Definition pat_ne_i_am : regex :=
  seqs [ Bol; star ws; word "म"; plus ws; Grp 1 (lazy_plus dot);
         plus ws; word "हुँ"; star ws; opt (oneOf "।"); star ws; Eol ].

(** [^\s*මෙය\s+(.+?)\s*යි\s*$] *)
Definition pat_si_this_is_yi : regex :=
  seqs [ Bol; star ws; word "මෙය"; plus ws; Grp 1 (lazy_plus dot);
         star ws; word "යි"; star ws; Eol ].

(** [^\s*මේ\s+(.+?)\s*$] *)
Definition pat_si_this_is : regex :=
  seqs [ Bol; star ws; word "මේ"; plus ws; Grp 1 (lazy_plus dot);
         star ws; Eol ].

(** [^\s*මගේ\s+නම\s+(.+?)\s*$] *)
Definition pat_si_my_name_is : regex :=
  seqs [ Bol; star ws; word "මගේ"; plus ws; word "නම"; plus ws;
         Grp 1 (lazy_plus dot); star ws; Eol ].

(** [^\s*මම\s+(.+?)\s*$] *)
Definition pat_si_i_am : regex :=
  seqs [ Bol; star ws; word "මම"; plus ws; Grp 1 (lazy_plus dot);
         star ws; Eol ].

Definition rule (p : regex) (t : string) : PatternRule :=
  {| pattern := p; template := lit t |}.

(** Rule-based sentence patterns, per language pair. *)
Definition patternRules : jsobject (list PatternRule) :=
  [ (lit "en-ne",
      [ rule pat_this_is "यो $1 हो";
        rule pat_my_name_is "मेरो नाम $1 हो";
        rule pat_i_am "म $1 हुँ";
        rule pat_how_are_you "तपाईं कस्तो हुनुहुन्छ?" ]);
    (lit "en-si",
      [ rule pat_this_is "මේ $1";
        rule pat_my_name_is "මගේ නම $1";
        rule pat_i_am "මම $1";
        rule pat_how_are_you "ඔයා කොහොමද?" ]);
    (lit "ne-en",
      [ rule pat_ne_this_is "this is $1";
        rule pat_ne_my_name_is "my name is $1";
        rule pat_ne_i_am "i am $1" ]);
    (lit "si-en",
      [ rule pat_si_this_is_yi "this is $1";
        rule pat_si_this_is "this is $1";
        rule pat_si_my_name_is "my name is $1";
        rule pat_si_i_am "i am $1" ]) ].

(** The [translations] object literal, in source order.  Six pair keys
    occur twice in the literal; [object_literal] keeps the later
    dictionary at the position of the earlier one, as the language
    does. *)
Definition translations_source : list (string * list (string * string)) :=
  [
    ("en-hi",
      [
        ("hello", "नमस्ते"); ("hi", "हैलो"); ("goodbye", "अलविदा");
        ("bye", "बाय"); ("thank you", "धन्यवाद"); ("thanks", "धन्यवाद");
        ("sorry", "माफ करें"); ("please", "कृपया"); ("yes", "हाँ");
        ("no", "नहीं"); ("ok", "ठीक है"); ("okay", "ठीक है");
        ("good", "अच्छा"); ("bad", "बुरा"); ("water", "पानी");
        ("food", "खाना"); ("eat", "खाना"); ("home", "घर"); ("house", "घर");
        ("school", "स्कूल"); ("work", "काम"); ("job", "नौकरी");
        ("time", "समय"); ("money", "पैसा"); ("friend", "दोस्त");
        ("family", "परिवार"); ("love", "प्रेम"); ("like", "पसंद");
        ("want", "चाहते हैं"); ("need", "जरूरत"); ("come", "आओ");
        ("go", "जाओ"); ("see", "देखो"); ("look", "देखो"); ("give", "दो");
        ("take", "लो"); ("help", "मदद"); ("stop", "रुको");
        ("wait", "इंतज़ार करो"); ("morning", "सुबह"); ("evening", "शाम");
        ("night", "रात"); ("day", "दिन"); ("today", "आज"); ("tomorrow", "कल");
        ("yesterday", "कल"); ("now", "अभी"); ("here", "यहाँ");
        ("there", "वहाँ"); ("where", "कहाँ"); ("what", "क्या");
        ("who", "कौन"); ("when", "कब"); ("why", "क्यों"); ("how", "कैसे");
        ("i", "मैं"); ("you", "आप"); ("he", "वह"); ("she", "वह");
        ("we", "हम"); ("they", "वे"); ("my", "मेरा"); ("your", "आपका");
        ("his", "उसका"); ("her", "उसका"); ("am", "हूँ"); ("is", "है");
        ("are", "हैं"); ("was", "था"); ("were", "थे"); ("will", "होगा");
        ("can", "सकते हैं"); ("could", "सकते थे"); ("should", "चाहिए");
        ("and", "और"); ("or", "या"); ("but", "लेकिन"); ("if", "अगर");
        ("then", "तो"); ("how are you", "आप कैसे हैं");
        ("how are you?", "आप कैसे हैं?");
        ("what is your name", "आपका नाम क्या है");
        ("my name is", "मेरा नाम है");
        ("nice to meet you", "आपसे मिलकर खुशी हुई");
        ("see you later", "बाद में मिलते हैं");
        ("good morning", "शुभ प्रभात"); ("good evening", "शुभ संध्या");
        ("good night", "शुभ रात्रि"); ("excuse me", "माफ करिए");
        ("i love you", "मैं आपसे प्रेम करता हूँ");
        ("i am fine", "मैं ठीक हूँ"); ("i am good", "मैं अच्छा हूँ")
      ]);
    ("hi-en",
      [
        ("नमस्ते", "hello"); ("हैलो", "hi"); ("अलविदा", "goodbye");
        ("बाय", "bye"); ("धन्यवाद", "thank you"); ("माफ करें", "sorry");
        ("कृपया", "please"); ("हाँ", "yes"); ("नहीं", "no");
        ("ठीक है", "okay"); ("अच्छा", "good"); ("बुरा", "bad");
        ("पानी", "water"); ("खाना", "food"); ("घर", "home");
        ("स्कूल", "school"); ("काम", "work"); ("समय", "time");
        ("पैसा", "money"); ("दोस्त", "friend"); ("परिवार", "family");
        ("प्रेम", "love"); ("पसंद", "like"); ("चाहते हैं", "want");
        ("जरूरत", "need"); ("आओ", "come"); ("जाओ", "go"); ("देखो", "see");
        ("दो", "give"); ("लो", "take"); ("मदद", "help"); ("रुको", "stop");
        ("आज", "today"); ("कल", "tomorrow"); ("यहाँ", "here");
        ("वहाँ", "there"); ("क्या", "what"); ("कौन", "who"); ("मैं", "i");
        ("आप", "you"); ("वह", "he"); ("हम", "we"); ("वे", "they");
        ("और", "and"); ("या", "or"); ("लेकिन", "but"); ("अगर", "if")
      ]);
    ("en-es",
      [
        ("hello", "hola"); ("hi", "hola"); ("goodbye", "adiós");
        ("bye", "adiós"); ("thank you", "gracias"); ("thanks", "gracias");
        ("sorry", "lo siento"); ("please", "por favor"); ("yes", "sí");
        ("no", "no"); ("okay", "está bien"); ("good", "bueno");
        ("bad", "malo"); ("water", "agua"); ("food", "comida");
        ("home", "casa"); ("school", "escuela"); ("work", "trabajo");
        ("time", "tiempo"); ("money", "dinero"); ("friend", "amigo");
        ("family", "familia"); ("love", "amor"); ("i", "yo"); ("you", "tú");
        ("he", "él"); ("she", "ella"); ("we", "nosotros"); ("what", "qué");
        ("where", "dónde"); ("when", "cuándo"); ("how", "cómo"); ("and", "y");
        ("or", "o"); ("but", "pero"); ("if", "si");
        ("how are you", "cómo estás"); ("my name is", "mi nombre es");
        ("good morning", "buenos días"); ("good night", "buenas noches")
      ]);
    ("es-en",
      [
        ("hola", "hello"); ("adiós", "goodbye"); ("gracias", "thank you");
        ("lo siento", "sorry"); ("por favor", "please"); ("sí", "yes");
        ("no", "no"); ("bueno", "good"); ("malo", "bad"); ("agua", "water");
        ("comida", "food"); ("casa", "home"); ("escuela", "school");
        ("trabajo", "work"); ("tiempo", "time"); ("dinero", "money");
        ("amigo", "friend"); ("familia", "family"); ("amor", "love");
        ("yo", "i"); ("tú", "you"); ("él", "he"); ("ella", "she");
        ("nosotros", "we"); ("qué", "what"); ("dónde", "where")
      ]);
    ("en-fr",
      [
        ("hello", "bonjour"); ("hi", "salut"); ("goodbye", "au revoir");
        ("thank you", "merci"); ("sorry", "désolé");
        ("please", "s'il vous plaît"); ("yes", "oui"); ("no", "non");
        ("water", "eau"); ("food", "nourriture"); ("home", "maison");
        ("love", "amour"); ("good morning", "bonjour");
        ("good night", "bonne nuit")
      ]);
    ("fr-en",
      [
        ("bonjour", "hello"); ("salut", "hi"); ("au revoir", "goodbye");
        ("merci", "thank you"); ("désolé", "sorry"); ("oui", "yes");
        ("non", "no"); ("eau", "water"); ("amour", "love")
      ]);
    ("en-pt",
      [
        ("hello", "olá"); ("goodbye", "tchau"); ("thank you", "obrigado");
        ("sorry", "desculpa"); ("yes", "sim"); ("no", "não");
        ("water", "água"); ("love", "amor"); ("good morning", "bom dia")
      ]);
    ("pt-en",
      [
        ("olá", "hello"); ("tchau", "goodbye"); ("obrigado", "thank you");
        ("desculpa", "sorry"); ("sim", "yes"); ("não", "no");
        ("água", "water")
      ]);
    ("en-ne",
      [
        ("hello", "नमस्ते"); ("hi", "नमस्ते"); ("goodbye", "बिदाई");
        ("thank you", "धन्यवाद"); ("thanks", "धन्यवाद");
        ("sorry", "माफ गर्नुहोस्"); ("please", "कृपया"); ("yes", "हो");
        ("no", "होइन"); ("water", "पानी"); ("food", "खाना"); ("home", "घर");
        ("house", "घर"); ("school", "विद्यालय"); ("work", "काम");
        ("job", "काम"); ("time", "समय"); ("money", "पैसा");
        ("friend", "मित्र"); ("family", "परिवार"); ("love", "प्रेम");
        ("happiness", "खुशी"); ("sadness", "दुःख"); ("health", "स्वास्थ्य");
        ("education", "शिक्षा")
      ]);
    ("ne-en",
      [
        ("नमस्ते", "Hello"); ("बिदाई", "Goodbye"); ("धन्यवाद", "Thank you");
        ("माफ गर्नुहोस्", "Sorry"); ("कृपया", "Please"); ("हो", "Yes");
        ("होइन", "No"); ("पानी", "Water"); ("खाना", "Food"); ("घर", "Home");
        ("विद्यालय", "School"); ("काम", "Work"); ("समय", "Time");
        ("पैसा", "Money"); ("मित्र", "Friend"); ("परिवार", "Family");
        ("प्रेम", "Love"); ("खुशी", "Happiness"); ("दुःख", "Sadness");
        ("स्वास्थ्य", "Health"); ("शिक्षा", "Education")
      ]);
    ("en-si",
      [
        ("hello", "ආයුබෝවන්"); ("hi", "ආයුබෝවන්"); ("goodbye", "ගිහින් එන්න");
        ("thank you", "ස්තූතියි"); ("thanks", "ස්තූතියි");
        ("sorry", "සමාවන්න"); ("please", "කරුණාකර"); ("yes", "ඔව්");
        ("no", "නැහැ"); ("water", "වතුර"); ("food", "කෑම"); ("home", "ගෙදර");
        ("house", "ගෙදර"); ("school", "පාසල"); ("work", "වැඩ");
        ("job", "රැකියාව"); ("time", "වෙලාව"); ("money", "පිසු");
        ("friend", "යාළුවා"); ("family", "පවුල"); ("love", "ආදරය");
        ("happiness", "සතුට"); ("sadness", "දුක"); ("health", "සෞඛ්‍යය");
        ("education", "අධ්‍යාපනය"); ("good morning", "සුභ උදෑසනක්");
        ("good evening", "සුභ සන්ධ්‍යාවක්"); ("good night", "සුභ රාත්‍රියක්");
        ("how are you", "ඔයා කොහොමද"); ("my name is", "මගේ නම");
        ("nice to meet you", "ඔයාව මුණගැසීම සතුටක්")
      ]);
    ("si-en",
      [
        ("ආයුබෝවන්", "Hello"); ("ගිහින් එන්න", "Goodbye");
        ("ස්තූතියි", "Thank you"); ("සමාවන්න", "Sorry");
        ("කරුණාකර", "Please"); ("ඔව්", "Yes"); ("නැහැ", "No");
        ("වතුර", "Water"); ("කෑම", "Food"); ("ගෙදර", "Home");
        ("පාසල", "School"); ("වැඩ", "Work"); ("රැකියාව", "Job");
        ("වෙලාව", "Time"); ("පිසු", "Money"); ("යාළුවා", "Friend");
        ("පවුල", "Family"); ("ආදරය", "Love"); ("සතුට", "Happiness");
        ("දුක", "Sadness"); ("සෞන්‍යය", "Health"); ("අධ්‍යාපනය", "Education");
        ("සුභ උදෑසනක්", "Good morning"); ("සුභ සන්ධ්‍යාවක්", "Good evening");
        ("සුභ රාත්‍රියක්", "Good night"); ("ඔයා කොහොමද", "How are you");
        ("මගේ නම", "My name is"); ("මම සිංහල කතා කරනවා", "I speak Sinhala");
        ("ඔයාව මුණගැසීම සතුටක්", "Nice to meet you");
        ("මේක කීයද", "How much is this")
      ]);
    ("es-en",
      [
        ("hola", "hello"); ("gracias", "thank you"); ("lo siento", "sorry");
        ("por favor", "please"); ("sí", "yes"); ("no", "no");
        ("agua", "water"); ("comida", "food"); ("casa", "home");
        ("escuela", "school"); ("trabajo", "work"); ("tiempo", "time");
        ("dinero", "money"); ("amigo", "friend"); ("familia", "family");
        ("amor", "love")
      ]);
    ("en-es",
      [
        ("hello", "hola"); ("hi", "hola"); ("thank you", "gracias");
        ("sorry", "lo siento"); ("please", "por favor"); ("yes", "sí");
        ("no", "no"); ("water", "agua"); ("food", "comida"); ("home", "casa");
        ("school", "escuela"); ("work", "trabajo"); ("time", "tiempo");
        ("money", "dinero"); ("friend", "amigo"); ("family", "familia");
        ("love", "amor")
      ]);
    ("en-pt",
      [
        ("hello", "olá"); ("hi", "oi"); ("goodbye", "tchau");
        ("thank you", "obrigado"); ("thanks", "obrigado");
        ("sorry", "desculpa"); ("please", "por favor"); ("yes", "sim");
        ("no", "não"); ("water", "água"); ("food", "comida");
        ("home", "casa"); ("house", "casa"); ("school", "escola");
        ("work", "trabalho"); ("job", "trabalho"); ("time", "tempo");
        ("money", "dinheiro"); ("friend", "amigo"); ("family", "família");
        ("love", "amor"); ("happiness", "felicidade");
        ("sadness", "tristeza"); ("health", "saúde");
        ("education", "educação")
      ]);
    ("pt-en",
      [
        ("olá", "hello"); ("oi", "hi"); ("tchau", "goodbye");
        ("obrigado", "thank you"); ("desculpa", "sorry");
        ("por favor", "please"); ("sim", "yes"); ("não", "no");
        ("água", "water"); ("comida", "food"); ("casa", "home");
        ("escola", "school"); ("trabalho", "work"); ("tempo", "time");
        ("dinheiro", "money"); ("amigo", "friend"); ("família", "family");
        ("amor", "love"); ("felicidade", "happiness");
        ("tristeza", "sadness"); ("saúde", "health");
        ("educação", "education")
      ]);
    ("en-fr",
      [
        ("hello", "bonjour"); ("hi", "salut"); ("goodbye", "au revoir");
        ("thank you", "merci"); ("thanks", "merci"); ("sorry", "désolé");
        ("please", "s'il vous plaît"); ("yes", "oui"); ("no", "non");
        ("water", "eau"); ("food", "nourriture"); ("home", "maison");
        ("house", "maison"); ("school", "école"); ("work", "travail");
        ("job", "emploi"); ("time", "temps"); ("money", "argent");
        ("friend", "ami"); ("family", "famille"); ("love", "amour");
        ("happiness", "bonheur"); ("sadness", "tristesse");
        ("health", "santé"); ("education", "éducation")
      ]);
    ("fr-en",
      [
        ("bonjour", "hello"); ("salut", "hi"); ("au revoir", "goodbye");
        ("merci", "thank you"); ("désolé", "sorry");
        ("s'il vous plaît", "please"); ("oui", "yes"); ("non", "no");
        ("eau", "water"); ("nourriture", "food"); ("maison", "home");
        ("école", "school"); ("travail", "work"); ("emploi", "job");
        ("temps", "time"); ("argent", "money"); ("ami", "friend");
        ("famille", "family"); ("amour", "love"); ("bonheur", "happiness");
        ("tristesse", "sadness"); ("santé", "health");
        ("éducation", "education")
      ]);
    ("en-de",
      [
        ("hello", "hallo"); ("hi", "hallo"); ("goodbye", "auf wiedersehen");
        ("thank you", "danke"); ("thanks", "danke");
        ("sorry", "entschuldigung"); ("please", "bitte"); ("yes", "ja");
        ("no", "nein"); ("water", "wasser"); ("food", "essen");
        ("home", "zuhause"); ("house", "haus"); ("school", "schule");
        ("work", "arbeit"); ("job", "job"); ("time", "zeit");
        ("money", "geld"); ("friend", "freund"); ("family", "familie");
        ("love", "liebe"); ("happiness", "glück"); ("sadness", "traurigkeit");
        ("health", "gesundheit"); ("education", "bildung")
      ]);
    ("de-en",
      [
        ("hallo", "hello"); ("auf wiedersehen", "goodbye");
        ("danke", "thank you"); ("entschuldigung", "sorry");
        ("bitte", "please"); ("ja", "yes"); ("nein", "no");
        ("wasser", "water"); ("essen", "food"); ("zuhause", "home");
        ("haus", "house"); ("schule", "school"); ("arbeit", "work");
        ("job", "job"); ("zeit", "time"); ("geld", "money");
        ("freund", "friend"); ("familie", "family"); ("liebe", "love");
        ("glück", "happiness"); ("traurigkeit", "sadness");
        ("gesundheit", "health"); ("bildung", "education")
      ]);
    ("en-bn",
      [
        ("hello", "হ্যালো"); ("hi", "হাই"); ("goodbye", "বিদায়");
        ("thank you", "ধন্যবাদ"); ("thanks", "ধন্যবাদ"); ("sorry", "দুঃখিত");
        ("please", "অনুগ্রহ করে"); ("yes", "হ্যাঁ"); ("no", "না");
        ("water", "পানি"); ("food", "খাবার"); ("home", "বাড়ি");
        ("house", "বাড়ি"); ("school", "স্কুল"); ("work", "কাজ");
        ("job", "চাকরি"); ("time", "সময়"); ("money", "টাকা");
        ("friend", "বন্ধু"); ("family", "পরিবার"); ("love", "ভালোবাসা");
        ("happiness", "খুশি"); ("sadness", "দুঃখ"); ("health", "স্বাস্থ্য");
        ("education", "শিক্ষা")
      ]);
    ("bn-en",
      [
        ("হ্যালো", "hello"); ("হাই", "hi"); ("বিদায়", "goodbye");
        ("ধন্যবাদ", "thank you"); ("দুঃখিত", "sorry");
        ("অনুগ্রহ করে", "please"); ("হ্যাঁ", "yes"); ("না", "no");
        ("পানি", "water"); ("খাবার", "food"); ("বাড়ি", "home");
        ("স্কুল", "school"); ("কাজ", "work"); ("চাকরি", "job");
        ("সময়", "time"); ("টাকা", "money"); ("বন্ধু", "friend");
        ("পরিবার", "family"); ("ভালোবাসা", "love"); ("খুশি", "happiness");
        ("দুঃখ", "sadness"); ("স্বাস্থ্য", "health"); ("শিক্ষা", "education")
      ]);
    ("en-ta",
      [
        ("hello", "வணக்கம்"); ("hi", "ஹாய்"); ("goodbye", "பிரியாவிடை");
        ("thank you", "நன்றி"); ("thanks", "நன்றி");
        ("sorry", "மன்னிக்கவும்"); ("please", "தயவுசெய்து"); ("yes", "ஆம்");
        ("no", "இல்லை"); ("water", "தண்ணீர்"); ("food", "உணவு");
        ("home", "வீடு"); ("house", "வீடு"); ("school", "பள்ளி");
        ("work", "வேலை"); ("job", "வேலை"); ("time", "நேரம்");
        ("money", "பணம்"); ("friend", "நண்பர்"); ("family", "குடும்பம்");
        ("love", "அன்பு"); ("happiness", "மகிழ்ச்சி"); ("sadness", "துக்கம்");
        ("health", "உடல்நலம்"); ("education", "கல்வி")
      ]);
    ("ta-en",
      [
        ("வணக்கம்", "hello"); ("ஹாய்", "hi"); ("பிரியாவிடை", "goodbye");
        ("நன்றி", "thank you"); ("மன்னிக்கவும்", "sorry");
        ("தயவுசெய்து", "please"); ("ஆம்", "yes"); ("இல்லை", "no");
        ("தண்ணீர்", "water"); ("உணவு", "food"); ("வீடு", "home");
        ("பள்ளி", "school"); ("வேலை", "work"); ("நேரம்", "time");
        ("பணம்", "money"); ("நண்பர்", "friend"); ("குடும்பம்", "family");
        ("அன்பு", "love"); ("மகிழ்ச்சி", "happiness"); ("துக்கம்", "sadness");
        ("உடல்நலம்", "health"); ("கல்வி", "education")
      ]);
    ("en-te",
      [
        ("hello", "హలో"); ("hi", "హాయ్"); ("thank you", "ధన్యవాదాలు");
        ("sorry", "క్షమించండి"); ("please", "దయచేసి"); ("yes", "అవును");
        ("no", "లేదు"); ("water", "నీరు"); ("food", "ఆహారం");
        ("home", "ఇల్లు")
      ]);
    ("te-en",
      [
        ("హలో", "hello"); ("హాయ్", "hi"); ("ధన్యవాదాలు", "thank you");
        ("క్షమించండి", "sorry")
      ]);
    ("en-ur",
      [
        ("hello", "ہیلو"); ("hi", "سلام"); ("thank you", "شکریہ");
        ("sorry", "معاف کریں"); ("please", "براہ کرم"); ("yes", "ہاں");
        ("no", "نہیں"); ("water", "پانی"); ("food", "کھانا"); ("home", "گھر")
      ]);
    ("ur-en",
      [
        ("ہیلو", "hello"); ("سلام", "hi"); ("شکریہ", "thank you");
        ("معاف کریں", "sorry")
      ]);
    ("en-zh",
      [
        ("hello", "你好"); ("hi", "嗨"); ("thank you", "謝謝"); ("sorry", "對不起");
        ("please", "請"); ("yes", "是"); ("no", "不是"); ("water", "水");
        ("food", "食物"); ("home", "家")
      ]);
    ("zh-en",
      [
        ("你好", "hello"); ("嗨", "hi"); ("謝謝", "thank you"); ("對不起", "sorry")
      ]);
    ("en-ja",
      [
        ("hello", "こんにちは"); ("hi", "やあ"); ("thank you", "ありがとう");
        ("sorry", "ごめんなさい"); ("please", "お願いします"); ("yes", "はい");
        ("no", "いいえ"); ("water", "水"); ("food", "食べ物"); ("home", "家")
      ]);
    ("ja-en",
      [
        ("こんにちは", "hello"); ("やあ", "hi"); ("ありがとう", "thank you");
        ("ごめんなさい", "sorry")
      ]);
    ("en-ko",
      [
        ("hello", "안녕하세요"); ("hi", "안녕"); ("thank you", "감사합니다");
        ("sorry", "죄송합니다"); ("please", "제발"); ("yes", "네"); ("no", "아니오");
        ("water", "물"); ("food", "음식"); ("home", "집")
      ]);
    ("ko-en",
      [
        ("안녕하세요", "hello"); ("안녕", "hi"); ("감사합니다", "thank you");
        ("죄송합니다", "sorry")
      ]);
    ("en-ar",
      [
        ("hello", "مرحبا"); ("hi", "أهلا"); ("thank you", "شكرا");
        ("sorry", "آسف"); ("please", "من فضلك"); ("yes", "نعم"); ("no", "لا");
        ("water", "ماء"); ("food", "طعام"); ("home", "منزل")
      ]);
    ("ar-en",
      [
        ("مرحبا", "hello"); ("أهلا", "hi"); ("شكرا", "thank you");
        ("آسف", "sorry")
      ]);
    ("en-ru",
      [
        ("hello", "привет"); ("hi", "привет"); ("thank you", "спасибо");
        ("sorry", "извините"); ("please", "пожалуйста"); ("yes", "да");
        ("no", "нет"); ("water", "вода"); ("food", "еда"); ("home", "дом")
      ]);
    ("ru-en",
      [
        ("привет", "hello"); ("спасибо", "thank you"); ("извините", "sorry");
        ("пожалуйста", "please")
      ])
  ]%string.

Definition dictionary_of (l : list (string * string)) : TranslationPair :=
  object_literal (map (fun kv => (lit (fst kv), lit (snd kv))) l).

Definition translations : LanguageDict :=
  object_literal
    (map (fun kd => (lit (fst kd), dictionary_of (snd kd)))
         translations_source).

(** The key [`${sourceLang}-${targetLang}`].  It contains a hyphen, so
    it is never the name of an inherited member and reads of
    [translations] and [patternRules] only find own properties. *)
Definition pairKey (sourceLang targetLang : jsstring) : jsstring :=
  sourceLang ++ lit "-" ++ targetLang.

Section Service.
Context {H : Host}.

(** The loop of [applyPatternRules] over the captures [m[i]], from
    [i]: each [$i] of [out] is replaced by the trimmed capture. *)
Fixpoint substituteGroups (i : nat) (m : list (option jsstring))
         (out : jsstring) : jsstring :=
  match m with
  | [] => out
  | g :: m' =>
    let grp := trim (match g with Some s => s | None => [] end) in
    substituteGroups (S i) m' (replaceAll out (lit "$" ++ decimal i) grp)
  end.

Fixpoint applyRules (rules : list PatternRule) (original : jsstring)
  : option jsstring :=
  match rules with
  | [] => None
  | r :: rules' =>
    match match_ (pattern r) original with
    | Some m => Some (substituteGroups 1 m (template r))
    | None => applyRules rules' original
    end
  end.

Definition applyPatternRules (text sourceLang targetLang : jsstring)
  : option jsstring :=
  match own_get patternRules (pairKey sourceLang targetLang) with
  | None => None
  | Some rules => applyRules rules (trim text)
  end.

(** ** Segmenter *)

(** [[.!?।॥｜]] *)
Definition isSentenceEnder (c : N) : bool :=
  existsb (N.eqb c) (lit ".!?।॥｜").

Definition isParagraph (text : jsstring) : bool :=
  Nat.ltb 1 (length (filter isSentenceEnder text)).

Definition isSentence (text : jsstring) : bool :=
  let hasMultipleWords := Nat.ltb 3 (length (split_ws (trim text))) in
  existsb isSentenceEnder text || hasMultipleWords.

Definition isPhrase (text : jsstring) : bool :=
  Nat.ltb 1 (length (split_ws (trim text))).

Definition splitIntoSentences (text : jsstring) : list jsstring :=
  filter (fun s => Nat.ltb 0 (length (trim s)))
         (split (sep_run isSentenceEnder) text).

(** The delimiter class of [splitIntoMeaningfulChunks]; 34 is the
    double quote. *)
Definition isDelimiter (c : N) : bool :=
  existsb (N.eqb c) (lit ",;:()[]{}'`।") || (c =? 34)%N.

(** Windows of three words, each joined by a space. *)
Fixpoint phraseChunks (words : list jsstring) : list jsstring :=
  match words with
  | [] => []
  | a :: b :: c :: r => join (lit " ") [a; b; c] :: phraseChunks r
  | l => [join (lit " ") l]
  end.

Definition splitIntoMeaningfulChunks (text : jsstring) : list jsstring :=
  let chunks :=
    filter (fun chunk => Nat.ltb 0 (length chunk))
           (map trim (split (sep_one isDelimiter) text)) in
  if Nat.eqb (length chunks) 1
  then phraseChunks (split_ws (trim text))
  else chunks.

(** ** Resolution engine *)

Definition isHighSurrogate (c : N) : bool := ((55296 <=? c) && (c <=? 56319))%N.
Definition isLowSurrogate (c : N) : bool := ((56320 <=? c) && (c <=? 57343))%N.

(** [s.replace(/[^\p{L}\p{N}]/gu, '')]: with the [u] flag the subject
    is read by code points. *)
Fixpoint stripNonLetterNumber (s : jsstring) : jsstring :=
  match s with
  | [] => []
  | c :: r =>
    match r with
    | d :: r' =>
      if isHighSurrogate c && isLowSurrogate d then
        if isLetterOrNumber (65536 + (c - 55296) * 1024 + (d - 56320))%N
        then c :: d :: stripNonLetterNumber r'
        else stripNonLetterNumber r'
      else if isLetterOrNumber c then c :: stripNonLetterNumber r
      else stripNonLetterNumber r
    | [] => if isLetterOrNumber c then [c] else []
    end
  end.

Definition translateWord (text : jsstring) (translations : TranslationPair)
  : jsval :=
  let cleanText := trim (toLowerCase text) in
  let originalText := trim text in
  match lookup translations cleanText with
  | Some v => v
  | None =>
    match lookup translations originalText with
    | Some v => v
    | None =>
      let cleanWord := stripNonLetterNumber cleanText in
      match lookup translations cleanWord with
      | Some v => v
      | None => Own text
      end
    end
  end.

Definition translateWordByWord (text : jsstring)
           (translations : TranslationPair) : jsstring :=
  let words := split_ws (trim text) in
  let translatedWords :=
    map (fun word => translateWord word translations) words in
  join (lit " ") (map ToString translatedWords).

Definition translatePhrase (text : jsstring) (translations : TranslationPair)
  : jsval :=
  let cleanText := trim (toLowerCase text) in
  match lookup translations cleanText with
  | Some v => v
  | None =>
    match
      find (fun entry =>
              let phrase := fst entry in
              Nat.ltb 3 (length phrase)
              && (includes cleanText phrase || includes phrase cleanText))
           translations
    with
    | Some (_, translation) => Own translation
    | None => Own (translateWordByWord text translations)
    end
  end.

Definition translateSentence (text : jsstring) (translations : TranslationPair)
           (sourceLang targetLang : jsstring) : jsstring :=
  match
    match applyPatternRules text sourceLang targetLang with
    | Some patterned => if is_empty patterned then None else Some patterned
    | None => None
    end
  with
  | Some patterned => patterned
  | None =>
    let cleanText := trim (toLowerCase text) in
    match
      find (fun entry =>
              let phrase := fst entry in
              Nat.ltb 10 (length phrase)
              && includes cleanText (toLowerCase phrase))
           translations
    with
    | Some (phrase, translation) =>
      replace cleanText (toLowerCase phrase) translation
    | None =>
      let chunks := splitIntoMeaningfulChunks text in
      let translatedChunks :=
        map (fun chunk => translatePhrase chunk translations) chunks in
      join (lit " ") (map ToString translatedChunks)
    end
  end.

(** One line of [translateParagraph]. *)
Definition translateLine (line : jsstring) (translations : TranslationPair)
           (sourceLang targetLang : jsstring) : jsstring :=
  if is_empty (trim line) then []
  else
    let sentences := splitIntoSentences line in
    let translatedSentences :=
      map (fun sentence =>
             translateSentence sentence translations sourceLang targetLang)
          (filter (fun sentence => negb (is_empty (trim sentence)))
                  sentences) in
    join (lit " ") translatedSentences.

Definition translateParagraph (text : jsstring)
           (translations : TranslationPair)
           (sourceLang targetLang : jsstring) : jsstring :=
  let lines := split sep_newline text in
  let translatedLines :=
    map (fun line => translateLine line translations sourceLang targetLang)
        lines in
  join (lit (String "010"%char EmptyString)) translatedLines.

(** [translateComplexText] starts with [text.trim()]: a [text] that is
    not a string has no [trim] method, and the call throws. *)
Definition translateComplexText (text : jsval)
           (translations : TranslationPair)
           (sourceLang targetLang : jsstring) : completion jsval :=
  match text with
  | Inherited _ => Thrown (lit "TypeError: text.trim is not a function")
  | Own text =>
    let originalText := trim text in
    let cleanText := trim (toLowerCase text) in
    match lookup translations cleanText with
    | Some v => Returned v
    | None =>
      match lookup translations originalText with
      | Some v => Returned v
      | None =>
        if isParagraph text then
          Returned (Own (translateParagraph text translations
                                            sourceLang targetLang))
        else if isSentence text then
          Returned (Own (translateSentence text translations
                                           sourceLang targetLang))
        else if isPhrase text then
          Returned (translatePhrase text translations)
        else
          Returned (translateWord text translations)
      end
    end
  end.

Definition bind {A B} (c : completion A) (f : A -> completion B)
  : completion B :=
  match c with
  | Returned a => f a
  | Thrown e => Thrown e
  end.

Definition translate (text : jsval) (sourceLang targetLang : jsstring)
  : completion jsval :=
  let translationKey := pairKey sourceLang targetLang in
  match own_get translations translationKey with
  | Some translations => 
    translateComplexText text translations sourceLang targetLang
  | None =>
    let toEnglish := own_get translations (pairKey sourceLang (lit "en")) in
    match (if str_eqb targetLang (lit "en") then toEnglish else None) with
    | Some toEnglish =>
      translateComplexText text toEnglish sourceLang (lit "en")
    | None =>
      let fromEnglish := own_get translations (pairKey (lit "en") targetLang) in
      match toEnglish, fromEnglish with
      | Some toEnglish, Some fromEnglish =>
        bind (translateComplexText text toEnglish sourceLang (lit "en"))
             (fun intermediate =>
                translateComplexText intermediate fromEnglish
                                     (lit "en") targetLang)
      | Some toEnglish, None =>
        translateComplexText text toEnglish sourceLang (lit "en")
      | None, _ =>
        Returned (Own (lit "[No dictionary: " ++ sourceLang ++ lit "-"
                           ++ targetLang ++ lit "] " ++ ToString text))
      end
    end
  end.

Definition isLanguagePairSupported (sourceLang targetLang : jsstring) : bool :=
  match own_get translations (pairKey sourceLang targetLang) with
  | Some _ => true
  | None => false
  end.

Definition getSupportedLanguagePairs : list jsstring := obj_keys translations.

End Service.

(** ** Line structure, for stating line preservation *)

(** The number of line feeds of a text. *)
Definition lineFeeds (s : jsstring) : nat := length (filter (N.eqb 10) s).

(** The lines of an output text: the pieces between line feeds. *)
Definition outputLines (s : jsstring) : list jsstring :=
  split (sep_one (N.eqb 10)) s.

(** The lines of an input text, as [translateParagraph] takes them. *)
Definition inputLines (s : jsstring) : list jsstring := split sep_newline s.

End Fallback.

(* ================================================================== *)
(** * OfflineTranslationService ([src/services/OfflineTranslation.ts]) *)
(* ================================================================== *)

Module Offline.
Import JS Numbers.

(** The demo dictionary of the Nepali pack ([new Map([...])]). *)
Definition dictionary_ne_source : list (string * string) :=
  [
    ("नमस्ते", "Hello"); ("धन्यवाद", "Thank you"); ("माफ गर्नुहोस्", "Sorry");
    ("कृपया", "Please"); ("हो", "Yes"); ("होइन", "No"); ("पानी", "Water");
    ("खाना", "Food"); ("घर", "Home"); ("विद्यालय", "School"); ("काम", "Work");
    ("समय", "Time"); ("पैसा", "Money"); ("मित्र", "Friend");
    ("परिवार", "Family"); ("प्रेम", "Love"); ("खुशी", "Happiness");
    ("दुःख", "Sadness"); ("स्वास्थ्य", "Health"); ("शिक्षा", "Education");
    ("तपाईं कस्तो हुनुहुन्छ?", "How are you?"); ("मेरो नाम", "My name is");
    ("म नेपाली बोल्छु", "I speak Nepali");
    ("तपाईंलाई भेटेर खुशी लाग्यो", "Nice to meet you");
    ("यो कति हो?", "How much is this?")
  ]%string.

(** The demo dictionary of the Sinhala pack ([new Map([...])]). *)
Definition dictionary_si_source : list (string * string) :=
  [
    ("ආයුබෝවන්", "Hello"); ("ස්තූතියි", "Thank you"); ("සමාවන්න", "Sorry");
    ("කරුණාකර", "Please"); ("ඔව්", "Yes"); ("නැහැ", "No"); ("වතුර", "Water");
    ("කෑම", "Food"); ("ගෙදර", "Home"); ("පාසල", "School"); ("වැඩ", "Work");
    ("වෙලාව", "Time"); ("පිසු", "Money"); ("යාළුවා", "Friend");
    ("පවුල", "Family"); ("ආදරය", "Love"); ("සතුට", "Happiness");
    ("දුක", "Sadness"); ("සෞඛ්‍යය", "Health"); ("අධ්‍යාපනය", "Education");
    ("ඔයා කොහොමද?", "How are you?"); ("මගේ නම", "My name is");
    ("මම සිංහල කතා කරනවා", "I speak Sinhala");
    ("ඔයාව මුණගැසීම සතුටක්", "Nice to meet you");
    ("මේක කීයද?", "How much is this?")
  ]%string.

Definition Dictionary := jsobject jsstring.

(** [new Map([[k, v], ...])]: entries in insertion order. *)
Definition map_of (l : list (string * string)) : Dictionary :=
  object_literal (map (fun kv => (lit (fst kv), lit (snd kv))) l).

(** The [dictionaries] object of [loadLanguageDictionary].  It is only
    read at the code of an existing pack, and packs exist for ['ne'] and
    ['si'], both own keys. *)
Definition dictionaries : jsobject Dictionary :=
  [ (lit "ne", map_of dictionary_ne_source);
    (lit "si", map_of dictionary_si_source) ].

Section Service.
Context {H : Host} {NUM : Number}.

Record LanguagePack : Type := {
  code : jsstring;
  name : jsstring;
  nativeName : jsstring;
  version : jsstring;
  size : num;                      (* in MB *)
  downloadUrl : jsstring;
  isDownloaded : bool;
  lastUpdated : Z;                 (* time value, in ms *)
  dictionary : Dictionary
}.

(** An entry of [TranslationCache]; the time value of an invalid date
    is [NaN], here [None]. *)
Record CacheEntry : Type := {
  translation : jsstring;
  confidence : num;
  timestamp : option Z
}.

(** The service object.  [languagePacks] is a [Map] (entries in
    insertion order), [translationCache] a plain object;
    [languagePackStatus] is the object persisted under that key of the
    local storage, which only this service writes. *)
Record State : Type := {
  languagePacks : jsobject LanguagePack;
  translationCache : jsobject CacheEntry;
  languagePackStatus : jsobject bool
}.

Definition set_isDownloaded (p : LanguagePack) (b : bool) : LanguagePack :=
  {| code := code p; name := name p; nativeName := nativeName p;
     version := version p; size := size p; downloadUrl := downloadUrl p;
     isDownloaded := b; lastUpdated := lastUpdated p;
     dictionary := dictionary p |}.

Definition set_dictionary (p : LanguagePack) (d : Dictionary) : LanguagePack :=
  {| code := code p; name := name p; nativeName := nativeName p;
     version := version p; size := size p; downloadUrl := downloadUrl p;
     isDownloaded := isDownloaded p; lastUpdated := lastUpdated p;
     dictionary := d |}.

Definition with_packs (st : State) (ps : jsobject LanguagePack) : State :=
  {| languagePacks := ps; translationCache := translationCache st;
     languagePackStatus := languagePackStatus st |}.

Definition with_cache (st : State) (c : jsobject CacheEntry) : State :=
  {| languagePacks := languagePacks st; translationCache := c;
     languagePackStatus := languagePackStatus st |}.

Definition with_status (st : State) (s : jsobject bool) : State :=
  {| languagePacks := languagePacks st;
     translationCache := translationCache st; languagePackStatus := s |}.

(** The packs of [initializeLanguagePacks], created at time [now]. *)
Definition initialPacks (now : Z) : list LanguagePack :=
  [ {| code := lit "ne"; name := lit "Nepali"; nativeName := lit "नेपाली";
       version := lit "1.0.0"; size := ofHundredths 1550;
       downloadUrl := lit "/language-packs/nepali-en.pack";
       isDownloaded := false; lastUpdated := now; dictionary := [] |};
    {| code := lit "si"; name := lit "Sinhala"; nativeName := lit "සිංහල";
       version := lit "1.0.0"; size := ofHundredths 1230;
       downloadUrl := lit "/language-packs/sinhala-en.pack";
       isDownloaded := false; lastUpdated := now; dictionary := [] |} ].

Definition initializeLanguagePacks (now : Z) : jsobject LanguagePack :=
  fold_left (fun m pack => obj_set m (code pack) pack) (initialPacks now) [].

Definition isLanguagePackDownloaded (st : State) (langCode : jsstring) : bool :=
  match own_get (languagePacks st) langCode with
  | Some pack => isDownloaded pack
  | None => false
  end.

Definition getAvailableLanguagePacks (st : State) : list LanguagePack :=
  map snd (languagePacks st).

Definition loadLanguageDictionary (st : State) (langCode : jsstring) : State :=
  match own_get (languagePacks st) langCode with
  | None => st
  | Some pack =>
    match own_get dictionaries langCode with
    | Some dictionary =>
      with_packs st
        (obj_set (languagePacks st) langCode (set_dictionary pack dictionary))
    | None => st
    end
  end.

Definition saveLanguagePackStatus (st : State) (langCode : jsstring)
           (isDownloaded : bool) : State :=
  with_status st (obj_set (languagePackStatus st) langCode isDownloaded).

Definition setDownloaded (st : State) (langCode : jsstring) (b : bool) : State :=
  match own_get (languagePacks st) langCode with
  | Some pack =>
    with_packs st (obj_set (languagePacks st) langCode (set_isDownloaded pack b))
  | None => st
  end.

(** The values passed to [onProgress]: [(i / totalSteps) * 100] for
    [i = 0, ..., totalSteps]. *)
Definition progressValues (totalSteps : nat) : list num :=
  map (fun i => percent i totalSteps) (seq 0 (S totalSteps)).

(** Result of [downloadLanguagePack]: the boolean, the progress
    reported, the state.  The callback and the storage are taken not to
    fail, so the [catch] branch is not entered. *)
Definition downloadLanguagePack (st : State) (langCode : jsstring)
  : completion (bool * list num * State) :=
  match own_get (languagePacks st) langCode with
  | None => Thrown (lit "Language pack not found: " ++ langCode)
  | Some _ =>
    let totalSteps := 100 in
    let progress := progressValues totalSteps in
    let st1 := loadLanguageDictionary st langCode in
    let st2 := setDownloaded st1 langCode true in
    let st3 := saveLanguagePackStatus st2 langCode true in
    Returned (true, progress, st3)
  end.

Definition performDictionaryTranslation (text : jsstring)
           (dictionary : Dictionary) : jsstring :=
  match map_lookup dictionary (trim text) with
  | Some exactMatch => exactMatch
  | None =>
    let words := split_ws text in
    let translatedWords :=
      map (fun word =>
             let cleanWord := trim (toLowerCase word) in
             match map_lookup dictionary cleanWord with
             | Some t => t
             | None => word
             end) words in
    let result := join (lit " ") translatedWords in
    if negb (str_eqb result text) then result else text
  end.

Definition performPhraseTranslation (text : jsstring)
           (dictionary : Dictionary) : jsstring :=
  match
    find (fun entry => includes text (fst entry) || includes (fst entry) text)
         dictionary
  with
  | Some (_, translation) => translation
  | None => lit "[Offline] " ++ text
  end.

Definition TTL : Z := 24 * 60 * 60 * 1000.

(** The key [`${sourceLang}-${targetLang}-${text}`]. *)
Definition cacheKey (text sourceLang targetLang : jsstring) : jsstring :=
  sourceLang ++ lit "-" ++ targetLang ++ lit "-" ++ text.

(** [Date.now() - cached.timestamp.getTime() < 24 * 60 * 60 * 1000];
    a comparison with [NaN] is false. *)
Definition isRecent (now : Z) (cached : CacheEntry) : bool :=
  match timestamp cached with
  | Some t => (now - t <? TTL)%Z
  | None => false
  end.

(** [translateOffline] at time [now]. *)
Definition translateOffline (st : State) (text sourceLang targetLang : jsstring)
           (now : Z) : completion (jsstring * State) :=
  if negb (isLanguagePackDownloaded st sourceLang) then
    Thrown (lit "Language pack not downloaded: " ++ sourceLang)
  else
    let cacheKey := cacheKey text sourceLang targetLang in
    let cached := obj_get (translationCache st) cacheKey in
    match cached with
    | Some (Inherited _) =>
      Thrown (lit "TypeError: cached.timestamp is undefined")
    | _ =>
      match
        match cached with
        | Some (Own cached) =>
          if isRecent now cached then Some (translation cached) else None
        | _ => None
        end
      with
      | Some t => Returned (t, st)
      | None =>
        match own_get (languagePacks st) sourceLang with
        | None => Thrown (lit "Dictionary not available for: " ++ sourceLang)
        | Some pack =>
          let translation :=
            performDictionaryTranslation text (dictionary pack) in
          let translation :=
            if str_eqb translation text
            then performPhraseTranslation text (dictionary pack)
            else translation in
          let entry :=
            {| translation := translation;
               confidence :=
                 if str_eqb translation text
                 then ofHundredths 30 else ofHundredths 80;
               timestamp := Some now |} in
          Returned
            (translation,
             with_cache st (obj_set (translationCache st) cacheKey entry))
        end
      end
    end.

Definition clearDictionary (st : State) (langCode : jsstring) : State :=
  match own_get (languagePacks st) langCode with
  | Some pack =>
    with_packs st (obj_set (languagePacks st) langCode (set_dictionary pack []))
  | None => st
  end.

(** The storage is taken not to fail, so the [catch] branch is not
    entered. *)
Definition removeLanguagePack (st : State) (langCode : jsstring)
  : bool * State :=
  match own_get (languagePacks st) langCode with
  | None => (false, st)
  | Some _ =>
    let st1 := setDownloaded st langCode false in
    let st2 := clearDictionary st1 langCode in
    let st3 := saveLanguagePackStatus st2 langCode false in
    let st4 :=
      with_cache st3
        (filter (fun entry =>
                   negb (startsWith (fst entry) (langCode ++ lit "-")))
                (translationCache st3)) in
    (true, st4)
  end.

Record StorageInfo : Type := {
  totalSize : num;
  usedSize : num;
  availablePacks : nat;
  downloadedPacks : nat
}.

(** [packs.reduce((sum, pack) => sum + pack.size, 0)] *)
Definition sumSizes (packs : list LanguagePack) : num :=
  fold_left (fun sum pack => add sum (size pack)) packs zero.

Definition getStorageInfo (st : State) : StorageInfo :=
  let packs := map snd (languagePacks st) in
  let downloadedPacks := filter isDownloaded packs in
  {| totalSize := sumSizes packs;
     usedSize := sumSizes downloadedPacks;
     availablePacks := length packs;
     downloadedPacks := length downloadedPacks |}.

Definition clearOfflineData (st : State) : State :=
  {| languagePacks :=
       map (fun kp =>
              (fst kp, set_dictionary (set_isDownloaded (snd kp) false) []))
           (languagePacks st);
     translationCache := [];
     languagePackStatus := [] |}.

(** [loadCachedTranslations]: the persisted cache becomes the cache;
    every pack whose persisted status is [true] is marked downloaded and
    its dictionary loaded. *)
Definition loadCachedTranslations (st : State)
           (cached : option (jsobject CacheEntry)) (status : jsobject bool)
  : State :=
  let st1 :=
    match cached with
    | Some parsed => with_cache st parsed
    | None => st
    end in
  fold_left
    (fun (s : State) (entry : jsstring * bool) =>
       match own_get (languagePacks s) (fst entry) with
       | Some _ =>
         if snd entry
         then loadLanguageDictionary (setDownloaded s (fst entry) true)
                                     (fst entry)
         else s
       | None => s
       end)
    status (with_status st1 status).

(** The constructor, run at time [now] over the persisted cache and
    status (well-formed: malformed data is not modelled). *)
Definition construct (now : Z) (cached : option (jsobject CacheEntry))
           (status : jsobject bool) : State :=
  loadCachedTranslations
    {| languagePacks := initializeLanguagePacks now;
       translationCache := []; languagePackStatus := [] |}
    cached status.

(** The public operations, as transitions of the service. *)
Inductive step : State -> State -> Prop :=
| step_download st langCode b progress st' :
    downloadLanguagePack st langCode = Returned (b, progress, st') ->
    step st st'
| step_translate st text sourceLang targetLang now r st' :
    translateOffline st text sourceLang targetLang now = Returned (r, st') ->
    step st st'
| step_remove st langCode b st' :
    removeLanguagePack st langCode = (b, st') ->
    step st st'
| step_clear st :
    step st (clearOfflineData st).

Inductive reachable : State -> Prop :=
| reachable_construct now cached status :
    reachable (construct now cached status)
| reachable_step st st' :
    reachable st -> step st st' -> reachable st'.

(** ** Predicates for the properties of the service *)

(** Every pack has a non-negative declared size. *)
Definition sizes_ok (ps : jsobject LanguagePack) : Prop :=
  Forall (fun kp => le zero (size (snd kp))) ps.

(** What is expected of a storage summary. *)
Definition summary_ok (info : StorageInfo) : Prop :=
  le (usedSize info) (totalSize info)
  /\ downloadedPacks info <= availablePacks info
  /\ le zero (totalSize info) /\ le zero (usedSize info)
  /\ 0 <= availablePacks info /\ 0 <= downloadedPacks info.

(** The translation [translateOffline] computes when it does not
    answer from the cache. *)
Definition computeTranslation (text : jsstring) (d : Dictionary) : jsstring :=
  let translation := performDictionaryTranslation text d in
  if str_eqb translation text then performPhraseTranslation text d
  else translation.

End Service.

End Offline.

(* ================================================================== *)
(** * OfflineTranslationService, extended
      (hard-coded texts, bidirectional dictionaries, compound words) *)
(* ================================================================== *)

Module OfflineExt.
Import JS Regex Numbers.

(** The dictionary local to [translateNepaliToEnglish], as written (with its repeated keys). *)
Definition neToEnDict_source : list (string * string) :=
  [
    ("नमस्ते", "Hello"); ("धन्यवाद", "Thank you"); ("माफ गर्नुहोस्", "Sorry");
    ("कृपया", "Please"); ("हो", "Yes"); ("होइन", "No"); ("पानी", "Water");
    ("खाना", "Food"); ("घर", "Home"); ("विद्यालय", "School"); ("काम", "Work");
    ("समय", "Time"); ("पैसा", "Money"); ("मित्र", "Friend");
    ("परिवार", "Family"); ("प्रेम", "Love"); ("खुशी", "Happiness");
    ("दुःख", "Sadness"); ("स्वास्थ्य", "Health"); ("शिक्षा", "Education");
    ("तपाईं कस्तो हुनुहुन्छ?", "How are you?"); ("मेरो नाम", "My name is");
    ("म नेपाली बोल्छु", "I speak Nepali");
    ("तपाईंलाई भेटेर खुशी लाग्यो", "Nice to meet you");
    ("यो कति हो?", "How much is this?"); ("नेपाली भाषा", "Nepali language");
    ("एक", "One"); ("दुई", "Two"); ("तीन", "Three"); ("चार", "Four");
    ("पाँच", "Five"); ("छ", "Six"); ("सात", "Seven"); ("आठ", "Eight");
    ("नौ", "Nine"); ("दश", "Ten"); ("राम्रो", "Good"); ("नराम्रो", "Bad");
    ("ठूलो", "Big"); ("सानो", "Small"); ("अगाडि", "Forward");
    ("पछाडि", "Backward"); ("माथि", "Up"); ("तल", "Down");
    ("भित्र", "Inside"); ("बाहिर", "Outside"); ("बिहान", "Morning");
    ("दिउँसो", "Afternoon"); ("साँझ", "Evening"); ("रात", "Night");
    ("आज", "Today"); ("भोलि", "Tomorrow"); ("हिजो", "Yesterday");
    ("अहिले", "Now"); ("पछि", "Later"); ("पहिले", "Before");
    ("भारतीय", "Indian"); ("राज्य", "State"); ("सिक्किम", "Sikkim");
    ("पश्चिम", "West"); ("बंगालको", "Bengal"); ("गोर्खाहरू", "Gorkhas");
    ("क्षेत्रीय", "Regional"); ("प्रशासनमा", "Administration");
    ("नेपाली", "Nepali"); ("भाषिकहरू", "Speakers"); ("हैसियत", "Status");
    ("छ।", "Has."); ("अधिकारिक", "Official"); ("भाषाको", "Language");
    ("रूपमा", "Form"); ("मान्यता", "Recognition"); ("दिइएको", "Given");
    ("छ,", "Is,"); ("र", "And"); ("भारतको", "India's");
    ("संविधानको", "Constitution"); ("आठौं", "Eighth");
    ("अनुसूचीमा", "Schedule"); ("समावेश", "Included"); ("गरिएको", "Done");
    ("छ।", "Is."); ("नेपाली", "Nepali"); ("भाषा", "Language"); ("एक", "One");
    ("आर्य", "Aryan"); ("भाषा", "Language"); ("हो", "Is"); ("जुन", "Which");
    ("दक्षिण", "South"); ("एशियाको", "Asia's"); ("हिमालय", "Himalaya");
    ("क्षेत्रमा", "Region"); ("बोलिन्छ।", "Is spoken."); ("यो", "This");
    ("नेपालको", "Nepal's"); ("आधिकारिक", "Official"); ("भाषा", "Language");
    ("हो,", "Is,"); ("जहाँ", "Where"); ("यसको", "Its");
    ("उत्पत्ति", "Origin"); ("भएको", "Happened"); ("थियो।", "Was.");
    ("नेपाली भाषा एक धनी भाषा हो", "Nepali is a rich language with a long history and cultural significance.");
    ("नेपाली भाषा एक धर्म भाषा हो", "Nepali is a sacred language with religious and cultural importance.")
  ]%string.

(** The dictionary local to [translateSinhalaToEnglish], as written (with its repeated keys). *)
Definition siToEnDict_source : list (string * string) :=
  [
    ("ආයුබෝවන්", "Hello"); ("ස්තූතියි", "Thank you"); ("සමාවන්න", "Sorry");
    ("කරුණාකර", "Please"); ("ඔව්", "Yes"); ("නැහැ", "No"); ("වතුර", "Water");
    ("කෑම", "Food"); ("ගෙදර", "Home"); ("පාසල", "School"); ("වැඩ", "Work");
    ("වෙලාව", "Time"); ("සල්ලි", "Money"); ("යාළුවා", "Friend");
    ("පවුල", "Family"); ("ආදරය", "Love"); ("සතුට", "Happiness");
    ("දුක", "Sadness"); ("සෞඛ්‍යය", "Health"); ("අධ්‍යාපනය", "Education");
    ("ඔයා කොහොමද?", "How are you?"); ("මගේ නම", "My name is");
    ("මම සිංහල කතා කරනවා", "I speak Sinhala");
    ("ඔයාව මුණගැසීම සතුටක්", "Nice to meet you");
    ("මේක කීයද?", "How much is this?"); ("එක", "One"); ("දෙක", "Two");
    ("තුන", "Three"); ("හතර", "Four"); ("පහ", "Five"); ("හය", "Six");
    ("හත", "Seven"); ("අට", "Eight"); ("නවය", "Nine"); ("දහය", "Ten");
    ("හොඳ", "Good"); ("නරක", "Bad"); ("ලොකු", "Big"); ("පොඩි", "Small");
    ("ඉදිරියට", "Forward"); ("පස්සට", "Backward"); ("උඩ", "Up");
    ("යට", "Down"); ("ඇතුලේ", "Inside"); ("එළියේ", "Outside");
    ("උදේ", "Morning"); ("දවල්", "Afternoon"); ("හවස", "Evening");
    ("රෑ", "Night"); ("අද", "Today"); ("හෙට", "Tomorrow");
    ("ඊයේ", "Yesterday"); ("දැන්", "Now"); ("පසුව", "Later");
    ("කලින්", "Before"); ("ලංකාවේ", "In Sri Lanka"); ("සිංහල", "Sinhala");
    ("භාෂාව", "Language"); ("රාජ්‍ය", "State"); ("භාෂාවක්", "A language");
    ("ලෙස", "As"); ("පිළිගැනේ", "Is recognized"); ("මෙය", "This");
    ("ඉන්දු", "Indo"); ("යුරෝපීය", "European"); ("භාෂා", "Languages");
    ("පවුලේ", "Family"); ("ඉන්දු", "Indo"); ("ආර්ය", "Aryan");
    ("ශාඛාවට", "Branch"); ("අයත්", "Belongs"); ("වේ", "Is"); ("ශ්‍රී", "Sri");
    ("ලංකාවේ", "Lanka's"); ("ජනගහනයෙන්", "Population");
    ("බහුතරයක්", "Majority"); ("සිංහල", "Sinhala"); ("භාෂාව", "Language");
    ("කතා", "Speak"); ("කරති", "Do"); ("මෙම", "This"); ("භාෂාව", "Language");
    ("ශ්‍රී", "Sri"); ("ලංකාවේ", "Lanka's"); ("ජාතික", "National");
    ("භාෂාව", "Language"); ("ලෙස", "As"); ("සැලකේ", "Is considered")
  ]%string.

(** The dictionary local to [translateEnglishToNepali]. *)
Definition enToNeDict_source : list (string * string) :=
  [
    ("hello", "नमस्ते"); ("hi", "नमस्ते"); ("goodbye", "बिदाई");
    ("thank you", "धन्यवाद"); ("thanks", "धन्यवाद");
    ("sorry", "माफ गर्नुहोस्"); ("please", "कृपया"); ("yes", "हो");
    ("no", "होइन"); ("water", "पानी"); ("food", "खाना"); ("home", "घर");
    ("house", "घर"); ("school", "विद्यालय"); ("work", "काम"); ("job", "काम");
    ("time", "समय"); ("money", "पैसा"); ("friend", "मित्र");
    ("family", "परिवार"); ("love", "प्रेम"); ("happiness", "खुशी");
    ("sadness", "दुःख"); ("health", "स्वास्थ्य"); ("education", "शिक्षा");
    ("how are you", "तपाईं कस्तो हुनुहुन्छ"); ("my name is", "मेरो नाम हो");
    ("i speak nepali", "म नेपाली बोल्छु");
    ("nice to meet you", "तपाईंलाई भेटेर खुशी लाग्यो");
    ("how much is this", "यो कति हो")
  ]%string.

(** The dictionary local to [translateEnglishToSinhala]. *)
Definition enToSiDict_source : list (string * string) :=
  [
    ("hello", "ආයුබෝවන්"); ("hi", "ආයුබෝවන්"); ("goodbye", "ගිහින් එන්නම්");
    ("thank you", "ස්තූතියි"); ("thanks", "ස්තූතියි"); ("sorry", "සමාවන්න");
    ("please", "කරුණාකර"); ("yes", "ඔව්"); ("no", "නැහැ"); ("water", "වතුර");
    ("food", "කෑම"); ("home", "ගෙදර"); ("house", "ගෙදර"); ("school", "පාසල");
    ("work", "වැඩ"); ("job", "රැකියාව"); ("time", "වෙලාව");
    ("money", "සල්ලි"); ("friend", "යාළුවා"); ("family", "පවුල");
    ("love", "ආදරය"); ("happiness", "සතුට"); ("sadness", "දුක");
    ("health", "සෞඛ්‍යය"); ("education", "අධ්‍යාපනය");
    ("how are you", "ඔයා කොහොමද"); ("my name is", "මගේ නම");
    ("i speak sinhala", "මම සිංහල කතා කරනවා");
    ("nice to meet you", "ඔයාව මුණගැසීම සතුටක්");
    ("how much is this", "මේක කීයද")
  ]%string.
(** The demo dictionary of the Nepali pack ([new Map([...])]). *)
Definition dictionary_ne_source : list (string * string) :=
  [
    ("नमस्ते", "Hello"); ("धन्यवाद", "Thank you"); ("माफ गर्नुहोस्", "Sorry");
    ("कृपया", "Please"); ("हो", "Yes"); ("होइन", "No"); ("पानी", "Water");
    ("खाना", "Food"); ("घर", "Home"); ("विद्यालय", "School"); ("काम", "Work");
    ("समय", "Time"); ("पैसा", "Money"); ("मित्र", "Friend");
    ("परिवार", "Family"); ("प्रेम", "Love"); ("खुशी", "Happiness");
    ("दुःख", "Sadness"); ("स्वास्थ्य", "Health"); ("शिक्षा", "Education");
    ("तपाईं कस्तो हुनुहुन्छ?", "How are you?"); ("मेरो नाम", "My name is");
    ("म नेपाली बोल्छु", "I speak Nepali");
    ("तपाईंलाई भेटेर खुशी लाग्यो", "Nice to meet you");
    ("यो कति हो?", "How much is this?")
  ]%string.

(** The demo dictionary of the Sinhala pack ([new Map([...])]). *)
Definition dictionary_si_source : list (string * string) :=
  [
    ("ආයුබෝවන්", "Hello"); ("ස්තූතියි", "Thank you"); ("සමාවන්න", "Sorry");
    ("කරුණාකර", "Please"); ("ඔව්", "Yes"); ("නැහැ", "No"); ("වතුර", "Water");
    ("කෑම", "Food"); ("ගෙදර", "Home"); ("පාසල", "School"); ("වැඩ", "Work");
    ("වෙලාව", "Time"); ("සල්ලි", "Money"); ("යාළුවා", "Friend");
    ("පවුල", "Family"); ("ආදරය", "Love"); ("සතුට", "Happiness");
    ("දුක", "Sadness"); ("සෞඛ්‍යය", "Health"); ("අධ්‍යාපනය", "Education");
    ("ඔයා කොහොමද?", "How are you?"); ("මගේ නම", "My name is");
    ("මම සිංහල කතා කරනවා", "I speak Sinhala");
    ("ඔයාව මුණගැසීම සතුටක්", "Nice to meet you");
    ("මේක කීයද?", "How much is this?")
  ]%string.

(** The demo dictionary of the English pack ([new Map([...])]).  English keys occur twice
    (once towards Nepali, once towards Sinhala); the later value wins. *)
Definition dictionary_en_source : list (string * string) :=
  [
    ("Hello", "नमस्ते"); ("Thank you", "धन्यवाद"); ("Sorry", "माफ गर्नुहोस्");
    ("Please", "कृपया"); ("Yes", "हो"); ("No", "होइन"); ("Water", "पानी");
    ("Food", "खाना"); ("Home", "घर"); ("School", "विद्यालय"); ("Work", "काम");
    ("Time", "समय"); ("Money", "पैसा"); ("Friend", "मित्र");
    ("Family", "परिवार"); ("Love", "प्रेम"); ("Happiness", "खुशी");
    ("Sadness", "दुःख"); ("Health", "स्वास्थ्य"); ("Education", "शिक्षा");
    ("Hello", "ආයුබෝවන්"); ("Thank you", "ස්තූතියි"); ("Sorry", "සමාවන්න");
    ("Please", "කරුණාකර"); ("Yes", "ඔව්"); ("No", "නැහැ"); ("Water", "වතුර");
    ("Food", "කෑම"); ("Home", "ගෙදර"); ("School", "පාසල"); ("Work", "වැඩ");
    ("Time", "වෙලාව"); ("Money", "සල්ලි"); ("Friend", "යාළුවා");
    ("Family", "පවුල"); ("Love", "ආදරය"); ("Happiness", "සතුට");
    ("Sadness", "දුක"); ("Health", "සෞඛ්‍යය"); ("Education", "අධ්‍යාපනය")
  ]%string.

(** The canned text about the origin of Nepali. *)
Definition text_nepali_origin : string :=
   ("Nepali is a rich language that originated in the Himalayan " ++
    "region of South Asia. It is the official language of Nepal " ++
    "and is also spoken in parts of India. The Nepali language " ++
    "has its own script and is influenced by Sanskrit and other " ++
    "Indo-Aryan languages. It has a rich literary tradition and " ++
    "is an important part of Nepali cultural identity. The " ++
    "language has evolved over time and continues to adapt to " ++
    "modern needs while preserving its cultural heritage. Nepali " ++
    "is taught in schools throughout Nepal and is used in " ++
    "government, media, and everyday communication. It serves as " ++
    "a unifying factor for the diverse ethnic groups in Nepal.")%string.

(** The canned text about the history of Nepali. *)
Definition text_nepali_history : string :=
   ("Nepali is a rich language with a long history. It is the " ++
    "official language of Nepal and is also spoken in parts of " ++
    "India. The Nepali language has its own script and is " ++
    "influenced by Sanskrit. It has a rich literary tradition " ++
    "and is an important part of Nepali cultural identity. The " ++
    "language has evolved over time and continues to adapt to " ++
    "modern needs while preserving its cultural heritage. Nepali " ++
    "is taught in schools throughout Nepal and is used in " ++
    "government, media, and everyday communication. It serves as " ++
    "a unifying factor for the diverse ethnic groups in Nepal.")%string.
(** Hard-coded translations for known inputs, checked first. *)
Definition getHardcodedTranslation (text sourceLang : jsstring)
  : option jsstring :=
  if str_eqb sourceLang (lit "ne")
     && includes text (lit "नेपाली भाषा एक धर्म भाषा हो जुन दक्षिण एशियाको हिमालय क्षेत्र भारतीय")
  then Some (lit text_nepali_origin)
  else if str_eqb sourceLang (lit "ne")
     && includes text (lit "नेपाली भाषा एक धनी भाषा हो")
     && includes text (lit "नेपाली व्याकरणिक")
  then Some (lit text_nepali_history)
  else
    match
      (if str_eqb sourceLang (lit "ne") then
         if includes text (lit "नमस्ते")
            || includes text (lit "नमस्कार")
         then Some (lit "Hello! Greetings! How are you today?")
         else if includes text (lit "तपाईं कस्तो हुनुहुन्छ")
            || includes text (lit "कस्तो छ")
         then Some (lit ("I'm doing well, thank you for asking! How are you doing " ++
                   "today?")%string)
         else if includes text (lit "मौसम")
            || includes text (lit "बादल")
            || includes text (lit "पानी परिरहेको छ")
         then Some (lit ("The weather today is quite pleasant. It's sunny with a " ++
                   "few clouds. The temperature is around 25 degrees Celsius.")%string)
         else if includes text (lit "खाना")
            || includes text (lit "मिठो")
            || includes text (lit "भोक लाग्यो")
         then Some (lit ("Nepali cuisine is delicious! Popular dishes include momo " ++
                   "(dumplings), dal bhat (lentils and rice), and sel roti " ++
                   "(sweet rice bread). Many dishes are flavored with cumin, " ++
                   "coriander, and other spices.")%string)
         else if includes text (lit "यात्रा")
            || includes text (lit "घुम्न")
            || includes text (lit "पर्यटन")
         then Some (lit ("Nepal is a beautiful country for travel and tourism. It " ++
                   "has stunning mountains including Mount Everest, ancient " ++
                   "temples, and diverse wildlife. The best time to visit is " ++
                   "during spring (March-May) and autumn " ++
                   "(September-November).")%string)
         else None
       else None)
    with
    | Some r => Some r
    | None =>
      (if str_eqb sourceLang (lit "si") then
         if includes text (lit "ආයුබෝවන්")
            || includes text (lit "සුභ උදෑසනක්")
         then Some (lit "Hello! Good morning! How are you today?")
         else if includes text (lit "කොහොමද")
            || includes text (lit "ඔයාට කොහොමද")
         then Some (lit ("I'm doing well, thank you for asking! How are you doing " ++
                   "today?")%string)
         else if includes text (lit "කාලගුණය")
            || includes text (lit "වැස්ස")
            || includes text (lit "වහිනවා")
         then Some (lit ("The weather today is quite pleasant in Sri Lanka. It's " ++
                   "sunny with occasional rain showers. The temperature is " ++
                   "around 30 degrees Celsius.")%string)
         else if includes text (lit "කෑම")
            || includes text (lit "රසයි")
            || includes text (lit "බඩගිනි")
         then Some (lit ("Sri Lankan cuisine is delicious and flavorful! Popular " ++
                   "dishes include rice and curry, hoppers (appa), string " ++
                   "hoppers (idiappa), and kottu roti. Many dishes feature " ++
                   "coconut milk and various spices.")%string)
         else if includes text (lit "සංචාරය")
            || includes text (lit "ගමන")
            || includes text (lit "සංචාරක")
         then Some (lit ("Sri Lanka is a beautiful island for travel and tourism. " ++
                   "It has stunning beaches, ancient ruins, tea plantations, " ++
                   "and diverse wildlife. The best time to visit depends on " ++
                   "which region you plan to explore.")%string)
         else None
       else None)
    end.

Definition Dictionary := jsobject jsstring.

(** [new Map([[k, v], ...])]: entries in insertion order. *)
Definition map_of (l : list (string * string)) : Dictionary :=
  object_literal (map (fun kv => (lit (fst kv), lit (snd kv))) l).

(** An object literal [{k: v, ...}]. *)
Definition dict_of (l : list (string * string)) : jsobject jsstring :=
  object_literal (map (fun kv => (lit (fst kv), lit (snd kv))) l).

(** The [dictionaries] object of [loadLanguageDictionary].  It is only
    read at the code of an existing pack, and packs exist for ['ne'],
    ['si'] and ['en'], all own keys. *)
Definition dictionaries : jsobject Dictionary :=
  [ (lit "ne", map_of dictionary_ne_source);
    (lit "si", map_of dictionary_si_source);
    (lit "en", map_of dictionary_en_source) ].

Definition neToEnDict : jsobject jsstring := dict_of neToEnDict_source.
Definition siToEnDict : jsobject jsstring := dict_of siToEnDict_source.
Definition enToNeDict : jsobject jsstring := dict_of enToNeDict_source.
Definition enToSiDict : jsobject jsstring := dict_of enToSiDict_source.

(** [text.substring(0, 100)] tested against a range of code units. *)
Definition detectLanguage (text : jsstring) : jsstring :=
  let sample := firstn 100 text in
  if existsb (fun c => (2304 <=? c) && (c <=? 2431))%N sample then lit "ne"
  else if existsb (fun c => (3456 <=? c) && (c <=? 3583))%N sample then lit "si"
  else lit "en".

(** [s.replace(/\s{2,}/g, ' ')]: every maximal run of two or more white
    space code units becomes one space. *)
Fixpoint collapseSpaces_go (skip : nat) (s : jsstring) : jsstring :=
  match s with
  | [] => []
  | c :: r =>
    match skip with
    | S n => collapseSpaces_go n r
    | O =>
      match sep_run isWhiteSpace s with
      | S (S n) => 32%N :: collapseSpaces_go (S n) r
      | _ => c :: collapseSpaces_go 0 r
      end
    end
  end.

Definition collapseSpaces (s : jsstring) : jsstring := collapseSpaces_go 0 s.

(** [keys.sort((a, b) => b.length - a.length)]: longest first, stable. *)
Fixpoint insertByLength (x : jsstring) (sorted : list jsstring)
  : list jsstring :=
  match sorted with
  | [] => [x]
  | y :: r =>
    if Nat.leb (length x) (length y) then y :: insertByLength x r
    else x :: sorted
  end.

Definition sortByLengthDesc (l : list jsstring) : list jsstring :=
  fold_left (fun sorted x => insertByLength x sorted) l [].

(** The split points [i = 1, ..., word.length - 1] of the
    compound-word loop. *)
Definition splitPoints (word : jsstring) : list nat :=
  seq 1 (length word - 1).

(** A loop that returns at the first element for which [f] gives a
    result. *)
Fixpoint firstSome {A B} (f : A -> option B) (l : list A) : option B :=
  match l with
  | [] => None
  | x :: r =>
    match f x with
    | Some y => Some y
    | None => firstSome f r
    end
  end.

Section Service.
Context {H : Host} {NUM : Number}.

(** The two parts of [word] at split point [i], when both have a
    dictionary entry. *)
Definition partsAt (dictionary : jsobject jsstring) (word : jsstring) (i : nat)
  : option (jsval * jsval) :=
  match lookup dictionary (firstn i word),
        lookup dictionary (skipn i word) with
  | Some a, Some b => Some (a, b)
  | _, _ => None
  end.

(** The compound-word loop: the first split point at which both parts
    have a dictionary entry gives [`${a} ${b}`]. *)
Definition decompose (dictionary : jsobject jsstring) (word : jsstring)
  : option jsstring :=
  match firstSome (partsAt dictionary word) (splitPoints word) with
  | Some (a, b) => Some (ToString a ++ lit " " ++ ToString b)
  | None => None
  end.

(** The affix loop: the first key longer than 3 that occurs in the
    word is replaced by its entry. *)
Definition affixMatch (dictionary : jsobject jsstring) (word : jsstring)
  : option jsstring :=
  match
    find (fun entry =>
            Nat.ltb 3 (length (fst entry)) && includes word (fst entry))
         dictionary
  with
  | Some (dictWord, translation) => Some (replace word dictWord translation)
  | None => None
  end.

(** The function mapped over the words by
    [translateNepaliWordsToEnglish]. *)
Definition translateNepaliWord (dictionary : jsobject jsstring)
           (word : jsstring) : jsval :=
  match lookup dictionary word with
  | Some v => v
  | None =>
    let lowerWord := toLowerCase word in
    match lookup dictionary lowerWord with
    | Some v => v
    | None =>
      match decompose dictionary word with
      | Some r => Own r
      | None =>
        match affixMatch dictionary word with
        | Some r => Own r
        | None => Own word
        end
      end
    end
  end.

Definition translateNepaliWordsToEnglish (text : jsstring)
           (dictionary : jsobject jsstring) : jsstring :=
  let phrases :=
    sortByLengthDesc
      (filter (fun key => includes key (lit " ") && includes text key)
              (obj_keys dictionary)) in
  let processedText :=
    fold_left
      (fun processedText phrase =>
         if includes processedText phrase then
           match own_get dictionary phrase with
           | Some t => replace processedText phrase t
           | None => processedText
           end
         else processedText)
      phrases text in
  if negb (str_eqb processedText text) then processedText
  else
    let words := split_ws text in
    let translated := map (translateNepaliWord dictionary) words in
    collapseSpaces (join (lit " ") (map ToString translated)).

(** The function mapped over the words by
    [translateSinhalaWordsToEnglish]. *)
Definition translateSinhalaWord (dictionary : jsobject jsstring)
           (word : jsstring) : jsval :=
  match lookup dictionary word with
  | Some v => v
  | None =>
    match decompose dictionary word with
    | Some r => Own r
    | None => Own word
    end
  end.

Definition translateSinhalaWordsToEnglish (text : jsstring)
           (dictionary : jsobject jsstring) : jsstring :=
  let words := split_ws text in
  let translated := map (translateSinhalaWord dictionary) words in
  join (lit " ") (map ToString translated).

(** [sentences.map(...).filter(s => s).join('. ')] *)
Definition joinSentences (translatedSentences : list jsval) : jsstring :=
  join (lit ". ") (map ToString (filter truthy translatedSentences)).

Definition translateNepaliToEnglish (text : jsstring) : jsval :=
  if includes text (lit "नेपाली भाषा") && Nat.ltb 50 (length text) then
    Own (lit text_nepali_history)
  else
    match lookup neToEnDict (trim text) with
    | Some v => v
    | None =>
      (* [।?!] *)
      let sentences :=
        split (sep_one (fun c => existsb (N.eqb c) (lit "।?!"))) text in
      if Nat.ltb 1 (length sentences) then
        let translatedSentences :=
          map (fun sentence =>
                 let trimmedSentence := trim sentence in
                 if is_empty trimmedSentence then Own []
                 else
                   match lookup neToEnDict trimmedSentence with
                   | Some v => v
                   | None =>
                     match
                       find (fun entry =>
                               Nat.ltb 10 (length (fst entry))
                               && includes trimmedSentence (fst entry))
                            neToEnDict
                     with
                     | Some (key, value) =>
                       Own (replace trimmedSentence key value)
                     | None =>
                       Own (translateNepaliWordsToEnglish trimmedSentence
                                                          neToEnDict)
                     end
                   end)
              sentences in
        Own (joinSentences translatedSentences)
      else Own (translateNepaliWordsToEnglish text neToEnDict)
    end.

Definition translateSinhalaToEnglish (text : jsstring) : jsval :=
  match lookup siToEnDict (trim text) with
  | Some v => v
  | None =>
    (* [.!?] *)
    let sentences :=
      split (sep_one (fun c => existsb (N.eqb c) (lit ".!?"))) text in
    if Nat.ltb 1 (length sentences) then
      let translatedSentences :=
        map (fun sentence =>
               let trimmedSentence := trim sentence in
               if is_empty trimmedSentence then Own []
               else
                 match lookup siToEnDict trimmedSentence with
                 | Some v => v
                 | None =>
                   Own (translateSinhalaWordsToEnglish trimmedSentence
                                                       siToEnDict)
                 end)
            sentences in
      Own (joinSentences translatedSentences)
    else Own (translateSinhalaWordsToEnglish text siToEnDict)
  end.

(** [text.replace(new RegExp(phrase, 'i'), translation)].  The phrases
    are dictionary keys made of lower-case letters, digits and spaces,
    so the pattern is the sequence of their characters. *)
Definition replaceIgnoreCase (text phrase translation : jsstring) : jsstring :=
  match exec_from (seqs (map Chr phrase)) 0 0 text with
  | Some (index, y) =>
    let before := firstn index text in
    let matched := firstn (endIndex y - index) (skipn index text) in
    before ++ GetSubstitution matched before (rest y) translation ++ rest y
  | None => text
  end.

(** The common body of [translateEnglishToNepali] and
    [translateEnglishToSinhala], which differ in the dictionary. *)
Definition translateFromEnglish (dict : jsobject jsstring) (text : jsstring)
  : jsval :=
  let lowerText := trim (toLowerCase text) in
  match lookup dict lowerText with
  | Some v => v
  | None =>
    match
      find (fun entry =>
              Nat.ltb 5 (length (fst entry)) && includes lowerText (fst entry))
           dict
    with
    | Some (phrase, translation) =>
      Own (replaceIgnoreCase text phrase translation)
    | None =>
      let words := split_ws text in
      let translated :=
        map (fun word =>
               let lowerWord := toLowerCase word in
               match lookup dict lowerWord with
               | Some v => v
               | None => Own word
               end) words in
      Own (join (lit " ") (map ToString translated))
    end
  end.

Definition translateEnglishToNepali (text : jsstring) : jsval :=
  translateFromEnglish enToNeDict text.

Definition translateEnglishToSinhala (text : jsstring) : jsval :=
  translateFromEnglish enToSiDict text.

Record LanguagePack : Type := {
  code : jsstring;
  name : jsstring;
  nativeName : jsstring;
  version : jsstring;
  size : num;                      (* in MB *)
  downloadUrl : jsstring;
  isDownloaded : bool;
  lastUpdated : Z;                 (* time value, in ms *)
  dictionary : Dictionary
}.

(** An entry of [TranslationCache].  The translation is whatever the
    translator returned; the time value of an invalid date is [None]. *)
Record CacheEntry : Type := {
  translation : jsval;
  confidence : num;
  timestamp : option Z
}.

(** The service object.  [languagePacks] is a [Map], [translationCache]
    a plain object; [localStorage] holds the items
    [langPack_<code>_downloaded], and [languagePackStatus] is the object
    persisted under that key. *)
Record State : Type := {
  languagePacks : jsobject LanguagePack;
  translationCache : jsobject CacheEntry;
  localStorage : jsobject jsstring;
  languagePackStatus : jsobject bool
}.

Definition set_isDownloaded (p : LanguagePack) (b : bool) : LanguagePack :=
  {| code := code p; name := name p; nativeName := nativeName p;
     version := version p; size := size p; downloadUrl := downloadUrl p;
     isDownloaded := b; lastUpdated := lastUpdated p;
     dictionary := dictionary p |}.

Definition set_dictionary (p : LanguagePack) (d : Dictionary) : LanguagePack :=
  {| code := code p; name := name p; nativeName := nativeName p;
     version := version p; size := size p; downloadUrl := downloadUrl p;
     isDownloaded := isDownloaded p; lastUpdated := lastUpdated p;
     dictionary := d |}.

Definition with_packs (st : State) (ps : jsobject LanguagePack) : State :=
  {| languagePacks := ps; translationCache := translationCache st;
     localStorage := localStorage st;
     languagePackStatus := languagePackStatus st |}.

Definition with_cache (st : State) (c : jsobject CacheEntry) : State :=
  {| languagePacks := languagePacks st; translationCache := c;
     localStorage := localStorage st;
     languagePackStatus := languagePackStatus st |}.

Definition with_storage (st : State) (s : jsobject jsstring) : State :=
  {| languagePacks := languagePacks st;
     translationCache := translationCache st;
     localStorage := s;
     languagePackStatus := languagePackStatus st |}.

Definition with_status (st : State) (s : jsobject bool) : State :=
  {| languagePacks := languagePacks st;
     translationCache := translationCache st;
     localStorage := localStorage st; languagePackStatus := s |}.

(** The packs of [initializeLanguagePacks], created at time [now]. *)
Definition initialPacks (now : Z) : list LanguagePack :=
  [ {| code := lit "ne"; name := lit "Nepali"; nativeName := lit "नेपाली";
       version := lit "1.0.0"; size := ofHundredths 1550;
       downloadUrl := lit "/language-packs/nepali-en.pack";
       isDownloaded := false; lastUpdated := now; dictionary := [] |};
    {| code := lit "si"; name := lit "Sinhala"; nativeName := lit "සිංහල";
       version := lit "1.0.0"; size := ofHundredths 1230;
       downloadUrl := lit "/language-packs/sinhala-en.pack";
       isDownloaded := false; lastUpdated := now; dictionary := [] |};
    {| code := lit "en"; name := lit "English"; nativeName := lit "English";
       version := lit "1.0.0"; size := ofHundredths 500;
       downloadUrl := lit "/language-packs/english.pack";
       isDownloaded := true; lastUpdated := now; dictionary := [] |} ].

Definition initializeLanguagePacks (now : Z) : jsobject LanguagePack :=
  fold_left (fun m pack => obj_set m (code pack) pack) (initialPacks now) [].

(** The storage key [`langPack_${langCode}_downloaded`]. *)
Definition flagKey (langCode : jsstring) : jsstring :=
  lit "langPack_" ++ langCode ++ lit "_downloaded".

Definition setFlag (st : State) (langCode : jsstring) : State :=
  with_storage st (obj_set (localStorage st) (flagKey langCode) (lit "true")).

(** [isLanguagePackDownloaded] writes the storage when it finds the pack
    downloaded: it returns the answer and the state. *)
Definition isLanguagePackDownloaded (st : State) (langCode : jsstring)
  : bool * State :=
  match own_get (localStorage st) (flagKey langCode) with
  | Some storedValue =>
    if str_eqb storedValue (lit "true") then (true, st)
    else
      match own_get (languagePacks st) langCode with
      | Some pack =>
        if isDownloaded pack then (true, setFlag st langCode) else (false, st)
      | None => (false, st)
      end
  | None =>
    match own_get (languagePacks st) langCode with
    | Some pack =>
      if isDownloaded pack then (true, setFlag st langCode) else (false, st)
    | None => (false, st)
    end
  end.

Definition getAvailableLanguagePacks (st : State) : list LanguagePack :=
  map snd (languagePacks st).

Definition updatePack (st : State) (langCode : jsstring)
           (f : LanguagePack -> LanguagePack) : State :=
  match own_get (languagePacks st) langCode with
  | Some pack => with_packs st (obj_set (languagePacks st) langCode (f pack))
  | None => st
  end.

Definition loadLanguageDictionary (st : State) (langCode : jsstring) : State :=
  match own_get (languagePacks st) langCode with
  | None => st
  | Some pack =>
    match own_get dictionaries langCode with
    | Some dictionary =>
      let st1 :=
        updatePack st langCode
          (fun p => set_isDownloaded (set_dictionary p dictionary) true) in
      setFlag st1 langCode
    | None => st
    end
  end.

(** [preloadAllDictionaries] loads ['en'], ['ne'] and ['si'] in turn,
    awaiting each load: the first load runs within the constructor, the
    other two once the constructor has returned. *)
Definition preloadFirst (st : State) : State :=
  loadLanguageDictionary st (lit "en").

Definition preloadRest : list jsstring := [lit "ne"; lit "si"].

Definition preloadAllDictionaries (st : State) : State :=
  fold_left loadLanguageDictionary preloadRest (preloadFirst st).

Definition saveLanguagePackStatus (st : State) (langCode : jsstring)
           (isDownloaded : bool) : State :=
  with_status st (obj_set (languagePackStatus st) langCode isDownloaded).

Definition progressValues (totalSteps : nat) : list num :=
  map (fun i => percent i totalSteps) (seq 0 (S totalSteps)).

(** Result of [downloadLanguagePack]: the boolean, the progress
    reported, the state.  The callback and the storage are taken not to
    fail, so the [catch] branch is not entered. *)
Definition downloadLanguagePack (st : State) (langCode : jsstring)
  : completion (bool * list num * State) :=
  match own_get (languagePacks st) langCode with
  | None => Thrown (lit "Language pack not found: " ++ langCode)
  | Some _ =>
    let totalSteps := 10 in
    let progress := progressValues totalSteps in
    let st1 := loadLanguageDictionary st langCode in
    let st2 := updatePack st1 langCode (fun p => set_isDownloaded p true) in
    let st3 := setFlag st2 langCode in
    let st4 := saveLanguagePackStatus st3 langCode true in
    Returned (true, progress, st4)
  end.

(** The key [`${text}_${sourceLang}_${targetLang}`]. *)
Definition cacheKey (text sourceLang targetLang : jsstring) : jsstring :=
  text ++ lit "_" ++ sourceLang ++ lit "_" ++ targetLang.

Definition cachePut (st : State) (cacheKey : jsstring) (result : jsval)
           (confidence : Z) (now : Z) : State :=
  with_cache st
    (obj_set (translationCache st) cacheKey
       {| translation := result; confidence := ofHundredths confidence;
          timestamp := Some now |}).

(** The part of [translateOffline] after the cache check and the
    two English-source branches. *)
Definition translateWithPack (st : State) (text sourceLang targetLang : jsstring)
           (cacheKey : jsstring) (now : Z) : jsval * State :=
  let st :=
    if negb (fst (isLanguagePackDownloaded st sourceLang))
    then loadLanguageDictionary (snd (isLanguagePackDownloaded st sourceLang))
                                sourceLang
    else snd (isLanguagePackDownloaded st sourceLang) in
  let st :=
    if negb (fst (isLanguagePackDownloaded st targetLang))
    then loadLanguageDictionary (snd (isLanguagePackDownloaded st targetLang))
                                targetLang
    else snd (isLanguagePackDownloaded st targetLang) in
  let sourcePack := own_get (languagePacks st) sourceLang in
  match
    match sourcePack with
    | Some p => if isDownloaded p then Some p else None
    | None => None
    end
  with
  | None =>
    if str_eqb sourceLang (lit "ne") then
      let result := translateNepaliToEnglish text in
      (result, cachePut st cacheKey result 85 now)
    else if str_eqb sourceLang (lit "si") then
      let result := translateSinhalaToEnglish text in
      (result, cachePut st cacheKey result 85 now)
    else (Own (lit "[Offline Translation Not Available] " ++ text), st)
  | Some sourcePack =>
    if Nat.ltb 0 (length (dictionary sourcePack)) then
      match map_lookup (dictionary sourcePack) (trim text) with
      | Some exactMatch =>
        (Own exactMatch, cachePut st cacheKey (Own exactMatch) 100 now)
      | None =>
        let words := split_ws text in
        let translated :=
          map (fun word =>
                 match map_lookup (dictionary sourcePack) word with
                 | Some translation => translation
                 | None => word
                 end) words in
        let result := join (lit " ") translated in
        (Own result, cachePut st cacheKey (Own result) 70 now)
      end
    else if str_eqb sourceLang (lit "ne") then
      let result := translateNepaliToEnglish text in
      (result, cachePut st cacheKey result 80 now)
    else if str_eqb sourceLang (lit "si") then
      let result := translateSinhalaToEnglish text in
      (result, cachePut st cacheKey result 80 now)
    else
      let fallbackResult := lit "[Offline Translation] " ++ text in
      (Own fallbackResult, cachePut st cacheKey (Own fallbackResult) 50 now)
  end.

(** [translateOffline] at time [now].  The result is the value
    returned; [None] is [undefined], which is what reading
    [.translation] off an inherited member gives. *)
Definition translateOffline (st : State) (text sourceLang targetLang : jsstring)
           (now : Z) : option jsval * State :=
  match getHardcodedTranslation text sourceLang with
  | Some hardcodedTranslation => (Some (Own hardcodedTranslation), st)
  | None =>
    let sourceLang :=
      if str_eqb sourceLang (lit "auto") then detectLanguage text
      else sourceLang in
    if str_eqb sourceLang targetLang then (Some (Own text), st)
    else
      let translationKey := sourceLang ++ lit "-" ++ targetLang in
      let cacheKey := cacheKey text sourceLang targetLang in
      match obj_get (translationCache st) cacheKey with
      | Some (Own cached) => (Some (translation cached), st)
      | Some (Inherited _) => (None, st)
      | None =>
        if str_eqb translationKey (lit "en-ne") then
          let result := translateEnglishToNepali text in
          (Some result, cachePut st cacheKey result 90 now)
        else if str_eqb translationKey (lit "en-si") then
          let result := translateEnglishToSinhala text in
          (Some result, cachePut st cacheKey result 90 now)
        else
          let r := translateWithPack st text sourceLang targetLang
                                     cacheKey now in
          (Some (fst r), snd r)
      end
  end.

Definition removeLanguagePack (st : State) (langCode : jsstring)
  : bool * State :=
  match own_get (languagePacks st) langCode with
  | None => (false, st)
  | Some _ =>
    let st1 :=
      updatePack st langCode
        (fun p => set_dictionary (set_isDownloaded p false) []) in
    let st2 := saveLanguagePackStatus st1 langCode false in
    let st3 :=
      with_cache st2
        (filter (fun entry =>
                   negb (startsWith (fst entry) (langCode ++ lit "-")))
                (translationCache st2)) in
    (true, st3)
  end.

Record StorageInfo : Type := {
  totalSize : num;
  usedSize : num;
  availablePacks : nat;
  downloadedPacks : nat
}.

(** [packs.reduce((sum, pack) => sum + pack.size, 0)] *)
Definition sumSizes (packs : list LanguagePack) : num :=
  fold_left (fun sum pack => add sum (size pack)) packs zero.

Definition getStorageInfo (st : State) : StorageInfo :=
  let packs := map snd (languagePacks st) in
  let downloadedPacks := filter isDownloaded packs in
  {| totalSize := sumSizes packs;
     usedSize := sumSizes downloadedPacks;
     availablePacks := length packs;
     downloadedPacks := length downloadedPacks |}.

Definition clearOfflineData (st : State) : State :=
  {| languagePacks :=
       map (fun kp =>
              (fst kp, set_dictionary (set_isDownloaded (snd kp) false) []))
           (languagePacks st);
     translationCache := [];
     localStorage := localStorage st;
     languagePackStatus := [] |}.

Definition loadCachedTranslations (st : State)
           (cached : option (jsobject CacheEntry)) (status : jsobject bool)
  : State :=
  let st1 :=
    match cached with
    | Some parsed => with_cache st parsed
    | None => st
    end in
  fold_left
    (fun (s : State) (entry : jsstring * bool) =>
       match own_get (languagePacks s) (fst entry) with
       | Some _ =>
         if snd entry
         then loadLanguageDictionary
                (updatePack s (fst entry) (fun p => set_isDownloaded p true))
                (fst entry)
         else s
       | None => s
       end)
    status (with_status st1 status).

(** The constructor, run at time [now] over what the storage holds
    (the persisted cache and status, well-formed, and the stored
    items).  It returns with the first preload done. *)
Definition construct (now : Z) (cached : option (jsobject CacheEntry))
           (status : jsobject bool) (items : jsobject jsstring) : State :=
  preloadFirst
    (loadCachedTranslations
       {| languagePacks := initializeLanguagePacks now;
          translationCache := []; localStorage := items;
          languagePackStatus := [] |}
       cached status).

(** The service once the preloading started by the constructor is
    over. *)
Definition constructAndPreload (now : Z) (cached : option (jsobject CacheEntry))
           (status : jsobject bool) (items : jsobject jsstring) : State :=
  fold_left loadLanguageDictionary preloadRest
            (construct now cached status items).

(** The transitions of the service: the remaining preloads and the
    public operations. *)
Inductive step : State -> State -> Prop :=
| step_preload st langCode :
    In langCode preloadRest ->
    step st (loadLanguageDictionary st langCode)
| step_query st langCode :
    step st (snd (isLanguagePackDownloaded st langCode))
| step_download st langCode b progress st' :
    downloadLanguagePack st langCode = Returned (b, progress, st') ->
    step st st'
| step_translate st text sourceLang targetLang now :
    step st (snd (translateOffline st text sourceLang targetLang now))
| step_remove st langCode :
    step st (snd (removeLanguagePack st langCode))
| step_clear st :
    step st (clearOfflineData st).

Inductive reachable : State -> Prop :=
| reachable_construct now cached status items :
    reachable (construct now cached status items)
| reachable_step st st' :
    reachable st -> step st st' -> reachable st'.

(** ** Predicates for the properties of the service *)

(** Every pack has a non-negative declared size. *)
Definition sizes_ok_ext (ps : jsobject LanguagePack) : Prop :=
  Forall (fun kp => le zero (size (snd kp))) ps.

(** What is expected of a storage summary. *)
Definition summary_ok_ext (info : StorageInfo) : Prop :=
  le (usedSize info) (totalSize info)
  /\ downloadedPacks info <= availablePacks info
  /\ le zero (totalSize info) /\ le zero (usedSize info)
  /\ 0 <= availablePacks info /\ 0 <= downloadedPacks info.

End Service.

End OfflineExt.

(* ================================================================== *)
(** * Example inputs and states, on the concrete host *)
(* ================================================================== *)

Module Examples.
Import JS Numbers BasicHost.

(** Three lines, the middle one blank. *)
Definition threeLines : jsstring :=
  lit "Hello. Thank you." ++ [10%N] ++ lit "  " ++ [13%N; 10%N]
      ++ lit "Good morning. Yes.".

(** The extended service, constructed over an empty storage, once its
    dictionaries are preloaded. *)
Definition fresh : OfflineExt.State :=
  OfflineExt.constructAndPreload 0 None [] [].

(** The extended service constructed over a persisted cache whose entry
    for ("घर", ne, en) dates from time 0. *)
Definition withOldEntry : OfflineExt.State :=
  OfflineExt.constructAndPreload 0
    (Some [ (OfflineExt.cacheKey (lit "घर") (lit "ne") (lit "en"),
             {| OfflineExt.translation := Own (lit "stale");
                OfflineExt.confidence := ofHundredths 80;
                OfflineExt.timestamp := Some 0%Z |}) ])
    [] [].

(** The fresh extended service after translating "घर" from Nepali and
    "ne-x" from Sinhala: the cache holds one entry for each. *)
Definition twoEntries : OfflineExt.State :=
  snd (OfflineExt.translateOffline
         (snd (OfflineExt.translateOffline fresh (lit "घर") (lit "ne")
                                           (lit "en") 5))
         (lit "ne-x") (lit "si") (lit "en") 6).

End Examples.

(* ================================================================== *)
(** * OnlineTranslationService ([OnlineTranslation.ts]) *)
(* ================================================================== *)

Module Online.
Import JS.

(** The literal ["\n\n"]. *)
Definition blankLine : jsstring := [10%N; 10%N].

(** [\r?] at the head of [s]: the number of code units it takes. *)
Definition optionalCR (s : jsstring) : nat :=
  match s with
  | c :: _ => if (c =? 13)%N then 1 else 0
  | [] => 0
  end.

Definition lineFeedAt (s : jsstring) : bool :=
  match s with
  | c :: _ => (c =? 10)%N
  | [] => false
  end.

(** Separator [/\r?\n\r?\n/]: two line feeds, each of which may follow
    a carriage return.  A carriage return that is taken is never given
    back, since a line feed cannot match in its place. *)
Definition sep_blankLine (s : jsstring) : nat :=
  let a := optionalCR s in
  let s1 := skipn a s in
  if lineFeedAt s1 then
    let s2 := skipn 1 s1 in
    let b := optionalCR s2 in
    if lineFeedAt (skipn b s2) then a + 1 + b + 1 else 0
  else 0.

(** [[.!?।॥]] *)
Definition isSentenceEnd (c : N) : bool :=
  existsb (N.eqb c) (lit ".!?।॥").

(** Separator [/(?<=[.!?।॥])\s+/]: a maximal run of white space, when
    the code unit before it ([prev]) ends a sentence. *)
Definition sep_afterSentence (prev : option N) (s : jsstring) : nat :=
  match prev with
  | Some p => if isSentenceEnd p then sep_run isWhiteSpace s else 0
  | None => 0
  end.

(** [String.prototype.split] for a separator with a look-behind: the
    walk of [split_go], which also carries the code unit before the
    position tried. *)
Fixpoint split_behind_go (sepAt : option N -> jsstring -> nat) (skip : nat)
         (prev : option N) (cur : jsstring) (s : jsstring) : list jsstring :=
  match s with
  | [] => [rev cur]
  | c :: r =>
    match skip with
    | S n => split_behind_go sepAt n (Some c) cur r
    | O =>
      match sepAt prev s with
      | S n => rev cur :: split_behind_go sepAt n (Some c) [] r
      | O => split_behind_go sepAt 0 (Some c) (c :: cur) r
      end
    end
  end.

Definition split_behind (sepAt : option N -> jsstring -> nat) (s : jsstring)
  : list jsstring :=
  split_behind_go sepAt 0 None [] s.

(** The two variables of [chunkText] that its loop and [flush] update. *)
Record Chunker : Type := {
  chunks : list jsstring;
  current : jsstring
}.

Definition flush (st : Chunker) : Chunker :=
  {| chunks :=
       if Nat.ltb 0 (length (trim (current st)))
       then chunks st ++ [current st] else chunks st;
     current := [] |}.

(** [(current ? " " : "")] *)
Definition spaceAfter (current : jsstring) : jsstring :=
  if is_empty current then [] else lit " ".

(** The body of the loop over the sentences of a long paragraph. *)
Definition addSentence (maxLen : nat) (st : Chunker) (s : jsstring) : Chunker :=
  let st1 :=
    if Nat.ltb maxLen (length (current st ++ spaceAfter (current st) ++ s))
    then flush st else st in
  {| chunks := chunks st1;
     current := current st1 ++ spaceAfter (current st1) ++ s |}.

(** [current ? current + "\n\n" + p : p] *)
Definition paragraphWithBreak (current p : jsstring) : jsstring :=
  if is_empty current then p else current ++ blankLine ++ p.

(** The body of the loop over the paragraphs. *)
Definition addParagraph (maxLen : nat) (st : Chunker) (p : jsstring) : Chunker :=
  if Nat.ltb maxLen (length p) then
    let sentences := split_behind sep_afterSentence p in
    flush (fold_left (addSentence maxLen) sentences st)
  else
    let paragraphWithBreak := paragraphWithBreak (current st) p in
    if Nat.ltb maxLen (length paragraphWithBreak) then
      flush {| chunks := chunks (flush st); current := p |}
    else {| chunks := chunks st; current := paragraphWithBreak |}.

(** The chunks collected when the loop and the last [flush] are over. *)
Definition collectChunks (text : jsstring) (maxLen : nat) : list jsstring :=
  let paragraphs := split sep_blankLine text in
  chunks (flush (fold_left (addParagraph maxLen) paragraphs
                           {| chunks := []; current := [] |})).

Definition chunkText (text : jsstring) (maxLen : nat) : list jsstring :=
  match collectChunks text maxLen with
  | [] => [text]
  | chunks => chunks
  end.

(** A state of the loop in which [current] is [pending] and every
    chunk pushed so far has the property [R]. *)
Definition kept (R pending : jsstring -> Prop) (st : Chunker) : Prop :=
  pending (current st) /\ Forall R (chunks st).

(** A text with visible content: one of its code units is not white
    space, so that its trimmed text is not empty. *)
Definition hasVisible (s : jsstring) : Prop :=
  exists c, In c s /\ isWhiteSpace c = false.

(** A text of white space only. *)
Definition blank (s : jsstring) : Prop :=
  Forall (fun c => isWhiteSpace c = true) s.

(** A state of the loop that holds visible content: a chunk was
    pushed, or [current] has visible content and will be pushed. *)
Definition seen (st : Chunker) : Prop :=
  chunks st <> [] \/ hasVisible (current st).

(** The default value of [maxLen]. *)
Definition defaultMaxLen : nat := 2000.

(** What the endpoint answers to a request: the status of the
    response, and what [res.json()] followed by the read of
    [data.translation] gives: the field when it is there, [None] when
    it is [null] or [undefined], an exception when the body is not
    JSON. *)
Record Response : Type := {
  status : nat;
  translation : completion (option jsstring)
}.

(** [res.ok] *)
Definition ok (res : Response) : bool :=
  Nat.leb 200 (status res) && Nat.leb (status res) 299.

Section Service.
(** [fetch i chunk sourceLang targetLang] is the outcome of the
    request number [i] of a call of [translate], made for [chunk]; the
    promise is rejected when the network fails. *)
Variable fetch : nat -> jsstring -> jsstring -> jsstring -> completion Response.

(** The loop of [translate] from request [i], with the translations
    pushed so far. *)
Fixpoint translateChunks (i : nat) (chunks : list jsstring)
         (sourceLang targetLang : jsstring) (out : list jsstring)
  : completion (list jsstring) :=
  match chunks with
  | [] => Returned out
  | chunk :: rest =>
    match fetch i chunk sourceLang targetLang with
    | Thrown e => Thrown e
    | Returned res =>
      if negb (ok res) then
        Thrown (lit "Online translation failed: " ++ decimal (status res))
      else
        match translation res with
        | Thrown e => Thrown e
        | Returned data =>
          let translated :=
            match data with Some t => t | None => chunk end in
          translateChunks (S i) rest sourceLang targetLang
                          (out ++ [translated])
        end
    end
  end.

Definition translate (text sourceLang targetLang : jsstring)
  : completion jsstring :=
  match
    translateChunks 0 (chunkText text defaultMaxLen) sourceLang targetLang []
  with
  | Returned out => Returned (join blankLine out)
  | Thrown e => Thrown e
  end.

End Service.

End Online.

(* ================================================================== *)
(** * The translation handler of the page ([pages/Index.tsx]) *)
(* ================================================================== *)

Module App.
Import JS Numbers.

(** The value of [activeTab]. *)
Inductive Tab : Type := TextTab | FileTab | OfflineTab.

Definition isOfflineTab (t : Tab) : bool :=
  match t with OfflineTab => true | _ => false end.

(** What [handleTranslate] leaves on the page: the toast
    "Please enter some text"; or the text given to [setTranslation],
    with the method that produced it, and the toast
    "Translation complete!"; or the toast "Translation failed" with the
    exception caught. *)
Inductive Outcome : Type :=
| PleaseEnterText
| Complete (translatedText : jsval) (translationMethod : jsstring)
| Failed (error : jsstring).

Section Page.
Context {H : Host} {NUM : Number}.
Variable fetch : nat -> jsstring -> jsstring -> jsstring
                 -> completion Online.Response.

(** The local dictionary, used when another tier fails or is not
    available. *)
Definition viaFallback (inputText sourceLang targetLang : jsstring)
           (translationMethod : string) : Outcome :=
  match Fallback.translate (Own inputText) sourceLang targetLang with
  | Returned translatedText => Complete translatedText (lit translationMethod)
  | Thrown error => Failed error
  end.

(** [handleTranslate] at time [now], over the offline service in state
    [st]; [isDeviceOnline] is [navigator.onLine]. *)
Definition handleTranslate (st : Offline.State)
           (inputText sourceLang targetLang : jsstring)
           (isDeviceOnline : bool) (activeTab : Tab) (now : Z)
  : Outcome * Offline.State :=
  if is_empty (trim inputText) then (PleaseEnterText, st)
  else
    let canUseOffline := Offline.isLanguagePackDownloaded st sourceLang in
    if canUseOffline && (negb isDeviceOnline || isOfflineTab activeTab) then
      match
        Offline.translateOffline st inputText sourceLang targetLang now
      with
      | Returned (translatedText, st') =>
        (Complete (Own translatedText) (lit "Offline (Downloaded Pack)"), st')
      | Thrown _ =>
        (viaFallback inputText sourceLang targetLang
                     "Offline (Basic Dictionary)", st)
      end
    else if isDeviceOnline then
      match Online.translate fetch inputText sourceLang targetLang with
      | Returned translatedText =>
        (Complete (Own translatedText) (lit "Online (Supabase)"), st)
      | Thrown _ =>
        (viaFallback inputText sourceLang targetLang "Local Dictionary", st)
      end
    else
      (viaFallback inputText sourceLang targetLang
                   "Offline (Basic Dictionary)", st).

End Page.

End App.

(* ================================================================== *)
(** * The lexicon [translate] works with *)
(* ================================================================== *)

Module Resolution.
Import JS Fallback.

(** The cases in which [translate] is one call of
    [translateComplexText]: the lexicon it is given and the target
    language it is called with.  The pair has a lexicon; or it has none
    and the source language has one to English, the target being
    English or English having no lexicon to the target.  [None] is the
    two-step pivot through English, or no lexicon at all. *)
Definition singleStep (sourceLang targetLang : jsstring)
  : option (TranslationPair * jsstring) :=
  match own_get translations (pairKey sourceLang targetLang) with
  | Some translations => Some (translations, targetLang)
  | None =>
    match own_get translations (pairKey sourceLang (lit "en")) with
    | Some toEnglish =>
      if str_eqb targetLang (lit "en") then Some (toEnglish, lit "en")
      else
        match own_get translations (pairKey (lit "en") targetLang) with
        | Some _ => None
        | None => Some (toEnglish, lit "en")
        end
    | None => None
    end
  end.

End Resolution.

(* ================================================================== *)
(** * Predicates for the invariants of the two offline services *)
(* ================================================================== *)

Module Invariants.
Import JS Numbers.

Section Offline.
Context {H : Host} {NUM : Number}.
Import Offline.

(** The code and the declared size of every registered pack, in the
    order of the map. *)
Definition registry (ps : jsobject LanguagePack) : list (jsstring * num) :=
  map (fun kp => (fst kp, size (snd kp))) ps.

(** The packs [initializeLanguagePacks] registers. *)
Definition registered : list (jsstring * num) :=
  [ (lit "ne", ofHundredths 1550); (lit "si", ofHundredths 1230) ].

(** A pack marked downloaded holds the dictionary of its language; a
    pack that is not holds an empty one. *)
Definition installed (langCode : jsstring) (pack : LanguagePack) : Prop :=
  if isDownloaded pack
  then own_get dictionaries langCode = Some (dictionary pack)
  else dictionary pack = [].

Definition consistent (st : State) : Prop :=
  registry (languagePacks st) = registered
  /\ forall langCode pack,
       own_get (languagePacks st) langCode = Some pack ->
       installed langCode pack.

End Offline.

Section OfflineExt.
Context {H : Host} {NUM : Number}.
Import OfflineExt.

Definition registry_ext (ps : jsobject LanguagePack)
  : list (jsstring * num) :=
  map (fun kp => (fst kp, size (snd kp))) ps.

Definition registered_ext : list (jsstring * num) :=
  [ (lit "ne", ofHundredths 1550); (lit "si", ofHundredths 1230);
    (lit "en", ofHundredths 500) ].

(** The stored item [langPack_<code>_downloaded] is ['true']. *)
Definition flagged (st : State) (langCode : jsstring) : Prop :=
  own_get (localStorage st) (flagKey langCode) = Some (lit "true").

(** The registered packs are those of [initializeLanguagePacks], and
    every pack marked downloaded whose code satisfies [care] has its
    stored item. *)
Definition consistent_on (care : jsstring -> Prop) (st : State) : Prop :=
  registry_ext (languagePacks st) = registered_ext
  /\ forall langCode pack,
       care langCode ->
       own_get (languagePacks st) langCode = Some pack ->
       isDownloaded pack = true -> flagged st langCode.

Definition consistent_ext (st : State) : Prop :=
  consistent_on (fun _ => True) st.

(** The source language [translateOffline] works with. *)
Definition resolvedSource (text sourceLang : jsstring) : jsstring :=
  if str_eqb sourceLang (lit "auto") then detectLanguage text else sourceLang.

(** The stored items only grow. *)
Definition grows (st st' : State) : Prop :=
  forall langCode, flagged st langCode -> flagged st' langCode.

(** The state after
    [if (!this.isLanguagePackDownloaded(k)) await this.loadLanguageDictionary(k)]. *)
Definition ensured (st : State) (k : jsstring) : State :=
  if negb (fst (isLanguagePackDownloaded st k))
  then loadLanguageDictionary (snd (isLanguagePackDownloaded st k)) k
  else snd (isLanguagePackDownloaded st k).

(** Any number of transitions of the service. *)
Inductive steps : State -> State -> Prop :=
| steps_refl st : steps st st
| steps_step st st' st'' : steps st st' -> step st' st'' -> steps st st''.

End OfflineExt.

End Invariants.

(* ================================================================== *)
(** * More example inputs and states, on the concrete host *)
(* ================================================================== *)

Module Cases.
Import JS Numbers BasicHost.

(** A short text. *)
Definition question : jsstring := lit "Hello. How are you?".

(** A paragraph of three sentences, a blank line, and a second
    paragraph. *)
Definition twoParagraphs : jsstring :=
  lit "One. Two three. Four." ++ Online.blankLine ++ lit "Five.".

(** An endpoint that answers every request with status 200 and a body
    without translation. *)
Definition silentEndpoint (i : nat) (chunk sourceLang targetLang : jsstring)
  : completion Online.Response :=
  Returned {| Online.status := 200; Online.translation := Returned None |}.

(** The offline service constructed over an empty storage. *)
Definition initial : Offline.State := Offline.construct 0 None [].

(** The offline service once the Nepali pack is downloaded. *)
Definition downloaded : Offline.State :=
  match Offline.downloadLanguagePack initial (lit "ne") with
  | Returned (_, _, st) => st
  | Thrown _ => initial
  end.

(** ... and once "घर" has been translated from Nepali, at time 5. *)
Definition translated : Offline.State :=
  match
    Offline.translateOffline downloaded (lit "घर") (lit "ne") (lit "en") 5
  with
  | Returned (_, st) => st
  | Thrown _ => downloaded
  end.

End Cases.

(* ================================================================== *)
(** * Facts about the string and object operations *)
(* ================================================================== *)

Unset Implicit Arguments.

Module JSFacts.
Import JS.

Lemma str_eqb_refl (a : jsstring) : str_eqb a a = true.
Proof.
  induction a as [|x a IH]; simpl; [reflexivity|].
  now rewrite N.eqb_refl, IH.
Qed.

Lemma str_eqb_eq (a b : jsstring) : str_eqb a b = true <-> a = b.
Proof.
  split.
  - revert b; induction a as [|x a IH]; intros [|y b] E; simpl in E;
      try discriminate; [reflexivity|].
    apply andb_true_iff in E as [E1 E2].
    apply N.eqb_eq in E1. now rewrite E1, (IH b E2).
  - intros ->. apply str_eqb_refl.
Qed.

Lemma str_eqb_neq (a b : jsstring) : str_eqb a b = false <-> a <> b.
Proof.
  split.
  - intros E ->. now rewrite str_eqb_refl in E.
  - intros N0. destruct (str_eqb a b) eqn:E; [|reflexivity].
    now apply str_eqb_eq in E.
Qed.

Lemma is_empty_nil (s : jsstring) : is_empty s = true <-> s = [].
Proof. destruct s; simpl; split; congruence. Qed.

(** ** Own properties *)

Lemma own_get_In {A} (o : jsobject A) k v :
  own_get o k = Some v -> In (k, v) o.
Proof.
  induction o as [|[k' v'] o IH]; simpl; [discriminate|].
  destruct (str_eqb k' k) eqn:E.
  - intros [= ->]. apply str_eqb_eq in E as ->. now left.
  - intros G. right. now apply IH.
Qed.

Lemma own_get_obj_set_same {A} (o : jsobject A) k v :
  own_get (obj_set o k v) k = Some v.
Proof.
  induction o as [|[k' v'] o IH]; simpl.
  - now rewrite str_eqb_refl.
  - destruct (str_eqb k' k) eqn:E; simpl; now rewrite E.
Qed.

Lemma own_get_obj_set_other {A} (o : jsobject A) k k' v :
  k' <> k -> own_get (obj_set o k v) k' = own_get o k'.
Proof.
  intros N0. induction o as [|[k0 v0] o IH]; simpl.
  - assert (E : str_eqb k k' = false) by (apply str_eqb_neq; congruence).
    now rewrite E.
  - destruct (str_eqb k0 k) eqn:E; simpl.
    + apply str_eqb_eq in E as ->.
      assert (E : str_eqb k k' = false) by (apply str_eqb_neq; congruence).
      now rewrite E.
    + destruct (str_eqb k0 k'); [reflexivity|apply IH].
Qed.

Lemma obj_keys_obj_set {A} (o : jsobject A) k v v0 :
  own_get o k = Some v0 -> obj_keys (obj_set o k v) = obj_keys o.
Proof.
  unfold obj_keys.
  induction o as [|[k' v'] o IH]; simpl; [discriminate|].
  destruct (str_eqb k' k) eqn:E; simpl; [reflexivity|].
  intros G. now rewrite IH.
Qed.

Lemma own_get_filter {A} (p : jsstring -> bool) (o : jsobject A) k :
  own_get (filter (fun e => p (fst e)) o) k =
  if p k then own_get o k else None.
Proof.
  induction o as [|[k' v'] o IH]; simpl.
  - now destruct (p k).
  - destruct (p k') eqn:P; simpl.
    + destruct (str_eqb k' k) eqn:E.
      * apply str_eqb_eq in E as ->. now rewrite P.
      * apply IH.
    + destruct (str_eqb k' k) eqn:E.
      * apply str_eqb_eq in E as <-. rewrite IH. now rewrite P.
      * apply IH.
Qed.

(** ** Inherited names *)

(** No inherited name contains a hyphen. *)
Lemma hyphen_not_prototype_name (k : jsstring) :
  In 45%N k -> isPrototypeName k = false.
Proof.
  intros Hy. unfold isPrototypeName.
  destruct (existsb (str_eqb k) objectPrototypeNames) eqn:E; [|reflexivity].
  apply existsb_exists in E as (n & Hn & E).
  apply str_eqb_eq in E as ->.
  exfalso. revert Hy.
  assert (G : forallb (fun n => negb (existsb (N.eqb 45) n))
                      objectPrototypeNames = true) by (vm_compute; reflexivity).
  rewrite forallb_forall in G. specialize (G _ Hn).
  intros Hy. apply negb_true_iff in G.
  assert (existsb (N.eqb 45) n = true); [|congruence].
  apply existsb_exists. exists 45%N. split; [assumption|apply N.eqb_refl].
Qed.

Lemma obj_get_hyphen {A} (o : jsobject A) k :
  In 45%N k ->
  obj_get o k = match own_get o k with Some v => Some (Own v) | None => None end.
Proof.
  intros Hy. unfold obj_get.
  destruct (own_get o k); [reflexivity|].
  now rewrite hyphen_not_prototype_name.
Qed.

(** An own, non-empty entry is what the guarded read finds. *)
Lemma lookup_own (d : jsobject jsstring) k v :
  own_get d k = Some v -> v <> [] -> lookup d k = Some (Own v).
Proof.
  intros G N0. unfold lookup, obj_get. rewrite G. simpl.
  destruct v; [congruence|reflexivity].
Qed.

(** ** Substrings *)

Lemma startsWith_app s sub : startsWith s sub = true -> s = sub ++ skipn (length sub) s.
Proof.
  revert s. induction sub as [|x sub IH]; intros s E; simpl in *; [reflexivity|].
  destruct s as [|y s]; [discriminate|].
  apply andb_true_iff in E as [E1 E2]. apply N.eqb_eq in E1. subst.
  simpl. f_equal. now apply IH.
Qed.

Lemma find_first_spec s sub b a :
  find_first s sub = Some (b, a) -> s = b ++ sub ++ a.
Proof.
  revert b. induction s as [|c s IH]; intros b.
  - destruct sub; simpl; [|discriminate].
    now intros [= <- <-].
  - cbn [find_first]. destruct (startsWith (c :: s) sub) eqn:E.
    + intros [= <- <-]. simpl. now apply startsWith_app.
    + destruct (find_first s sub) as [[b' a']|] eqn:F; [|discriminate].
      intros [= <- <-]. simpl. f_equal. now apply IH.
Qed.

Lemma In_firstn {A} (x : A) n l : In x (firstn n l) -> In x l.
Proof.
  intros I. rewrite <- (firstn_skipn n l). apply in_or_app. now left.
Qed.

Lemma In_skipn {A} (x : A) n l : In x (skipn n l) -> In x l.
Proof.
  intros I. rewrite <- (firstn_skipn n l). apply in_or_app. now right.
Qed.

(** A replacement text without a dollar sign stands for itself. *)
Lemma GetSubstitution_plain matched before after template :
  ~ In 36%N template ->
  GetSubstitution matched before after template = template.
Proof.
  induction template as [|c r IH]; intros Hd; simpl; [reflexivity|].
  destruct (c =? 36)%N eqn:E.
  - apply N.eqb_eq in E. subst. exfalso. apply Hd. now left.
  - f_equal. apply IH. intros I. apply Hd. now right.
Qed.

(** With a replacement text without dollar sign, replacing every
    occurrence is plain substitution. *)
Lemma replaceAll_plain pat repl :
  ~ In 36%N repl ->
  forall s skip before,
    replaceAll_go pat repl skip before s = spliceAll_go pat repl skip s.
Proof.
  intros Hd. induction s as [|c s IH]; intros skip before; [reflexivity|].
  cbn [replaceAll_go spliceAll_go]. destruct skip as [|n]; [|apply IH].
  destruct (startsWith (c :: s) pat && negb (is_empty pat)).
  - now rewrite GetSubstitution_plain, IH.
  - now rewrite IH.
Qed.

End JSFacts.

(* ================================================================== *)
(** * The matcher does not depend on its fuel *)
(* ================================================================== *)

Module RegexFacts.
Import JS Regex.

Lemma later_refl x : later x x.
Proof. split; lia. Qed.

Lemma later_trans x y z : later x y -> later y z -> later x z.
Proof. intros [A B] [C D]. split; lia. Qed.

Lemma set_capture_rest i v st :
  rest (set_capture i v st) = rest st
  /\ endIndex (set_capture i v st) = endIndex st.
Proof. split; reflexivity. Qed.

Lemma clear_captures_rest gs st :
  rest (clear_captures gs st) = rest st
  /\ endIndex (clear_captures gs st) = endIndex st.
Proof.
  unfold clear_captures. revert st.
  induction gs as [|g gs IH]; intros st; simpl; [now split|].
  destruct (IH (set_capture g None st)) as [A B]. now rewrite A, B.
Qed.

Section Fuel.
Context {H : Host}.

(** The repeat matcher gives the same result for any two amounts of
    fuel above the bound, and only looks at its continuation on later
    states. *)
Lemma RepeatMatcher_fuel fuel1 :
  forall fuel2 m gs greedy min max x c1 c2,
    (forall x c1 c2, (forall y, later x y -> c1 y = c2 y) -> m x c1 = m x c2) ->
    (forall y, later x y -> c1 y = c2 y) ->
    S (min + length (rest x)) <= fuel1 ->
    S (min + length (rest x)) <= fuel2 ->
    RepeatMatcher fuel1 m gs greedy min max x c1
    = RepeatMatcher fuel2 m gs greedy min max x c2.
Proof.
  induction fuel1 as [|fuel1 IH];
    intros fuel2 m gs greedy min max x c1 c2 Hm Hc F1 F2; [lia|].
  destruct fuel2 as [|fuel2]; [lia|].
  cbn [RepeatMatcher].
  assert (Hx : c1 x = c2 x) by apply Hc, later_refl.
  set (d1 := fun y : mstate =>
               if Nat.eqb min 0 && Nat.eqb (endIndex y) (endIndex x) then None
               else RepeatMatcher fuel1 m gs greedy (min - 1) (pred_max max) y c1).
  set (d2 := fun y : mstate =>
               if Nat.eqb min 0 && Nat.eqb (endIndex y) (endIndex x) then None
               else RepeatMatcher fuel2 m gs greedy (min - 1) (pred_max max) y c2).
  assert (Hd : m (clear_captures gs x) d1 = m (clear_captures gs x) d2).
  { apply Hm. intros y [L1 L2].
    destruct (clear_captures_rest gs x) as [R E]. rewrite R, E in *.
    unfold d1, d2.
    destruct (Nat.eqb min 0 && Nat.eqb (endIndex y) (endIndex x)) eqn:C;
      [reflexivity|].
    assert (B : S (min - 1 + length (rest y)) <= min + length (rest x)).
    { destruct min as [|k]; [|lia].
      simpl in C. apply Nat.eqb_neq in C. lia. }
    apply IH; [exact Hm| |lia|lia].
    intros z Hz. apply Hc. apply later_trans with y; [split; lia|exact Hz]. }
  destruct max as [[|k]|].
  - exact Hx.
  - now rewrite Hd, Hx.
  - now rewrite Hd, Hx.
Qed.

(** A matcher only looks at its continuation on later states. *)
Lemma rmatch_ext r :
  forall x c1 c2,
    (forall y, later x y -> c1 y = c2 y) -> rmatch r x c1 = rmatch r x c2.
Proof.
  induction r as [|ch|p|r1 IH1 r2 IH2|r1 IH1 r2 IH2|g mn mx r1 IH1|i r1 IH1| |];
    intros x c1 c2 Hc; cbn [rmatch].
  - apply Hc, later_refl.
  - destruct (rest x) as [|a tl] eqn:R; [reflexivity|].
    destruct (canonicalize a =? canonicalize ch)%N; [|reflexivity].
    apply Hc. split; simpl; rewrite R; simpl; lia.
  - destruct (rest x) as [|a tl] eqn:R; [reflexivity|].
    destruct (p a); [|reflexivity].
    apply Hc. split; simpl; rewrite R; simpl; lia.
  - apply IH1. intros y Hy. apply IH2. intros z Hz.
    apply Hc. now apply later_trans with y.
  - now rewrite (IH1 x c1 c2 Hc), (IH2 x c1 c2 Hc).
  - apply RepeatMatcher_fuel; [exact IH1|exact Hc|lia|lia].
  - apply IH1. intros y Hy. apply Hc. exact Hy.
  - destruct (Nat.eqb (endIndex x) 0); [apply Hc, later_refl|reflexivity].
  - destruct (rest x); [apply Hc, later_refl|reflexivity].
Qed.

(** The fuel [rmatch] gives the repeat matcher is enough: more fuel
    does not change the result. *)
Lemma RepeatMatcher_fuel_adequate r greedy min max x c extra :
  RepeatMatcher (S (min + length (rest x)) + extra) (rmatch r) (groups r)
                greedy min max x c
  = RepeatMatcher (S (min + length (rest x))) (rmatch r) (groups r)
                  greedy min max x c.
Proof.
  apply RepeatMatcher_fuel; [apply rmatch_ext|reflexivity|lia|lia].
Qed.

End Fuel.

End RegexFacts.

(* ================================================================== *)
(** * Properties of the fallback translation service *)
(* ================================================================== *)

Module FallbackFacts.
Import JS Regex Fallback JSFacts.

Lemma pairKey_has_hyphen (sourceLang targetLang : jsstring) :
  In 45%N (pairKey sourceLang targetLang).
Proof.
  unfold pairKey. apply in_or_app. right. now left.
Qed.

(** Reads of [translations] at a pair key never reach an inherited
    member: the own-property read of [translate] is the property read of
    the source. *)
Lemma pairKey_read_is_own (sourceLang targetLang : jsstring) :
  obj_get translations (pairKey sourceLang targetLang) =
  match own_get translations (pairKey sourceLang targetLang) with
  | Some d => Some (Own d)
  | None => None
  end.
Proof. apply obj_get_hyphen, pairKey_has_hyphen. Qed.

(** The same for [patternRules]. *)
Lemma pairKey_rules_read_is_own (sourceLang targetLang : jsstring) :
  obj_get patternRules (pairKey sourceLang targetLang) =
  match own_get patternRules (pairKey sourceLang targetLang) with
  | Some d => Some (Own d)
  | None => None
  end.
Proof. apply obj_get_hyphen, pairKey_has_hyphen. Qed.

(** Every value of every built-in lexicon is a non-empty string. *)
Lemma translations_values_nonempty d k v :
  In d (map snd translations) -> In (k, v) d -> v <> [].
Proof.
  intros Hd Hk.
  assert (G : forallb (fun d => forallb (fun kv => negb (is_empty (snd kv))) d)
                      (map snd translations) = true)
    by (vm_compute; reflexivity).
  rewrite forallb_forall in G. specialize (G _ Hd).
  rewrite forallb_forall in G. specialize (G _ Hk). simpl in G.
  intros ->. discriminate.
Qed.

Lemma translations_dict_In sourceLang targetLang d :
  own_get translations (pairKey sourceLang targetLang) = Some d ->
  In d (map snd translations).
Proof.
  intros G. apply own_get_In in G.
  apply in_map_iff. now exists (pairKey sourceLang targetLang, d).
Qed.

Section WithHost.
Context {H : Host}.

(** With a direct lexicon, [translate] is [translateComplexText] on
    it. *)
Lemma translate_direct text sourceLang targetLang d :
  own_get translations (pairKey sourceLang targetLang) = Some d ->
  translate text sourceLang targetLang =
  translateComplexText text d sourceLang targetLang.
Proof. intros G. unfold translate. now rewrite G. Qed.

(** On a string, [translateComplexText] returns. *)
Lemma translateComplexText_returns (text : jsstring) d sourceLang targetLang :
  exists v, translateComplexText (Own text) d sourceLang targetLang = Returned v.
Proof.
  unfold translateComplexText.
  destruct (lookup d (trim (toLowerCase text))); [eauto|].
  destruct (lookup d (trim text)); [eauto|].
  destruct (isParagraph text); [eauto|].
  destruct (isSentence text); [eauto|].
  destruct (isPhrase text); eauto.
Qed.

(** No dictionary for the pair and none from the source language to
    English: the text comes back behind the marker. *)
Lemma translate_no_dictionary (text sourceLang targetLang : jsstring) :
  isLanguagePairSupported sourceLang targetLang = false ->
  isLanguagePairSupported sourceLang (lit "en") = false ->
  translate (Own text) sourceLang targetLang =
  Returned (Own (lit "[No dictionary: " ++ sourceLang ++ lit "-" ++ targetLang
                     ++ lit "] " ++ text)).
Proof.
  unfold isLanguagePairSupported, translate. intros D E.
  destruct (own_get translations (pairKey sourceLang targetLang));
    [discriminate|].
  destruct (own_get translations (pairKey sourceLang (lit "en")));
    [discriminate|].
  destruct (str_eqb targetLang (lit "en")); reflexivity.
Qed.

(** The marker contains the pair key. *)
Lemma no_dictionary_marker_has_pair_key (text sourceLang targetLang : jsstring) :
  exists before after,
    lit "[No dictionary: " ++ sourceLang ++ lit "-" ++ targetLang
        ++ lit "] " ++ text
    = before ++ pairKey sourceLang targetLang ++ after.
Proof.
  exists (lit "[No dictionary: "), (lit "] " ++ text).
  unfold pairKey. now rewrite <- !app_assoc.
Qed.

(** ** C2: pivot through English *)

(** C2.  Pivot correctness: when there is no direct lexicon for
    (src, tgt), tgt is not English, and the lexicons src-en and en-tgt
    both exist, translating from src to tgt is translating from src to
    English and then the outcome from English to tgt. *)
Theorem pivot_correctness (text sourceLang targetLang : jsstring) :
  str_eqb targetLang (lit "en") = false ->
  isLanguagePairSupported sourceLang targetLang = false ->
  isLanguagePairSupported sourceLang (lit "en") = true ->
  isLanguagePairSupported (lit "en") targetLang = true ->
  translate (Own text) sourceLang targetLang =
  bind (translate (Own text) sourceLang (lit "en"))
       (fun intermediate => translate intermediate (lit "en") targetLang).
Proof.
  unfold isLanguagePairSupported. intros NE D SE ET.
  destruct (own_get translations (pairKey sourceLang (lit "en")))
    as [toEnglish|] eqn:GS; [|discriminate].
  destruct (own_get translations (pairKey (lit "en") targetLang))
    as [fromEnglish|] eqn:GT; [|discriminate].
  rewrite (translate_direct _ _ _ _ GS).
  unfold translate at 1.
  destruct (own_get translations (pairKey sourceLang targetLang));
    [discriminate|].
  rewrite GS, GT, NE.
  destruct (translateComplexText_returns text toEnglish sourceLang (lit "en"))
    as [v ->].
  simpl. symmetry. now apply translate_direct.
Qed.

(** ** C3: the exact whole-text match *)

(** The first step of [translateComplexText]: an own, non-empty entry
    for the lower-cased, trimmed text is returned at once. *)
Lemma translateComplexText_exact (text : jsstring) d v sourceLang targetLang :
  own_get d (trim (toLowerCase text)) = Some v -> v <> [] ->
  translateComplexText (Own text) d sourceLang targetLang = Returned (Own v).
Proof.
  intros K N0. unfold translateComplexText.
  now rewrite (lookup_own _ _ _ K N0).
Qed.

(** Inputs that differ only in casing get the same exact match. *)
Lemma exact_match_any_casing (text text' sourceLang targetLang : jsstring) d v :
  own_get translations (pairKey sourceLang targetLang) = Some d ->
  own_get d (trim (toLowerCase text)) = Some v ->
  toLowerCase text' = toLowerCase text ->
  translate (Own text') sourceLang targetLang =
  translate (Own text) sourceLang targetLang.
Proof.
  intros D K E.
  assert (N0 : v <> []).
  { eapply translations_values_nonempty.
    - eapply translations_dict_In; eassumption.
    - eapply own_get_In; eassumption. }
  rewrite !(translate_direct _ _ _ _ D).
  rewrite (translateComplexText_exact text d v) by assumption.
  apply translateComplexText_exact; [now rewrite E|assumption].
Qed.

(** C3.  Exact match: when the pair has a lexicon and the lower-cased,
    trimmed text is one of its keys, [translate] returns exactly the
    value mapped to that key.  The hypothesis is on the case-folded
    text, so the casing of the input does not matter, and the value is
    returned whatever the classification, the pattern rules or the
    segmentation would have produced: the match comes first. *)
Theorem exact_match_returns_mapped_value
        (text sourceLang targetLang : jsstring) d v :
  own_get translations (pairKey sourceLang targetLang) = Some d ->
  own_get d (trim (toLowerCase text)) = Some v ->
  translate (Own text) sourceLang targetLang = Returned (Own v).
Proof.
  intros D K.
  rewrite (translate_direct _ _ _ _ D).
  unfold translateComplexText.
  rewrite (lookup_own _ _ _ K); [reflexivity|].
  eapply translations_values_nonempty.
  - eapply translations_dict_In; eassumption.
  - eapply own_get_In; eassumption.
Qed.

(** On a string, [translate] throws in one case only: the pair is
    pivoted through English and the first step returns an inherited
    member. *)
Lemma translate_returns_unless_pivot_inherits (text sourceLang targetLang : jsstring) :
  (exists v, translate (Own text) sourceLang targetLang = Returned v)
  \/ (isLanguagePairSupported sourceLang targetLang = false
      /\ exists name,
           translate (Own text) sourceLang (lit "en")
           = Returned (Inherited name)).
Proof.
  unfold isLanguagePairSupported, translate.
  destruct (own_get translations (pairKey sourceLang targetLang)) as [d|].
  { left. apply translateComplexText_returns. }
  destruct (own_get translations (pairKey sourceLang (lit "en")))
    as [toEnglish|] eqn:GS.
  2: { left. destruct (str_eqb targetLang (lit "en")); eauto. }
  destruct (str_eqb targetLang (lit "en")).
  { left. apply translateComplexText_returns. }
  destruct (own_get translations (pairKey (lit "en") targetLang))
    as [fromEnglish|].
  2: { left. apply translateComplexText_returns. }
  destruct (translateComplexText_returns text toEnglish sourceLang (lit "en"))
    as [v E].
  rewrite E. simpl. destruct v as [s|name].
  - left. apply translateComplexText_returns.
  - right. split; [reflexivity|]. now exists name.
Qed.

(** ** C5: pattern rules *)

(** Rules are tried in declaration order, and the first rule that
    matches gives the result. *)
Lemma applyRules_first_match rules pre r post original m :
  rules = pre ++ r :: post ->
  (forall r', In r' pre -> match_ (pattern r') original = None) ->
  match_ (pattern r) original = Some m ->
  applyRules rules original = Some (substituteGroups 1 m (template r)).
Proof.
  intros -> Hpre Hm. induction pre as [|r' pre IH]; cbn [app applyRules].
  - now rewrite Hm.
  - rewrite (Hpre r') by now left. apply IH.
    intros r0 Hr0. apply Hpre. now right.
Qed.

(** When a rule matches, its instantiated template is the result of
    [translateSentence]; the lexicon is not consulted. *)
Lemma translateSentence_pattern_first text d sourceLang targetLang p :
  applyPatternRules text sourceLang targetLang = Some p -> p <> [] ->
  translateSentence text d sourceLang targetLang = p.
Proof.
  intros P N0. unfold translateSentence. rewrite P.
  destruct p; [congruence|reflexivity].
Qed.

(** For a capture whose trimmed text has no dollar sign, the
    placeholder is replaced by that text. *)
Lemma substituteGroups_single_plain (g : jsstring) out :
  ~ In 36%N (trim g) ->
  substituteGroups 1 [Some g] out = spliceAll out (lit "$1") (trim g).
Proof.
  intros Hd. cbn [substituteGroups]. unfold replaceAll, spliceAll.
  now apply replaceAll_plain.
Qed.

End WithHost.

(** ** Examples, on the concrete host *)

Import BasicHost.

Lemma pivot_correctness_witness :
  translate (Own (lit "bonjour")) (lit "fr") (lit "de") =
  bind (translate (Own (lit "bonjour")) (lit "fr") (lit "en"))
       (fun intermediate => translate intermediate (lit "en") (lit "de")).
Proof.
  apply (pivot_correctness (H := basicHost) (lit "bonjour") (lit "fr") (lit "de"));
    vm_compute; reflexivity.
Defined.

(** Scenario 4 of the specification: bonjour pivots to hallo. *)
Example translate_bonjour_fr_de :
  translate (Own (lit "bonjour")) (lit "fr") (lit "de")
  = Returned (Own (lit "hallo")).
Proof. vm_compute. reflexivity. Qed.

Lemma exact_match_returns_mapped_value_witness :
  translate (Own (lit "  Thank YOU ")) (lit "en") (lit "hi")
  = Returned (Own (lit "धन्यवाद")).
Proof.
  refine (let d := _ in
          exact_match_returns_mapped_value (H := basicHost)
            (lit "  Thank YOU ") (lit "en") (lit "hi") d
            (lit "धन्यवाद") _ _).
  - vm_compute. reflexivity.
  - vm_compute. reflexivity.
Defined.

(** ** C1: totality *)

(** The marker case of C1: with no dictionary from the source language,
    the text comes back behind a marker that names the pair. *)
Example translate_hello_en_xx :
  isLanguagePairSupported (lit "en") (lit "xx") = false /\
  translate (Own (lit "hello")) (lit "en") (lit "xx")
  = Returned (Own (lit "[No dictionary: en-xx] hello")).
Proof. split; vm_compute; reflexivity. Qed.

(** A look-up of [constructor] finds the member every plain object
    inherits, so the value returned is not a string. *)
Example translate_constructor_not_a_string :
  translate (Own (lit "constructor")) (lit "en") (lit "hi")
  = Returned (Inherited (lit "constructor")).
Proof. vm_compute. reflexivity. Qed.

(** C1.  [translate] is not total: for the text [constructor] from
    French to German (no direct lexicon, pivot through English) the
    first step returns the inherited member [constructor] of the
    French-English lexicon, which has no [trim] method, and the second
    step throws. *)
Theorem translate_pivot_throws :
  translate (Own (lit "constructor")) (lit "fr") (lit "de")
  = Thrown (lit "TypeError: text.trim is not a function").
Proof. vm_compute. reflexivity. Qed.

(** Scenario 2 of the specification. *)
Example translate_my_name_is_Sam :
  translate (Own (lit "my name is Sam")) (lit "en") (lit "ne")
  = Returned (Own (lit "मेरो नाम Sam हो")).
Proof. vm_compute. reflexivity. Qed.

(** C5.  The captured text is used as a replacement pattern, not as a
    literal: for the name [$$] the second rule of the pair matches with
    the capture [$$], and the template comes back with a single
    dollar. *)
Theorem pattern_capture_with_dollars :
  match_ pat_my_name_is (lit "my name is $$") = Some [Some (lit "$$")] /\
  translate (Own (lit "my name is $$")) (lit "en") (lit "ne")
  = Returned (Own (lit "मेरो नाम $ हो")).
Proof. split; vm_compute; reflexivity. Qed.

End FallbackFacts.

(* ================================================================== *)
(** * Line preservation in the paragraph branch *)
(* ================================================================== *)

Module LineFacts.
Import JS Regex Fallback JSFacts.

(** ** Where the code units of a result come from *)

Lemma In_trimStart x s : In x (trimStart s) -> In x s.
Proof.
  induction s as [|c s IH]; simpl; [tauto|].
  destruct (isWhiteSpace c); [right; now apply IH|tauto].
Qed.

Lemma In_trim x s : In x (trim s) -> In x s.
Proof.
  unfold trim, trimEnd. intros I.
  apply in_rev, In_trimStart, in_rev in I. now apply In_trimStart.
Qed.

Lemma In_split_go sepAt skip cur s piece x :
  In piece (split_go sepAt skip cur s) -> In x piece ->
  In x cur \/ In x s.
Proof.
  revert skip cur. induction s as [|c s IH]; intros skip cur; simpl.
  - intros [<-|[]] I. left. now apply in_rev.
  - destruct skip as [|n].
    + destruct (sepAt (c :: s)) as [|n].
      * intros P I. destruct (IH _ _ P I) as [[->|J]|J]; auto.
      * intros [<-|P] I.
        -- left. now apply in_rev.
        -- destruct (IH _ _ P I) as [[]|J]; auto.
    + intros P I. destruct (IH _ _ P I) as [J|J]; auto.
Qed.

Lemma In_split sepAt s piece x :
  In piece (split sepAt s) -> In x piece -> In x s.
Proof.
  intros P I. destruct (In_split_go _ _ _ _ _ _ P I) as [[]|J]; exact J.
Qed.

Lemma In_join x sep l :
  In x (join sep l) -> In x sep \/ exists p, In p l /\ In x p.
Proof.
  induction l as [|a l IH]; simpl; [tauto|].
  destruct l as [|b l].
  - intros I. right. exists a. split; [now left|exact I].
  - intros I. apply in_app_or in I as [I|I].
    + right. exists a. split; [now left|exact I].
    + apply in_app_or in I as [I|I]; [now left|].
      destruct (IH I) as [J|(p & Hp & J)]; [now left|].
      right. exists p. split; [now right|exact J].
Qed.

Lemma lineFeeds_app a b : lineFeeds (a ++ b) = lineFeeds a + lineFeeds b.
Proof. unfold lineFeeds. now rewrite filter_app, length_app. Qed.

Lemma lineFeeds_none s : ~ In 10%N s -> lineFeeds s = 0.
Proof.
  unfold lineFeeds. induction s as [|c s IH]; cbn [filter]; [reflexivity|].
  intros N0. destruct (N.eqb_spec 10 c) as [E|_].
  - exfalso. apply N0. now left.
  - apply IH. intros I. apply N0. now right.
Qed.

(** ** Input lines *)

(** A piece cut at line breaks has no line feed. *)
Lemma split_newline_pieces n :
  forall s cur piece,
    length s <= n -> ~ In 10%N cur ->
    In piece (split_go sep_newline 0 cur s) -> ~ In 10%N piece.
Proof.
  induction n as [|n IH]; intros s cur piece Hlen Hcur.
  - destruct s; [|simpl in Hlen; lia]. simpl.
    intros [<-|[]] I. apply Hcur. now apply in_rev.
  - destruct s as [|c s]; [simpl; intros [<-|[]] I; apply Hcur; now apply in_rev|].
    simpl in Hlen. cbn [split_go sep_newline].
    destruct (N.eqb_spec c 13) as [->|N13].
    + destruct s as [|d s].
      * simpl. intros [<-|[]] I.
        apply Hcur. apply in_rev. apply in_app_or in I as [I|[E|[]]];
          [exact I|discriminate].
      * destruct (N.eqb_spec d 10) as [->|N10].
        -- cbn [split_go]. intros [<-|P].
           ++ intros I. apply Hcur. now apply in_rev.
           ++ simpl in Hlen. apply (IH s [] piece); [lia|tauto|exact P].
        -- apply IH; [simpl in *; lia|].
           intros [E'|I]; [discriminate|auto].
    + destruct (N.eqb_spec c 10) as [->|N10].
      * intros [<-|P].
        -- intros I. apply Hcur. now apply in_rev.
        -- apply (IH s [] piece); [lia|tauto|exact P].
      * apply IH; [lia|].
        intros [E'|I]; [congruence|auto].
Qed.

Lemma inputLines_no_lineFeed text line :
  In line (inputLines text) -> ~ In 10%N line.
Proof.
  apply (split_newline_pieces (length text)); [lia|tauto].
Qed.

Lemma lineFeeds_cons c s :
  lineFeeds (c :: s) = (if (c =? 10)%N then 1 else 0) + lineFeeds s.
Proof.
  unfold lineFeeds. cbn [filter]. rewrite (N.eqb_sym 10 c).
  now destruct (c =? 10)%N.
Qed.

(** A text with N line feeds has N + 1 input lines. *)
Lemma split_newline_length n :
  forall s cur,
    length s <= n ->
    length (split_go sep_newline 0 cur s) = S (lineFeeds s).
Proof.
  induction n as [|n IH]; intros s cur Hlen.
  - destruct s; [reflexivity|simpl in Hlen; lia].
  - destruct s as [|c s]; [reflexivity|].
    simpl in Hlen. cbn [split_go sep_newline]. rewrite lineFeeds_cons.
    destruct (N.eqb_spec c 13) as [->|N13].
    + change (13 =? 10)%N with false. cbn [Nat.add].
      destruct s as [|d s]; [reflexivity|].
      rewrite lineFeeds_cons.
      destruct (N.eqb_spec d 10) as [->|N10].
      * cbn [split_go length]. simpl in Hlen. rewrite IH by lia. reflexivity.
      * rewrite IH by (simpl in *; lia). rewrite lineFeeds_cons.
        destruct (N.eqb_spec d 10); [congruence|reflexivity].
    + destruct (N.eqb_spec c 10) as [->|N10].
      * cbn [length]. rewrite IH by lia. reflexivity.
      * rewrite IH by lia. reflexivity.
Qed.

Lemma inputLines_length text : length (inputLines text) = S (lineFeeds text).
Proof. apply (split_newline_length (length text)). lia. Qed.

(** ** Output lines *)

Lemma lit_newline : lit (String "010"%char EmptyString) = [10%N].
Proof. reflexivity. Qed.

Lemma lineFeeds_join outs :
  Forall (fun o => ~ In 10%N o) outs ->
  lineFeeds (join [10%N] outs) = length outs - 1.
Proof.
  induction 1 as [|x outs Hx Houts IH]; [reflexivity|].
  destruct outs as [|y outs].
  - simpl. now apply lineFeeds_none.
  - change (join [10%N] (x :: y :: outs))
      with (x ++ [10%N] ++ join [10%N] (y :: outs)).
    rewrite !lineFeeds_app, IH, (lineFeeds_none _ Hx). simpl. lia.
Qed.

Lemma split_lineFeed_piece x :
  ~ In 10%N x ->
  forall cur,
    split_go (sep_one (N.eqb 10)) 0 cur x = [rev cur ++ x]
    /\ forall rest,
         split_go (sep_one (N.eqb 10)) 0 cur (x ++ 10%N :: rest)
         = (rev cur ++ x) :: split_go (sep_one (N.eqb 10)) 0 [] rest.
Proof.
  induction x as [|c x IH]; intros Hx cur.
  - split; [simpl; now rewrite app_nil_r|].
    intros rest. simpl. now rewrite app_nil_r.
  - assert (Hc : (10 =? c)%N = false).
    { apply N.eqb_neq. intros E. apply Hx. now left. }
    assert (Hx' : ~ In 10%N x) by (intros I; apply Hx; now right).
    destruct (IH Hx' (c :: cur)) as [E1 E2].
    split.
    + cbn [split_go sep_one]. rewrite Hc, E1. simpl.
      now rewrite <- app_assoc.
    + intros rest. cbn [app split_go sep_one]. rewrite Hc, E2. simpl.
      now rewrite <- app_assoc.
Qed.

(** The lines of a text joined by line feeds are the pieces joined. *)
Lemma outputLines_join outs :
  outs <> [] -> Forall (fun o => ~ In 10%N o) outs ->
  outputLines (join [10%N] outs) = outs.
Proof.
  unfold outputLines, split.
  induction outs as [|x outs IH]; intros Hne Houts; [congruence|].
  inversion Houts as [|? ? Hx Houts']; subst.
  destruct outs as [|y outs].
  - simpl. now rewrite (proj1 (split_lineFeed_piece x Hx [])).
  - change (join [10%N] (x :: y :: outs))
      with (x ++ 10%N :: join [10%N] (y :: outs)).
    rewrite (proj2 (split_lineFeed_piece x Hx [])). simpl rev. simpl app at 1.
    f_equal. apply IH; [discriminate|assumption].
Qed.

(** ** The regular-expression matcher only captures input text *)

Section Captures.
Context {H : Host}.

Lemma set_nth_Forall {A} (P : A -> Prop) n v l :
  Forall P l -> P v -> Forall P (set_nth n v l).
Proof.
  intros Hl Hv. revert n. induction Hl as [|a l Ha Hl IH]; intros n.
  - destruct n; constructor.
  - destruct n; simpl; constructor; auto.
Qed.

Lemma set_capture_ok i v st :
  st_ok st -> (forall s, v = Some s -> ~ In 10%N s) ->
  st_ok (set_capture i v st).
Proof.
  intros [Hr Hc] Hv. split; [exact Hr|].
  simpl. now apply set_nth_Forall.
Qed.

Lemma clear_captures_ok gs st : st_ok st -> st_ok (clear_captures gs st).
Proof.
  unfold clear_captures. revert st.
  induction gs as [|g gs IH]; intros st Hst; simpl; [exact Hst|].
  apply IH. apply set_capture_ok; [exact Hst|discriminate].
Qed.

Lemma orElse_some {A} (a : option A) b y :
  orElse a b = Some y -> a = Some y \/ b tt = Some y.
Proof. destruct a; simpl; auto. Qed.

Lemma RepeatMatcher_ok fuel :
  forall m gs greedy min max x c y,
    (forall x c y, cont_ok c -> st_ok x -> m x c = Some y -> st_ok y) ->
    cont_ok c -> st_ok x ->
    RepeatMatcher fuel m gs greedy min max x c = Some y -> st_ok y.
Proof.
  induction fuel as [|fuel IH]; intros m gs greedy min max x c y Hm Hc Hx;
    [discriminate|].
  cbn [RepeatMatcher].
  set (d := fun y0 : mstate =>
              if Nat.eqb min 0 && Nat.eqb (endIndex y0) (endIndex x) then None
              else RepeatMatcher fuel m gs greedy (min - 1) (pred_max max) y0 c).
  assert (Hd : cont_ok d).
  { intros x0 y0 Hx0. unfold d.
    destruct (Nat.eqb min 0 && Nat.eqb (endIndex x0) (endIndex x));
      [discriminate|].
    now apply IH. }
  assert (Hxr : st_ok (clear_captures gs x)) by now apply clear_captures_ok.
  assert (Hgo : m (clear_captures gs x) d = Some y -> st_ok y)
    by now apply Hm.
  destruct max as [[|k]|].
  - now apply Hc.
  - destruct (negb (Nat.eqb min 0)); [exact Hgo|].
    destruct (negb greedy); intros E; apply orElse_some in E as [E|E]; eauto.
  - destruct (negb (Nat.eqb min 0)); [exact Hgo|].
    destruct (negb greedy); intros E; apply orElse_some in E as [E|E]; eauto.
Qed.

Lemma rmatch_ok r :
  forall x c y, cont_ok c -> st_ok x -> rmatch r x c = Some y -> st_ok y.
Proof.
  induction r as [|ch|p|r1 IH1 r2 IH2|r1 IH1 r2 IH2|g mn mx r1 IH1|i r1 IH1| |];
    intros x c y Hc Hx; cbn [rmatch].
  - now apply Hc.
  - destruct (rest x) as [|a tl] eqn:R; [discriminate|].
    destruct (canonicalize a =? canonicalize ch)%N; [|discriminate].
    apply Hc. destruct Hx as [Hr Hcap]. split; [|exact Hcap].
    simpl. rewrite R in Hr. intros I. apply Hr. now right.
  - destruct (rest x) as [|a tl] eqn:R; [discriminate|].
    destruct (p a); [|discriminate].
    apply Hc. destruct Hx as [Hr Hcap]. split; [|exact Hcap].
    simpl. rewrite R in Hr. intros I. apply Hr. now right.
  - apply IH1; [|exact Hx]. intros x0 y0 Hx0. now apply IH2.
  - intros E. apply orElse_some in E as [E|E]; eauto.
  - apply RepeatMatcher_ok; assumption.
  - apply IH1; [|exact Hx]. intros x0 y0 Hx0. apply Hc.
    apply set_capture_ok; [exact Hx0|].
    intros s [= <-] I. apply In_firstn in I. now apply (proj1 Hx).
  - destruct (Nat.eqb (endIndex x) 0); [now apply Hc|discriminate].
  - destruct (rest x); [now apply Hc|discriminate].
Qed.

Lemma exec_from_ok r n :
  forall s index i y,
    ~ In 10%N s -> exec_from r n index s = Some (i, y) -> st_ok y.
Proof.
  induction s as [|a s IH]; intros index i y Hs; cbn [exec_from].
  - destruct (rmatch r (MState index [] (repeat None n)) (fun y0 => Some y0))
      as [y0|] eqn:E; [|discriminate].
    intros [= _ <-]. eapply rmatch_ok; [| |exact E].
    + intros x0 y1 Hx0 [= <-]. exact Hx0.
    + split; [exact Hs|]. simpl. apply Forall_forall.
      intros c Hc s0 ->. apply repeat_spec in Hc. discriminate.
  - destruct (rmatch r (MState index (a :: s) (repeat None n))
                     (fun y0 => Some y0)) as [y0|] eqn:E.
    + intros [= _ <-]. eapply rmatch_ok; [| |exact E].
      * intros x0 y1 Hx0 [= <-]. exact Hx0.
      * split; [exact Hs|]. simpl. apply Forall_forall.
        intros c Hc s0 ->. apply repeat_spec in Hc. discriminate.
    + apply IH. intros I. apply Hs. now right.
Qed.

(** What [match_] captures from a text without line feed has no line
    feed. *)
Lemma match_captures r s m :
  ~ In 10%N s -> match_ r s = Some m ->
  Forall (fun c => forall s0, c = Some s0 -> ~ In 10%N s0) m.
Proof.
  intros Hs. unfold match_.
  destruct (exec_from r (length (groups r)) 0 s) as [[i y]|] eqn:E;
    [|discriminate].
  intros [= <-]. exact (proj2 (exec_from_ok _ _ _ _ _ _ Hs E)).
Qed.

End Captures.

(** ** Replacement keeps texts free of line feeds *)

Lemma GetSubstitution_no_lineFeed matched before after n :
  ~ In 10%N matched -> ~ In 10%N before -> ~ In 10%N after ->
  forall template,
    length template <= n -> ~ In 10%N template ->
    ~ In 10%N (GetSubstitution matched before after template).
Proof.
  intros Hm Hb Ha. induction n as [|n IH]; intros template Hlen Ht.
  - destruct template; [tauto|simpl in Hlen; lia].
  - destruct template as [|c r]; [tauto|]. simpl in Hlen.
    assert (Hc : c <> 10%N) by (intros ->; apply Ht; now left).
    assert (Hr : ~ In 10%N r) by (intros I; apply Ht; now right).
    assert (Hrec : ~ In 10%N (GetSubstitution matched before after r))
      by (apply IH; [lia|exact Hr]).
    cbn [GetSubstitution].
    destruct (c =? 36)%N; [|intros [E|I]; [congruence|tauto]].
    destruct r as [|d r']; [intros [E|[]]; congruence|].
    simpl in Hlen.
    assert (Hr' : ~ In 10%N r') by (intros I; apply Hr; now right).
    assert (Hrec' : ~ In 10%N (GetSubstitution matched before after r'))
      by (apply IH; [lia|exact Hr']).
    destruct (d =? 36)%N; [intros [E|I]; [discriminate|tauto]|].
    destruct (d =? 38)%N;
      [intros I; apply in_app_or in I as [I|I]; tauto|].
    destruct (d =? 96)%N;
      [intros I; apply in_app_or in I as [I|I]; tauto|].
    destruct (d =? 39)%N;
      [intros I; apply in_app_or in I as [I|I]; tauto|].
    intros [E|I]; [congruence|tauto].
Qed.

Lemma replaceAll_go_no_lineFeed pat repl :
  ~ In 10%N repl ->
  forall s skip before,
    ~ In 10%N s -> ~ In 10%N before ->
    ~ In 10%N (replaceAll_go pat repl skip before s).
Proof.
  intros Hrepl. induction s as [|c s IH]; intros skip before Hs Hb;
    [simpl; tauto|].
  assert (Hc : c <> 10%N) by (intros ->; apply Hs; now left).
  assert (Hs' : ~ In 10%N s) by (intros I; apply Hs; now right).
  assert (Hb' : ~ In 10%N (c :: before))
    by (intros [E|I]; [congruence|tauto]).
  cbn [replaceAll_go]. destruct skip as [|k]; [|now apply IH].
  destruct (startsWith (c :: s) pat && negb (is_empty pat)) eqn:E.
  - apply andb_true_iff in E as [E _].
    pose proof (startsWith_app _ _ E) as Eq.
    intros I. apply in_app_or in I as [I|I].
    + revert I.
      apply (GetSubstitution_no_lineFeed _ _ _ (length repl));
        [| | |lia|exact Hrepl].
      * intros I. apply Hs. rewrite Eq. apply in_or_app. now left.
      * intros I. apply Hb. now apply in_rev.
      * intros I. apply Hs. now apply In_skipn in I.
    + revert I. now apply IH.
  - intros [E'|I]; [congruence|]. revert I. now apply IH.
Qed.

Lemma replace_no_lineFeed s pat repl :
  ~ In 10%N s -> ~ In 10%N repl -> ~ In 10%N (replace s pat repl).
Proof.
  intros Hs Hrepl. unfold replace.
  destruct (find_first s pat) as [[b a]|] eqn:F; [|exact Hs].
  apply find_first_spec in F. rewrite F in Hs.
  assert (Hb : ~ In 10%N b) by (intros I; apply Hs, in_or_app; now left).
  assert (Hp : ~ In 10%N pat).
  { intros I. apply Hs, in_or_app. right. apply in_or_app. now left. }
  assert (Ha : ~ In 10%N a).
  { intros I. apply Hs, in_or_app. right. apply in_or_app. now right. }
  intros I. apply in_app_or in I as [I|I]; [tauto|].
  apply in_app_or in I as [I|I]; [|tauto].
  revert I. now apply (GetSubstitution_no_lineFeed _ _ _ (length repl)).
Qed.

(** ** The built-in data has no line feed *)

Lemma existsb_lineFeed_false s : existsb (N.eqb 10) s = false -> ~ In 10%N s.
Proof.
  intros E I.
  assert (existsb (N.eqb 10) s = true); [|congruence].
  apply existsb_exists. exists 10%N. split; [exact I|apply N.eqb_refl].
Qed.

Lemma translations_values_no_lineFeed d k v :
  In d (map snd translations) -> In (k, v) d -> ~ In 10%N v.
Proof.
  intros Hd Hk.
  assert (G : forallb (fun d =>
                forallb (fun kv => negb (existsb (N.eqb 10) (snd kv))) d)
              (map snd translations) = true)
    by (vm_compute; reflexivity).
  rewrite forallb_forall in G. specialize (G _ Hd).
  rewrite forallb_forall in G. specialize (G _ Hk). simpl in G.
  apply negb_true_iff in G. now apply existsb_lineFeed_false.
Qed.

Lemma patternRules_templates_no_lineFeed key rules r :
  own_get patternRules key = Some rules -> In r rules ->
  ~ In 10%N (template r).
Proof.
  intros G Hr. apply own_get_In in G.
  assert (C : forallb (fun kv =>
                forallb (fun r => negb (existsb (N.eqb 10) (template r)))
                        (snd kv))
              patternRules = true)
    by (vm_compute; reflexivity).
  rewrite forallb_forall in C. specialize (C _ G). simpl in C.
  rewrite forallb_forall in C. specialize (C _ Hr).
  apply negb_true_iff in C. now apply existsb_lineFeed_false.
Qed.

(** ** Sentences, phrases and words keep a line free of line feeds *)

Section Chain.
Context {H : Host}.

(** The host facts used: the source text of a built-in function has
    no line feed, and lower-casing does not produce one. *)
Hypothesis native_single_line :
  forall name, isPrototypeName name = true -> ~ In 10%N (nativeToString name).
Hypothesis lower_no_lineFeed :
  forall s, In 10%N (toLowerCase s) -> In 10%N s.

Variable d : TranslationPair.
Hypothesis d_values : forall k v, In (k, v) d -> ~ In 10%N v.

Lemma lookup_no_lineFeed k v :
  lookup d k = Some v -> ~ In 10%N (ToString v).
Proof.
  unfold lookup, obj_get.
  destruct (own_get d k) as [s|] eqn:G.
  - destruct (truthy (Own s)); [|discriminate]. intros [= <-]. simpl.
    apply own_get_In in G. exact (d_values _ _ G).
  - destruct (isPrototypeName k) eqn:P; [|discriminate].
    simpl. intros [= <-]. simpl.
    destruct (str_eqb k (lit "__proto__")).
    + apply existsb_lineFeed_false. vm_compute. reflexivity.
    + now apply native_single_line.
Qed.

Lemma translateWord_no_lineFeed text :
  ~ In 10%N text -> ~ In 10%N (ToString (translateWord text d)).
Proof.
  intros Ht. unfold translateWord.
  destruct (lookup d (trim (toLowerCase text))) eqn:L1;
    [exact (lookup_no_lineFeed _ _ L1)|].
  destruct (lookup d (trim text)) eqn:L2;
    [exact (lookup_no_lineFeed _ _ L2)|].
  destruct (lookup d (stripNonLetterNumber (trim (toLowerCase text)))) eqn:L3;
    [exact (lookup_no_lineFeed _ _ L3)|].
  exact Ht.
Qed.

Lemma words_no_lineFeed text word :
  ~ In 10%N text -> In word (split_ws (trim text)) -> ~ In 10%N word.
Proof.
  intros Ht Hw I. apply Ht. apply In_trim.
  exact (In_split _ _ _ _ Hw I).
Qed.

Lemma space_no_lineFeed : ~ In 10%N (lit " ").
Proof. apply existsb_lineFeed_false. reflexivity. Qed.

Lemma join_no_lineFeed sep l :
  ~ In 10%N sep -> (forall p, In p l -> ~ In 10%N p) ->
  ~ In 10%N (join sep l).
Proof.
  intros Hsep Hl I. apply In_join in I as [I|(p & Hp & I)]; [tauto|].
  exact (Hl p Hp I).
Qed.

Lemma translateWordByWord_no_lineFeed text :
  ~ In 10%N text -> ~ In 10%N (translateWordByWord text d).
Proof.
  intros Ht. unfold translateWordByWord.
  apply join_no_lineFeed; [apply space_no_lineFeed|].
  intros p Hp. rewrite map_map in Hp.
  apply in_map_iff in Hp as (w & <- & Hw).
  apply translateWord_no_lineFeed. exact (words_no_lineFeed _ _ Ht Hw).
Qed.

Lemma translatePhrase_no_lineFeed text :
  ~ In 10%N text -> ~ In 10%N (ToString (translatePhrase text d)).
Proof.
  intros Ht. unfold translatePhrase.
  destruct (lookup d (trim (toLowerCase text))) eqn:L1;
    [exact (lookup_no_lineFeed _ _ L1)|].
  match goal with
  | |- context [find ?p d] => destruct (find p d) as [[k v]|] eqn:F
  end.
  - apply find_some in F as [F _]. simpl. exact (d_values _ _ F).
  - simpl. now apply translateWordByWord_no_lineFeed.
Qed.

Lemma phraseChunks_no_lineFeed n :
  forall words,
    length words <= n -> (forall w, In w words -> ~ In 10%N w) ->
    forall chunk, In chunk (phraseChunks words) -> ~ In 10%N chunk.
Proof.
  induction n as [|n IH]; intros words Hlen Hw chunk.
  - destruct words; [simpl; tauto|simpl in Hlen; lia].
  - destruct words as [|a [|b [|c r]]]; cbn [phraseChunks].
    + simpl. tauto.
    + intros [<-|[]]. apply join_no_lineFeed; [apply space_no_lineFeed|exact Hw].
    + intros [<-|[]]. apply join_no_lineFeed; [apply space_no_lineFeed|exact Hw].
    + intros [<-|Hc].
      * apply join_no_lineFeed; [apply space_no_lineFeed|].
        intros p Hp. apply Hw. simpl in *. tauto.
      * apply (IH r); [simpl in Hlen; lia| |exact Hc].
        intros w Hin. apply Hw. simpl. tauto.
Qed.

Lemma chunks_no_lineFeed text chunk :
  ~ In 10%N text -> In chunk (splitIntoMeaningfulChunks text) ->
  ~ In 10%N chunk.
Proof.
  intros Ht. unfold splitIntoMeaningfulChunks.
  match goal with
  | |- context [Nat.eqb (length ?l) 1] => destruct (Nat.eqb (length l) 1)
  end.
  - apply (phraseChunks_no_lineFeed (length (split_ws (trim text)))
                                     (split_ws (trim text)));
      [apply Nat.le_refl|].
    intros w Hw. exact (words_no_lineFeed _ _ Ht Hw).
  - intros Hc I. apply filter_In in Hc as [Hc _].
    apply in_map_iff in Hc as (p & <- & Hp).
    apply In_trim in I. apply Ht. exact (In_split _ _ _ _ Hp I).
Qed.

Lemma substituteGroups_no_lineFeed m :
  Forall (fun c => forall s0, c = Some s0 -> ~ In 10%N s0) m ->
  forall i out, ~ In 10%N out -> ~ In 10%N (substituteGroups i m out).
Proof.
  induction 1 as [|g m Hg Hm IH]; intros i out Hout; [exact Hout|].
  cbn [substituteGroups]. apply IH.
  apply replaceAll_go_no_lineFeed; [|exact Hout|tauto].
  intros I. apply In_trim in I. destruct g as [s0|]; [|exact I].
  exact (Hg s0 eq_refl I).
Qed.

Lemma applyRules_no_lineFeed rules original p :
  (forall r, In r rules -> ~ In 10%N (template r)) ->
  ~ In 10%N original ->
  applyRules rules original = Some p -> ~ In 10%N p.
Proof.
  intros Hr Ho. induction rules as [|r rules IH]; [discriminate|].
  cbn [applyRules].
  destruct (match_ (pattern r) original) as [m|] eqn:M.
  - intros [= <-]. apply substituteGroups_no_lineFeed.
    + exact (match_captures _ _ _ Ho M).
    + apply Hr. now left.
  - apply IH. intros r0 Hr0. apply Hr. now right.
Qed.

Lemma applyPatternRules_no_lineFeed text sourceLang targetLang p :
  ~ In 10%N text ->
  applyPatternRules text sourceLang targetLang = Some p -> ~ In 10%N p.
Proof.
  intros Ht. unfold applyPatternRules.
  destruct (own_get patternRules (pairKey sourceLang targetLang))
    as [rules|] eqn:G; [|discriminate].
  apply applyRules_no_lineFeed.
  - intros r Hr. exact (patternRules_templates_no_lineFeed _ _ _ G Hr).
  - intros I. apply Ht. now apply In_trim.
Qed.

Lemma translateSentence_no_lineFeed text sourceLang targetLang :
  ~ In 10%N text ->
  ~ In 10%N (translateSentence text d sourceLang targetLang).
Proof.
  intros Ht. unfold translateSentence.
  destruct (applyPatternRules text sourceLang targetLang) as [p|] eqn:P.
  - destruct (is_empty p).
    + clear P. revert p.
      assert (G : ~ In 10%N
                     (match
                         find (fun entry =>
                                 Nat.ltb 10 (length (fst entry))
                                 && includes (trim (toLowerCase text))
                                             (toLowerCase (fst entry))) d
                       with
                       | Some (phrase, translation) =>
                         replace (trim (toLowerCase text))
                                 (toLowerCase phrase) translation
                       | None =>
                         join (lit " ")
                              (map ToString
                                   (map (fun chunk => translatePhrase chunk d)
                                        (splitIntoMeaningfulChunks text)))
                       end)); [|intros _; exact G].
      match goal with
      | |- context [find ?q d] => destruct (find q d) as [[k v]|] eqn:F
      end.
      * apply find_some in F as [F _].
        apply replace_no_lineFeed; [|exact (d_values _ _ F)].
        intros I. apply In_trim, lower_no_lineFeed in I. tauto.
      * apply join_no_lineFeed; [apply space_no_lineFeed|].
        intros q Hq. rewrite map_map in Hq.
        apply in_map_iff in Hq as (c & <- & Hc).
        apply translatePhrase_no_lineFeed.
        exact (chunks_no_lineFeed _ _ Ht Hc).
    + exact (applyPatternRules_no_lineFeed _ _ _ _ Ht P).
  - match goal with
    | |- context [find ?q d] => destruct (find q d) as [[k v]|] eqn:F
    end.
    + apply find_some in F as [F _].
      apply replace_no_lineFeed; [|exact (d_values _ _ F)].
      intros I. apply In_trim, lower_no_lineFeed in I. tauto.
    + apply join_no_lineFeed; [apply space_no_lineFeed|].
      intros q Hq. rewrite map_map in Hq.
      apply in_map_iff in Hq as (c & <- & Hc).
      apply translatePhrase_no_lineFeed.
      exact (chunks_no_lineFeed _ _ Ht Hc).
Qed.

Lemma translateLine_no_lineFeed line sourceLang targetLang :
  ~ In 10%N line ->
  ~ In 10%N (translateLine line d sourceLang targetLang).
Proof.
  intros Hl. unfold translateLine.
  destruct (is_empty (trim line)); [simpl; tauto|].
  apply join_no_lineFeed; [apply space_no_lineFeed|].
  intros p Hp. apply in_map_iff in Hp as (sentence & <- & Hs).
  apply translateSentence_no_lineFeed.
  apply filter_In in Hs as [Hs _]. unfold splitIntoSentences in Hs.
  apply filter_In in Hs as [Hs _].
  intros I. apply Hl. exact (In_split _ _ _ _ Hs I).
Qed.

(** The paragraph branch: as many line feeds out as in, and the i-th
    output line is the translation of the i-th input line, empty when
    that line is blank. *)
Lemma translateParagraph_lines text sourceLang targetLang :
  let out := translateParagraph text d sourceLang targetLang in
  lineFeeds out = lineFeeds text
  /\ outputLines out
     = map (fun line => translateLine line d sourceLang targetLang)
           (inputLines text)
  /\ forall i line,
       nth_error (inputLines text) i = Some line ->
       is_empty (trim line) = true ->
       nth_error (outputLines out) i = Some [].
Proof.
  intros out. subst out. unfold translateParagraph.
  rewrite lit_newline. fold (inputLines text).
  set (outs := map (fun line => translateLine line d sourceLang targetLang)
                   (inputLines text)).
  assert (Hno : Forall (fun o => ~ In 10%N o) outs).
  { apply Forall_forall. intros o Ho.
    apply in_map_iff in Ho as (line & <- & Hl).
    apply translateLine_no_lineFeed.
    exact (inputLines_no_lineFeed _ _ Hl). }
  assert (Hlen : length outs = S (lineFeeds text)).
  { unfold outs. now rewrite length_map, inputLines_length. }
  assert (Hlines : outputLines (join [10%N] outs) = outs).
  { apply outputLines_join; [|exact Hno].
    intros E. rewrite E in Hlen. discriminate. }
  split; [|split].
  - rewrite lineFeeds_join by exact Hno.
    clearbody outs. unfold jsstring in *. lia.
  - exact Hlines.
  - intros i line Hi Hblank. rewrite Hlines. unfold outs.
    rewrite nth_error_map, Hi. simpl. unfold translateLine.
    now rewrite Hblank.
Qed.

End Chain.

(** In the cases of [singleStep], [translate] is one call of
    [translateComplexText] on a lexicon of the table. *)
Lemma singleStep_translate {H : Host} text sourceLang targetLang d target :
  Resolution.singleStep sourceLang targetLang = Some (d, target) ->
  translate text sourceLang targetLang
  = translateComplexText text d sourceLang target
  /\ exists key, own_get translations key = Some d.
Proof.
  unfold Resolution.singleStep, translate.
  destruct (own_get translations (pairKey sourceLang targetLang))
    as [d0|] eqn:D.
  { intros [= <- <-]. split; [reflexivity|eauto]. }
  destruct (own_get translations (pairKey sourceLang (lit "en")))
    as [toEnglish|] eqn:E; [|discriminate].
  destruct (str_eqb targetLang (lit "en")).
  { intros [= <- <-]. split; [reflexivity|eauto]. }
  destruct (own_get translations (pairKey (lit "en") targetLang));
    [discriminate|].
  intros [= <- <-]. split; [reflexivity|eauto].
Qed.

(** C4 (as amended).  Paragraph line preservation holds when
    [translate] reaches the paragraph branch in one step: the lexicon
    it works with is that of the pair, or, for a pair without lexicon,
    that from the source language to English (the target being English,
    or English having no lexicon to the target); the text is not
    matched as a whole (neither lower-cased nor as written) and has
    more than one sentence terminator.  Then the output has exactly as
    many line feeds as the input, and every blank input line gives an
    empty output line.  The host is one whose built-in functions print
    on one line and whose lower-casing creates no line feed. *)
Theorem paragraph_line_preservation {H : Host}
        (text sourceLang targetLang : jsstring) (d : TranslationPair)
        (target : jsstring) :
  (forall name, isPrototypeName name = true ->
                ~ In 10%N (nativeToString name)) ->
  (forall s, In 10%N (toLowerCase s) -> In 10%N s) ->
  Resolution.singleStep sourceLang targetLang = Some (d, target) ->
  lookup d (trim (toLowerCase text)) = None ->
  lookup d (trim text) = None ->
  isParagraph text = true ->
  exists out,
    translate (Own text) sourceLang targetLang = Returned (Own out)
    /\ lineFeeds out = lineFeeds text
    /\ forall i line,
         nth_error (inputLines text) i = Some line ->
         is_empty (trim line) = true ->
         nth_error (outputLines out) i = Some [].
Proof.
  intros Hnative Hlower D L1 L2 P.
  destruct (singleStep_translate (Own text) _ _ _ _ D) as [T [key K]].
  exists (translateParagraph text d sourceLang target).
  assert (Hd : forall k v, In (k, v) d -> ~ In 10%N v).
  { intros k v. apply translations_values_no_lineFeed.
    apply own_get_In in K. apply in_map_iff.
    now exists (key, d). }
  destruct (translateParagraph_lines Hnative Hlower d Hd
                                     text sourceLang target)
    as (E1 & _ & E3).
  split; [|split; assumption].
  rewrite T. unfold translateComplexText.
  now rewrite L1, L2, P.
Qed.

(** ** Examples, on the concrete host *)

Import BasicHost Examples.

Lemma basicHost_native_single_line name :
  isPrototypeName name = true -> ~ In 10%N (nativeToString name).
Proof.
  unfold isPrototypeName. intros E.
  apply existsb_exists in E as (n & Hn & E).
  apply str_eqb_eq in E as ->.
  assert (G : forallb (fun n => negb (existsb (N.eqb 10) (nativeSource n)))
                      objectPrototypeNames = true)
    by (vm_compute; reflexivity).
  rewrite forallb_forall in G. specialize (G _ Hn).
  apply negb_true_iff in G. now apply existsb_lineFeed_false.
Qed.

Lemma lowerUnit_lineFeed c : lowerUnit c = 10%N -> c = 10%N.
Proof.
  unfold lowerUnit.
  destruct ((65 <=? c) && (c <=? 90))%N eqn:E1.
  { apply andb_true_iff in E1 as [A B]. apply N.leb_le in A. lia. }
  destruct ((192 <=? c) && (c <=? 222) && negb (c =? 215))%N eqn:E2.
  { apply andb_true_iff in E2 as [A _]. apply andb_true_iff in A as [A _].
    apply N.leb_le in A. lia. }
  destruct ((1040 <=? c) && (c <=? 1071))%N eqn:E3.
  { apply andb_true_iff in E3 as [A _]. apply N.leb_le in A. lia. }
  destruct ((1024 <=? c) && (c <=? 1039))%N eqn:E4.
  { apply andb_true_iff in E4 as [A _]. apply N.leb_le in A. lia. }
  tauto.
Qed.

Lemma basicHost_lower_no_lineFeed s :
  In 10%N (toLowerCase s) -> In 10%N s.
Proof.
  simpl. intros I. apply in_map_iff in I as (c & E & I).
  apply lowerUnit_lineFeed in E. now subst.
Qed.

Lemma paragraph_line_preservation_witness :
  exists out,
    translate (Own threeLines) (lit "en") (lit "hi") = Returned (Own out)
    /\ lineFeeds out = lineFeeds threeLines
    /\ forall i line,
         nth_error (inputLines threeLines) i = Some line ->
         is_empty (trim line) = true ->
         nth_error (outputLines out) i = Some [].
Proof.
  refine (let d := _ in
          paragraph_line_preservation (H := basicHost)
            threeLines (lit "en") (lit "hi") d (lit "hi")
            basicHost_native_single_line basicHost_lower_no_lineFeed
            _ _ _ _).
  - vm_compute. reflexivity.
  - vm_compute. reflexivity.
  - vm_compute. reflexivity.
  - vm_compute. reflexivity.
Defined.

Example translate_threeLines :
  translate (Own threeLines) (lit "en") (lit "hi")
  = Returned (Own (lit "नमस्ते धन्यवाद" ++ [10%N] ++ [10%N]
                       ++ lit "शुभ प्रभात हाँ")).
Proof. vm_compute. reflexivity. Qed.

(** The claim as first stated fails outside the paragraph branch: a
    text that matches a lexicon key once trimmed is answered by the
    mapped value, and its line feed is gone. *)
Lemma exact_match_drops_line_feed :
  translate (Own (lit "hello" ++ [10%N])) (lit "en") (lit "hi")
  = Returned (Own (lit "नमस्ते"))
  /\ lineFeeds (lit "hello" ++ [10%N]) = 1
  /\ lineFeeds (lit "नमस्ते") = 0.
Proof. repeat split; vm_compute; reflexivity. Qed.

(** The pair fr-xx has no lexicon and English has none to xx: the
    text is translated to English, in the paragraph branch, and keeps
    its line feed. *)
Example english_only_keeps_line_feed :
  option_map snd (Resolution.singleStep (lit "fr") (lit "xx"))
  = Some (lit "en")
  /\ isLanguagePairSupported (lit "fr") (lit "xx") = false
  /\ translate (Own (lit "bonjour." ++ [10%N] ++ lit "merci."))
               (lit "fr") (lit "xx")
     = Returned (Own (lit "hello" ++ [10%N] ++ lit "thank you")).
Proof. repeat split; vm_compute; reflexivity. Qed.

(** In the two-step pivot the second step need not be in the paragraph
    branch: from French to German the English text "hello", line feed,
    "thank you" has no sentence terminator, is taken as a phrase, and
    the line feed is gone. *)
Example pivot_drops_line_feed :
  Resolution.singleStep (lit "fr") (lit "de") = None
  /\ translate (Own (lit "bonjour." ++ [10%N] ++ lit "merci."))
               (lit "fr") (lit "de")
     = Returned (Own (lit "hallo")).
Proof. split; vm_compute; reflexivity. Qed.

(** A text outside the paragraph branch may lose its line feed: two
    words on two lines are a phrase, answered by the first partial
    match. *)
Example phrase_drops_line_feed :
  isParagraph (lit "hello" ++ [10%N] ++ lit "water") = false
  /\ translate (Own (lit "hello" ++ [10%N] ++ lit "water"))
               (lit "en") (lit "hi")
     = Returned (Own (lit "नमस्ते")).
Proof. split; vm_compute; reflexivity. Qed.

(** It may also keep it: this text is a sentence, whose first line is
    a lexicon key. *)
Example sentence_keeps_line_feed :
  isParagraph (lit "how are you" ++ [10%N] ++ lit "my good friend") = false
  /\ isSentence (lit "how are you" ++ [10%N] ++ lit "my good friend") = true
  /\ translate (Own (lit "how are you" ++ [10%N] ++ lit "my good friend"))
               (lit "en") (lit "hi")
     = Returned (Own (lit "आप कैसे हैं" ++ [10%N] ++ lit "my good friend")).
Proof. repeat split; vm_compute; reflexivity. Qed.

End LineFacts.

(* ================================================================== *)
(** * Properties of the offline translation service *)
(* ================================================================== *)

Module NumberFacts.
Import Numbers.

Section Sums.
Context {NUM : Number}.
Variables (A : Type) (size : A -> num) (keep : A -> bool).

Let sum (l : list A) (a : num) : num :=
  fold_left (fun s x => add s (size x)) l a.

Lemma sum_nonneg (l : list A) (a : num) :
  le zero a -> Forall (fun x => le zero (size x)) l -> le zero (sum l a).
Proof.
  revert a. induction l as [|x l IH]; intros a Ha Hl; simpl; [assumption|].
  inversion Hl as [|? ? Hx Hl']; subst.
  apply IH; [|assumption].
  eapply le_trans; [exact Ha|]. now apply le_add_r.
Qed.

(** The sum over a selection is at most the sum over the whole list. *)
Lemma sum_filter_le (l : list A) (a b : num) :
  le a b -> Forall (fun x => le zero (size x)) l ->
  le (sum (filter keep l) a) (sum l b).
Proof.
  revert a b. induction l as [|x l IH]; intros a b Hab Hl; simpl;
    [assumption|].
  inversion Hl as [|? ? Hx Hl']; subst.
  destruct (keep x); simpl.
  - apply IH; [|assumption]. now apply add_le_mono_l.
  - apply IH; [|assumption].
    eapply le_trans; [exact Hab|]. now apply le_add_r.
Qed.

Lemma filter_length_le (l : list A) : length (filter keep l) <= length l.
Proof.
  induction l as [|x l IH]; simpl; [lia|]. destruct (keep x); simpl; lia.
Qed.

End Sums.

End NumberFacts.

Module OfflineFacts.
Import JS Numbers Offline JSFacts NumberFacts.

Section WithHost.
Context {H : Host} {NUM : Number}.

Lemma sizes_ok_obj_set ps k p :
  sizes_ok ps -> le zero (size p) -> sizes_ok (obj_set ps k p).
Proof.
  unfold sizes_ok. intros Hps Hp.
  induction ps as [|[k' p'] ps IH]; simpl.
  - now repeat constructor.
  - inversion Hps; subst. destruct (str_eqb k' k); constructor; auto.
Qed.

Lemma sizes_ok_get ps k p :
  sizes_ok ps -> own_get ps k = Some p -> le zero (size p).
Proof.
  unfold sizes_ok. intros Hps G. apply own_get_In in G.
  rewrite Forall_forall in Hps. exact (Hps _ G).
Qed.

Lemma sizes_ok_fold_set (l : list LanguagePack) m :
  sizes_ok m -> Forall (fun p => le zero (size p)) l ->
  sizes_ok (fold_left (fun m pack => obj_set m (code pack) pack) l m).
Proof.
  revert m. induction l as [|p l IH]; intros m Hm Hl; simpl; [assumption|].
  inversion Hl; subst. apply IH; [|assumption].
  now apply sizes_ok_obj_set.
Qed.

Lemma sizes_ok_initial now : sizes_ok (initializeLanguagePacks now).
Proof.
  apply sizes_ok_fold_set; [constructor|].
  unfold initialPacks.
  repeat constructor; cbn [size]; apply ofHundredths_nonneg; lia.
Qed.

Lemma setDownloaded_sizes st k b :
  sizes_ok (languagePacks st) -> sizes_ok (languagePacks (setDownloaded st k b)).
Proof.
  intros I. unfold setDownloaded.
  destruct (own_get (languagePacks st) k) eqn:G; [|assumption]. simpl.
  apply sizes_ok_obj_set; [assumption|]. simpl. eapply sizes_ok_get; eauto.
Qed.

Lemma clearDictionary_sizes st k :
  sizes_ok (languagePacks st) -> sizes_ok (languagePacks (clearDictionary st k)).
Proof.
  intros I. unfold clearDictionary.
  destruct (own_get (languagePacks st) k) eqn:G; [|assumption]. simpl.
  apply sizes_ok_obj_set; [assumption|]. simpl. eapply sizes_ok_get; eauto.
Qed.

Lemma loadLanguageDictionary_sizes st k :
  sizes_ok (languagePacks st) ->
  sizes_ok (languagePacks (loadLanguageDictionary st k)).
Proof.
  intros I. unfold loadLanguageDictionary.
  destruct (own_get (languagePacks st) k) eqn:G; [|assumption].
  destruct (own_get dictionaries k); [|assumption]. simpl.
  apply sizes_ok_obj_set; [assumption|]. simpl. eapply sizes_ok_get; eauto.
Qed.

Lemma download_sizes st k r :
  sizes_ok (languagePacks st) ->
  downloadLanguagePack st k = Returned r ->
  sizes_ok (languagePacks (snd r)).
Proof.
  intros I. unfold downloadLanguagePack.
  destruct (own_get (languagePacks st) k); [|discriminate].
  intros [= <-]. simpl.
  apply setDownloaded_sizes, loadLanguageDictionary_sizes, I.
Qed.

Lemma translateOffline_packs st text sourceLang targetLang now r st' :
  translateOffline st text sourceLang targetLang now = Returned (r, st') ->
  languagePacks st' = languagePacks st.
Proof.
  unfold translateOffline.
  destruct (negb (isLanguagePackDownloaded st sourceLang)); [discriminate|].
  destruct (obj_get (translationCache st)
                    (cacheKey text sourceLang targetLang)) as [[c|n]|].
  - destruct (isRecent now c).
    + now intros [= _ <-].
    + destruct (own_get (languagePacks st) sourceLang); [|discriminate].
      now intros [= _ <-].
  - discriminate.
  - destruct (own_get (languagePacks st) sourceLang); [|discriminate].
    now intros [= _ <-].
Qed.

Lemma removeLanguagePack_sizes st k :
  sizes_ok (languagePacks st) ->
  sizes_ok (languagePacks (snd (removeLanguagePack st k))).
Proof.
  intros I. unfold removeLanguagePack.
  destruct (own_get (languagePacks st) k); [|assumption]. simpl.
  apply clearDictionary_sizes, setDownloaded_sizes, I.
Qed.

Lemma clearOfflineData_sizes st :
  sizes_ok (languagePacks st) -> sizes_ok (languagePacks (clearOfflineData st)).
Proof.
  unfold sizes_ok, clearOfflineData. simpl. intros I.
  induction I; simpl; constructor; auto.
Qed.

Lemma construct_sizes now cached status :
  sizes_ok (languagePacks (construct now cached status)).
Proof.
  unfold construct, loadCachedTranslations.
  match goal with
  | |- sizes_ok (languagePacks (fold_left ?f status ?s0)) =>
    assert (I0 : sizes_ok (languagePacks s0))
      by (destruct cached; simpl; apply sizes_ok_initial);
    generalize dependent s0
  end.
  induction status as [|[k b] status IH]; intros s0 I0; simpl;
    [assumption|].
  apply IH.
  destruct (own_get (languagePacks s0) k); [|assumption].
  destruct b; [|assumption].
  apply loadLanguageDictionary_sizes, setDownloaded_sizes, I0.
Qed.

Lemma reachable_sizes st : reachable st -> sizes_ok (languagePacks st).
Proof.
  induction 1 as [now cached status|st st' R IH S].
  - apply construct_sizes.
  - destruct S as [st k b progress st' E|st text sl tl now r st' E
                   |st k b st' E|st].
    + eapply download_sizes in E; [exact E|exact IH].
    + apply translateOffline_packs in E. now rewrite E.
    + pose proof (@removeLanguagePack_sizes st k IH) as G.
      now rewrite E in G.
    + now apply clearOfflineData_sizes.
Qed.

Lemma getStorageInfo_ok st :
  sizes_ok (languagePacks st) -> summary_ok (getStorageInfo st).
Proof.
  intros I.
  assert (J : Forall (fun p => le zero (size p)) (map snd (languagePacks st))).
  { unfold sizes_ok in I. rewrite Forall_forall in *.
    intros p Hp. apply in_map_iff in Hp as (kp & <- & Hk). now apply I. }
  assert (J' : Forall (fun p => le zero (size p))
                      (filter isDownloaded (map snd (languagePacks st)))).
  { rewrite Forall_forall in *. intros p Hp.
    apply filter_In in Hp as [Hp _]. now apply J. }
  unfold summary_ok, getStorageInfo, sumSizes; simpl.
  repeat split.
  - apply sum_filter_le; [apply le_refl|assumption].
  - apply filter_length_le.
  - apply sum_nonneg; [apply le_refl|assumption].
  - apply sum_nonneg; [apply le_refl|assumption].
  - lia.
  - lia.
Qed.

(** ** The cache *)

Lemma cacheKey_has_hyphen text sourceLang targetLang :
  In 45%N (cacheKey text sourceLang targetLang).
Proof. unfold cacheKey. apply in_or_app. right. now left. Qed.

(** A cache key is never an inherited name: the cache read finds own
    entries only. *)
Lemma cache_read_is_own (cache : jsobject CacheEntry) text sourceLang targetLang :
  obj_get cache (cacheKey text sourceLang targetLang) =
  match own_get cache (cacheKey text sourceLang targetLang) with
  | Some e => Some (Own e)
  | None => None
  end.
Proof. apply obj_get_hyphen, cacheKey_has_hyphen. Qed.

Lemma isRecent_spec now e t :
  timestamp e = Some t -> (isRecent now e = true <-> (now - t < 86400000)%Z).
Proof.
  intros E. unfold isRecent, TTL. rewrite E.
  change (24 * 60 * 60 * 1000)%Z with 86400000%Z. apply Z.ltb_lt.
Qed.

(** The cache of this service honours the 24-hour limit: a recent
    entry is returned and nothing changes; an older entry (or one whose
    date is invalid) is not used, the translation is computed again and
    the entry is overwritten with the new time. *)
Lemma cache_ttl st text sourceLang targetLang now entry :
  isLanguagePackDownloaded st sourceLang = true ->
  own_get (translationCache st) (cacheKey text sourceLang targetLang)
  = Some entry ->
  (isRecent now entry = true ->
   translateOffline st text sourceLang targetLang now
   = Returned (translation entry, st))
  /\
  (isRecent now entry = false ->
   exists pack st',
     own_get (languagePacks st) sourceLang = Some pack /\
     translateOffline st text sourceLang targetLang now
     = Returned (computeTranslation text (dictionary pack), st') /\
     exists e',
       own_get (translationCache st') (cacheKey text sourceLang targetLang)
       = Some e' /\
       translation e' = computeTranslation text (dictionary pack) /\
       timestamp e' = Some now).
Proof.
  intros D C. unfold translateOffline. rewrite D. simpl.
  rewrite cache_read_is_own, C. split; intros R; rewrite R.
  - reflexivity.
  - unfold isLanguagePackDownloaded in D.
    destruct (own_get (languagePacks st) sourceLang) as [pack|]; [|discriminate].
    eexists pack, _. split; [reflexivity|]. split; [reflexivity|].
    simpl. rewrite own_get_obj_set_same. eexists. split; [reflexivity|].
    split; reflexivity.
Qed.

(** ** Download, then translate *)

Lemma last_progressValues n : n <> 0 -> last (progressValues n) zero = ofHundredths 10000.
Proof.
  intros Hn. unfold progressValues.
  rewrite seq_S, map_app. simpl. rewrite last_last.
  now apply percent_full.
Qed.

Lemma download_marks_downloaded st langCode pack :
  own_get (languagePacks st) langCode = Some pack ->
  exists st',
    downloadLanguagePack st langCode
    = Returned (true, progressValues 100, st') /\
    isLanguagePackDownloaded st' langCode = true.
Proof.
  intros G. unfold downloadLanguagePack. rewrite G.
  eexists. split; [reflexivity|].
  unfold isLanguagePackDownloaded, saveLanguagePackStatus. simpl.
  assert (E : exists p, own_get (languagePacks (loadLanguageDictionary st langCode))
                                langCode = Some p).
  { unfold loadLanguageDictionary. rewrite G.
    destruct (own_get dictionaries langCode); simpl.
    - rewrite own_get_obj_set_same. eauto.
    - eauto. }
  destruct E as [p E]. unfold setDownloaded. rewrite E. simpl.
  now rewrite own_get_obj_set_same.
Qed.

Lemma translateOffline_returns_when_downloaded st text sourceLang targetLang now :
  isLanguagePackDownloaded st sourceLang = true ->
  exists r st',
    translateOffline st text sourceLang targetLang now = Returned (r, st').
Proof.
  intros D. unfold translateOffline. rewrite D. simpl.
  rewrite cache_read_is_own.
  unfold isLanguagePackDownloaded in D.
  destruct (own_get (languagePacks st) sourceLang) as [pack|]; [|discriminate].
  destruct (own_get (translationCache st) _) as [e|].
  - destruct (isRecent now e); eauto.
  - eauto.
Qed.

(** In this service [translateOffline] for a source language whose
    pack is not downloaded throws "Language pack not downloaded:
    <lang>"; and once [downloadLanguagePack] for a language that has a
    pack has run (it returns [true], the last progress value reported
    being 100), the same call returns a translation and does not
    throw. *)
Lemma translateOffline_requires_downloaded_pack
        st text langCode targetLang now :
  (isLanguagePackDownloaded st langCode = false ->
   translateOffline st text langCode targetLang now
   = Thrown (lit "Language pack not downloaded: " ++ langCode))
  /\
  (forall pack, own_get (languagePacks st) langCode = Some pack ->
   exists progress st',
     downloadLanguagePack st langCode = Returned (true, progress, st') /\
     last progress zero = ofHundredths 10000 /\
     forall now', exists r st'',
       translateOffline st' text langCode targetLang now'
       = Returned (r, st'')).
Proof.
  split.
  - intros D. unfold translateOffline. now rewrite D.
  - intros pack G.
    destruct (download_marks_downloaded _ _ _ G) as (st' & E & D).
    exists (progressValues 100), st'. split; [exact E|].
    split; [apply last_progressValues; discriminate|].
    intros now'. now apply translateOffline_returns_when_downloaded.
Qed.

(** ** Removing a pack *)

(** In this service a cache key starts with the source language, and
    [removeLanguagePack] deletes the entries whose key starts with the
    code of the pack and a hyphen: the pack is marked not downloaded,
    its dictionary emptied; any other pack is untouched. *)
Lemma removeLanguagePack_effect st langCode pack :
  own_get (languagePacks st) langCode = Some pack ->
  exists st',
    removeLanguagePack st langCode = (true, st') /\
    (exists p', own_get (languagePacks st') langCode = Some p' /\
                isDownloaded p' = false /\ dictionary p' = []) /\
    (forall other, other <> langCode ->
       own_get (languagePacks st') other = own_get (languagePacks st) other) /\
    (forall key,
       own_get (translationCache st') key =
       if startsWith key (langCode ++ lit "-") then None
       else own_get (translationCache st) key).
Proof.
  intros G. unfold removeLanguagePack. rewrite G.
  eexists. split; [reflexivity|].
  assert (E1 : own_get (languagePacks (setDownloaded st langCode false)) langCode
               = Some (set_isDownloaded pack false)).
  { unfold setDownloaded. rewrite G. simpl. apply own_get_obj_set_same. }
  split; [|split].
  - simpl. unfold clearDictionary. rewrite E1. simpl.
    rewrite own_get_obj_set_same. eexists. split; [reflexivity|]. now split.
  - intros other N0. simpl. unfold clearDictionary. rewrite E1. simpl.
    rewrite own_get_obj_set_other by assumption.
    unfold setDownloaded. rewrite G. simpl.
    now rewrite own_get_obj_set_other by assumption.
  - intros key. simpl.
    assert (C : translationCache (clearDictionary (setDownloaded st langCode false) langCode)
                = translationCache st).
    { unfold clearDictionary. rewrite E1. simpl.
      unfold setDownloaded. now rewrite G. }
    rewrite C.
    rewrite (own_get_filter (fun k => negb (startsWith k (langCode ++ lit "-")))).
    now destruct (startsWith key (langCode ++ lit "-")).
Qed.

(** A key written by [translateOffline] starts with its source
    language and a hyphen, and with no other language code: the filter
    of [removeLanguagePack] deletes the entries of the removed language
    and keeps those of any other. *)
Lemma startsWith_prefix (a b : jsstring) : startsWith (a ++ b) a = true.
Proof.
  induction a as [|c a IH]; cbn [app startsWith]; [now destruct b|].
  now rewrite N.eqb_refl, IH.
Qed.

Lemma startsWith_other_code (rest0 : jsstring) langCode :
  forall sourceLang,
    ~ In 45%N sourceLang -> ~ In 45%N langCode -> sourceLang <> langCode ->
    startsWith (sourceLang ++ 45%N :: rest0) (langCode ++ [45%N]) = false.
Proof.
  induction langCode as [|l lang IH];
    intros [|c src] Hs Hl Hne; try congruence.
  - cbn [app startsWith]. destruct (N.eqb_spec 45 c) as [E|_]; [|reflexivity].
    exfalso. apply Hs. now left.
  - cbn [app startsWith]. destruct (N.eqb_spec l 45) as [E|_]; [|reflexivity].
    exfalso. apply Hl. now left.
  - cbn [app startsWith]. destruct (N.eqb_spec l c) as [E|_]; [|reflexivity].
    subst. cbn [andb]. apply IH.
    + intros I. apply Hs. now right.
    + intros I. apply Hl. now right.
    + congruence.
Qed.

Lemma cacheKey_own_language text sourceLang targetLang :
  startsWith (cacheKey text sourceLang targetLang) (sourceLang ++ lit "-")
  = true.
Proof.
  unfold cacheKey. rewrite app_assoc. apply startsWith_prefix.
Qed.

Lemma cacheKey_other_language text sourceLang targetLang langCode :
  ~ In 45%N sourceLang -> ~ In 45%N langCode -> sourceLang <> langCode ->
  startsWith (cacheKey text sourceLang targetLang) (langCode ++ lit "-")
  = false.
Proof.
  unfold cacheKey. change (lit "-") with [45%N].
  apply startsWith_other_code.
Qed.

End WithHost.

(** ** Examples, on the concrete host and exact numbers *)

Import BasicHost.

Lemma translateOffline_requires_downloaded_pack_witness :
  (isLanguagePackDownloaded (construct 0 None []) (lit "ne") = false /\
   translateOffline (construct 0 None []) (lit "घर") (lit "ne") (lit "en") 5
   = Thrown (lit "Language pack not downloaded: ne"))
  /\
  (exists progress st',
     downloadLanguagePack (construct 0 None []) (lit "ne")
     = Returned (true, progress, st') /\
     last progress zero = ofHundredths 10000 /\
     forall now', exists r st'',
       translateOffline st' (lit "घर") (lit "ne") (lit "en") now'
       = Returned (r, st'')).
Proof.
  pose proof (translateOffline_requires_downloaded_pack
                (H := basicHost) (NUM := exactNumber)
                (construct 0 None []) (lit "घर") (lit "ne") (lit "en") 5)
    as [T1 T2].
  split.
  - split; [vm_compute; reflexivity|].
    apply T1. vm_compute. reflexivity.
  - eapply T2. vm_compute. reflexivity.
Defined.

(** After the download the translation is found in the pack. *)
Example translate_after_download :
  match downloadLanguagePack (construct 0 None []) (lit "ne") with
  | Returned (_, _, st') =>
    match translateOffline st' (lit "घर") (lit "ne") (lit "en") 5 with
    | Returned (r, _) => r = lit "Home"
    | Thrown _ => False
    end
  | Thrown _ => False
  end.
Proof. vm_compute. reflexivity. Qed.

End OfflineFacts.

(* ================================================================== *)
(** * Properties of the extended offline translation service *)
(* ================================================================== *)

Module OfflineExtFacts.
Import JS Numbers OfflineExt JSFacts NumberFacts.

Section WithHost.
Context {H : Host} {NUM : Number}.

Lemma sizes_ok_ext_obj_set ps k p :
  sizes_ok_ext ps -> le zero (size p) -> sizes_ok_ext (obj_set ps k p).
Proof.
  unfold sizes_ok_ext. intros Hps Hp.
  induction ps as [|[k' p'] ps IH]; simpl.
  - now repeat constructor.
  - inversion Hps; subst. destruct (str_eqb k' k); constructor; auto.
Qed.

Lemma sizes_ok_ext_get ps k p :
  sizes_ok_ext ps -> own_get ps k = Some p -> le zero (size p).
Proof.
  unfold sizes_ok_ext. intros Hps G. apply own_get_In in G.
  rewrite Forall_forall in Hps. exact (Hps _ G).
Qed.

Lemma sizes_ok_ext_fold_set (l : list LanguagePack) m :
  sizes_ok_ext m -> Forall (fun p => le zero (size p)) l ->
  sizes_ok_ext (fold_left (fun m pack => obj_set m (code pack) pack) l m).
Proof.
  revert m. induction l as [|p l IH]; intros m Hm Hl; simpl; [assumption|].
  inversion Hl; subst. apply IH; [|assumption].
  now apply sizes_ok_ext_obj_set.
Qed.

Lemma sizes_ok_ext_initial now : sizes_ok_ext (initializeLanguagePacks now).
Proof.
  apply sizes_ok_ext_fold_set; [constructor|].
  unfold initialPacks.
  repeat constructor; cbn [size]; apply ofHundredths_nonneg; lia.
Qed.

(** [updatePack] with a function that keeps the size. *)
Lemma updatePack_sizes st k f :
  (forall p, size (f p) = size p) ->
  sizes_ok_ext (languagePacks st) ->
  sizes_ok_ext (languagePacks (updatePack st k f)).
Proof.
  intros Hf I. unfold updatePack.
  destruct (own_get (languagePacks st) k) eqn:G; [|assumption]. simpl.
  apply sizes_ok_ext_obj_set; [assumption|]. rewrite Hf.
  eapply sizes_ok_ext_get; eauto.
Qed.

Lemma loadLanguageDictionary_sizes_ext st k :
  sizes_ok_ext (languagePacks st) ->
  sizes_ok_ext (languagePacks (loadLanguageDictionary st k)).
Proof.
  intros I. unfold loadLanguageDictionary.
  destruct (own_get (languagePacks st) k) eqn:G; [|assumption].
  destruct (own_get dictionaries k); [|assumption]. simpl.
  now apply updatePack_sizes.
Qed.

Lemma isLanguagePackDownloaded_packs st k :
  languagePacks (snd (isLanguagePackDownloaded st k)) = languagePacks st.
Proof.
  unfold isLanguagePackDownloaded.
  destruct (own_get (localStorage st) (flagKey k)) as [v|].
  - destruct (str_eqb v (lit "true")); [reflexivity|].
    destruct (own_get (languagePacks st) k) as [p|]; [|reflexivity].
    now destruct (isDownloaded p).
  - destruct (own_get (languagePacks st) k) as [p|]; [|reflexivity].
    now destruct (isDownloaded p).
Qed.

Lemma download_sizes_ext st k r :
  sizes_ok_ext (languagePacks st) ->
  downloadLanguagePack st k = Returned r ->
  sizes_ok_ext (languagePacks (snd r)).
Proof.
  intros I. unfold downloadLanguagePack.
  destruct (own_get (languagePacks st) k); [|discriminate].
  intros [= <-]. simpl.
  apply updatePack_sizes; [reflexivity|].
  now apply loadLanguageDictionary_sizes_ext.
Qed.

Lemma ensureLoaded_sizes st k :
  sizes_ok_ext (languagePacks st) ->
  sizes_ok_ext
    (languagePacks
       (if negb (fst (isLanguagePackDownloaded st k))
        then loadLanguageDictionary (snd (isLanguagePackDownloaded st k)) k
        else snd (isLanguagePackDownloaded st k))).
Proof.
  intros I.
  destruct (negb (fst (isLanguagePackDownloaded st k))).
  - apply loadLanguageDictionary_sizes_ext.
    now rewrite isLanguagePackDownloaded_packs.
  - now rewrite isLanguagePackDownloaded_packs.
Qed.

Lemma translateWithPack_sizes st text sourceLang targetLang key now :
  sizes_ok_ext (languagePacks st) ->
  sizes_ok_ext
    (languagePacks
       (snd (translateWithPack st text sourceLang targetLang key now))).
Proof.
  intros I. unfold translateWithPack.
  pose proof (@ensureLoaded_sizes st sourceLang I) as I1.
  set (st1 := if negb (fst (isLanguagePackDownloaded st sourceLang)) then _
              else _) in *.
  pose proof (@ensureLoaded_sizes st1 targetLang I1) as I2.
  set (st2 := if negb (fst (isLanguagePackDownloaded st1 targetLang)) then _
              else _) in *.
  destruct (own_get (languagePacks st2) sourceLang) as [p|].
  - destruct (isDownloaded p).
    + destruct (Nat.ltb 0 (length (dictionary p))).
      * destruct (map_lookup (dictionary p) (trim text)); exact I2.
      * destruct (str_eqb sourceLang (lit "ne")); [exact I2|].
        destruct (str_eqb sourceLang (lit "si")); exact I2.
    + destruct (str_eqb sourceLang (lit "ne")); [exact I2|].
      destruct (str_eqb sourceLang (lit "si")); exact I2.
  - destruct (str_eqb sourceLang (lit "ne")); [exact I2|].
    destruct (str_eqb sourceLang (lit "si")); exact I2.
Qed.

Lemma translateOffline_sizes st text sourceLang targetLang now :
  sizes_ok_ext (languagePacks st) ->
  sizes_ok_ext
    (languagePacks (snd (translateOffline st text sourceLang targetLang now))).
Proof.
  intros I. unfold translateOffline.
  destruct (getHardcodedTranslation text sourceLang); [exact I|].
  set (sl := if str_eqb sourceLang (lit "auto") then _ else _).
  destruct (str_eqb sl targetLang); [exact I|].
  destruct (obj_get (translationCache st) (cacheKey text sl targetLang))
    as [[c|n]|]; [exact I|exact I|].
  destruct (str_eqb (sl ++ lit "-" ++ targetLang) (lit "en-ne")); [exact I|].
  destruct (str_eqb (sl ++ lit "-" ++ targetLang) (lit "en-si")); [exact I|].
  now apply translateWithPack_sizes.
Qed.

Lemma removeLanguagePack_sizes_ext st k :
  sizes_ok_ext (languagePacks st) ->
  sizes_ok_ext (languagePacks (snd (removeLanguagePack st k))).
Proof.
  intros I. unfold removeLanguagePack.
  destruct (own_get (languagePacks st) k); [|assumption]. simpl.
  now apply updatePack_sizes.
Qed.

Lemma clearOfflineData_sizes_ext st :
  sizes_ok_ext (languagePacks st) ->
  sizes_ok_ext (languagePacks (clearOfflineData st)).
Proof.
  unfold sizes_ok_ext, clearOfflineData. simpl. intros I.
  induction I; simpl; constructor; auto.
Qed.

Lemma construct_sizes_ext now cached status items :
  sizes_ok_ext (languagePacks (construct now cached status items)).
Proof.
  unfold construct, preloadFirst.
  apply loadLanguageDictionary_sizes_ext.
  unfold loadCachedTranslations.
  match goal with
  | |- sizes_ok_ext (languagePacks (fold_left ?f status ?s0)) =>
    assert (I0 : sizes_ok_ext (languagePacks s0))
      by (destruct cached; simpl; apply sizes_ok_ext_initial);
    generalize dependent s0
  end.
  induction status as [|[k b] status IH]; intros s0 I0; simpl;
    [assumption|].
  apply IH.
  destruct (own_get (languagePacks s0) k); [|assumption].
  destruct b; [|assumption].
  apply loadLanguageDictionary_sizes_ext.
  now apply updatePack_sizes.
Qed.

Lemma reachable_sizes_ext st : reachable st -> sizes_ok_ext (languagePacks st).
Proof.
  induction 1 as [now cached status items|st st' R IH S].
  - apply construct_sizes_ext.
  - destruct S as [st k Hk|st k|st k b progress st' E|st text sl tl now
                   |st k|st].
    + now apply loadLanguageDictionary_sizes_ext.
    + now rewrite isLanguagePackDownloaded_packs.
    + eapply download_sizes_ext in E; [exact E|exact IH].
    + now apply translateOffline_sizes.
    + now apply removeLanguagePack_sizes_ext.
    + now apply clearOfflineData_sizes_ext.
Qed.

Lemma getStorageInfo_ok_ext st :
  sizes_ok_ext (languagePacks st) -> summary_ok_ext (getStorageInfo st).
Proof.
  intros I.
  assert (J : Forall (fun p => le zero (size p)) (map snd (languagePacks st))).
  { unfold sizes_ok_ext in I. rewrite Forall_forall in *.
    intros p Hp. apply in_map_iff in Hp as (kp & <- & Hk). now apply I. }
  assert (J' : Forall (fun p => le zero (size p))
                      (filter isDownloaded (map snd (languagePacks st)))).
  { rewrite Forall_forall in *. intros p Hp.
    apply filter_In in Hp as [Hp _]. now apply J. }
  unfold summary_ok_ext, getStorageInfo, sumSizes; simpl.
  repeat split.
  - apply sum_filter_le; [apply le_refl|assumption].
  - apply filter_length_le.
  - apply sum_nonneg; [apply le_refl|assumption].
  - apply sum_nonneg; [apply le_refl|assumption].
  - lia.
  - lia.
Qed.

(** The preloads that follow the constructor are transitions. *)
Lemma reachable_constructAndPreload now cached status items :
  reachable (constructAndPreload now cached status items).
Proof.
  unfold constructAndPreload, preloadRest. cbn [fold_left].
  apply reachable_step
    with (st := loadLanguageDictionary (construct now cached status items)
                                       (lit "ne")).
  - apply reachable_step with (st := construct now cached status items).
    + apply reachable_construct.
    + apply step_preload. simpl. auto.
  - apply step_preload. simpl. auto.
Qed.

(** C10.  Storage summary invariant: in every state either service can
    reach from its constructor by its public operations, the record
    returned by [getStorageInfo] has [usedSize <= totalSize],
    [downloadedPacks <= availablePacks], and no negative field: the
    downloaded packs are a selection of the registered packs and every
    declared size is positive. *)
Theorem storage_summary_invariant :
  (forall st, Offline.reachable st ->
     Offline.summary_ok (Offline.getStorageInfo st))
  /\
  (forall st, reachable st -> summary_ok_ext (getStorageInfo st)).
Proof.
  split; intros st R.
  - now apply OfflineFacts.getStorageInfo_ok, OfflineFacts.reachable_sizes.
  - now apply getStorageInfo_ok_ext, reachable_sizes_ext.
Qed.

(** ** The cache has no time limit *)

(** Once an entry is in the cache it is returned whatever its age, and
    nothing is computed or written. *)
Lemma cached_entry_returned_at_any_age st text sourceLang targetLang now e :
  getHardcodedTranslation text sourceLang = None ->
  str_eqb sourceLang (lit "auto") = false ->
  str_eqb sourceLang targetLang = false ->
  own_get (translationCache st) (cacheKey text sourceLang targetLang) = Some e ->
  translateOffline st text sourceLang targetLang now
  = (Some (translation e), st).
Proof.
  intros Hh Ha Hd Hc. unfold translateOffline.
  rewrite Hh, Ha, Hd. unfold obj_get. now rewrite Hc.
Qed.

(** ** Word fallback: decomposition, then affix matching *)

Lemma splitPoints_spec word i :
  In i (splitPoints word) <-> 1 <= i < length word.
Proof. unfold splitPoints. rewrite in_seq. lia. Qed.

Lemma firstSome_first {A B} (f : A -> option B) (l : list A) pre x post y :
  l = pre ++ x :: post -> (forall z, In z pre -> f z = None) -> f x = Some y ->
  firstSome f l = Some y.
Proof.
  intros -> Hpre Hx. induction pre as [|z pre IH]; simpl.
  - now rewrite Hx.
  - rewrite (Hpre z) by now left. apply IH. intros; apply Hpre; now right.
Qed.

Lemma firstSome_none {A B} (f : A -> option B) (l : list A) :
  (forall z, In z l -> f z = None) -> firstSome f l = None.
Proof.
  induction l as [|z l IH]; intros Hl; simpl; [reflexivity|].
  rewrite (Hl z) by now left. apply IH. intros; apply Hl; now right.
Qed.

Lemma seq_split_at start len i :
  start <= i < start + len ->
  seq start len = seq start (i - start) ++ i :: seq (S i) (start + len - S i).
Proof.
  intros Hi.
  replace len with ((i - start) + S (start + len - S i)) at 1 by lia.
  rewrite seq_app. simpl. repeat f_equal; lia.
Qed.

(** The first split point with two entries decides. *)
Lemma decompose_first d word i a b :
  1 <= i < length word ->
  partsAt d word i = Some (a, b) ->
  (forall j, 1 <= j < i -> partsAt d word j = None) ->
  decompose d word = Some (ToString a ++ lit " " ++ ToString b).
Proof.
  intros Hi Hp Hfirst. unfold decompose.
  rewrite (@firstSome_first _ _ (partsAt d word) (splitPoints word)
             (seq 1 (i - 1)) i (seq (S i) (1 + (length word - 1) - S i))
             (a, b)); [reflexivity| | |exact Hp].
  - unfold splitPoints. apply seq_split_at. lia.
  - intros j Hj. apply in_seq in Hj. apply Hfirst. lia.
Qed.

Lemma decompose_none d word :
  (forall j, 1 <= j < length word -> partsAt d word j = None) ->
  decompose d word = None.
Proof.
  intros Hn. unfold decompose. rewrite firstSome_none; [reflexivity|].
  intros j Hj. apply Hn. now apply splitPoints_spec.
Qed.

Lemma find_first_entry {A} (p : A -> bool) pre x post :
  (forall z, In z pre -> p z = false) -> p x = true ->
  find p (pre ++ x :: post) = Some x.
Proof.
  intros Hpre Hx. induction pre as [|z pre IH]; simpl.
  - now rewrite Hx.
  - rewrite (Hpre z) by now left. apply IH. intros; apply Hpre; now right.
Qed.

Lemma find_none_all {A} (p : A -> bool) l :
  (forall z, In z l -> p z = false) -> find p l = None.
Proof.
  induction l as [|z l IH]; intros Hl; simpl; [reflexivity|].
  rewrite (Hl z) by now left. apply IH. intros; apply Hl; now right.
Qed.

Lemma includes_find_first s sub :
  includes s sub = true -> exists b a, find_first s sub = Some (b, a).
Proof.
  induction s as [|c s IH]; cbn [includes find_first].
  - rewrite orb_false_r. intros ->. eauto.
  - destruct (startsWith (c :: s) sub) eqn:E; [eauto|]. simpl.
    intros I. destruct (IH I) as (b & a & ->). eauto.
Qed.

(** Replacing a key by a translation without dollar signs splices the
    translation in at the first occurrence; the rest of the word is
    kept. *)
Lemma replace_splices word key value :
  includes word key = true -> ~ In 36%N value ->
  exists before after,
    word = before ++ key ++ after /\
    replace word key value = before ++ value ++ after.
Proof.
  intros I Hd. destruct (includes_find_first _ _ I) as (b & a & F).
  exists b, a. split; [now apply find_first_spec|].
  unfold replace. rewrite F. now rewrite GetSubstitution_plain.
Qed.

(** The built-in dictionaries have no dollar sign in a translation. *)
Lemma builtin_translations_plain d key value :
  In d [neToEnDict; siToEnDict; enToNeDict; enToSiDict] ->
  In (key, value) d -> ~ In 36%N value.
Proof.
  intros Hd Hk.
  assert (G : forallb (fun d =>
                forallb (fun kv => negb (existsb (N.eqb 36) (snd kv))) d)
              [neToEnDict; siToEnDict; enToNeDict; enToSiDict] = true)
    by (vm_compute; reflexivity).
  rewrite forallb_forall in G. specialize (G _ Hd).
  rewrite forallb_forall in G. specialize (G _ Hk). simpl in G.
  apply negb_true_iff in G. intros I.
  assert (existsb (N.eqb 36) value = true); [|congruence].
  apply existsb_exists. exists 36%N. split; [assumption|apply N.eqb_refl].
Qed.

(** Word fallback in the extended service, for a token the
    dictionary read finds nothing for (for the Nepali path: neither as
    written nor lower-cased; the read also finds the members every
    object inherits).  Compound-word decomposition comes first:
    the split points 1, ..., length - 1 are tried in order and the
    first one whose two parts both have an entry gives the two entries
    joined by a space.  On the Nepali path only, when no split point
    works, the first dictionary key longer than 3 that occurs in the
    token is replaced in it by its translation (a text without dollar
    sign) and the rest of the token is kept; when
    no such key occurs the token is returned unchanged.  On the Sinhala
    path there is no affix matching: when no split point works the
    token is returned unchanged. *)
Lemma word_fallback_order (d : jsobject jsstring) (word : jsstring) :
  (* the Nepali path *)
  (lookup d word = None -> lookup d (toLowerCase word) = None ->
   (forall i a b,
      1 <= i < length word -> partsAt d word i = Some (a, b) ->
      (forall j, 1 <= j < i -> partsAt d word j = None) ->
      translateNepaliWord d word = Own (ToString a ++ lit " " ++ ToString b))
   /\
   ((forall j, 1 <= j < length word -> partsAt d word j = None) ->
    (forall pre key value post,
       d = pre ++ (key, value) :: post ->
       3 < length key -> includes word key = true -> ~ In 36%N value ->
       (forall k v, In (k, v) pre -> 3 < length k -> includes word k = false) ->
       exists before after,
         word = before ++ key ++ after /\
         translateNepaliWord d word = Own (before ++ value ++ after))
    /\
    ((forall k v, In (k, v) d -> 3 < length k -> includes word k = false) ->
     translateNepaliWord d word = Own word)))
  /\
  (* the Sinhala path *)
  (lookup d word = None ->
   (forall i a b,
      1 <= i < length word -> partsAt d word i = Some (a, b) ->
      (forall j, 1 <= j < i -> partsAt d word j = None) ->
      translateSinhalaWord d word = Own (ToString a ++ lit " " ++ ToString b))
   /\
   ((forall j, 1 <= j < length word -> partsAt d word j = None) ->
    translateSinhalaWord d word = Own word)).
Proof.
  split.
  - intros L1 L2. unfold translateNepaliWord. rewrite L1, L2. split.
    + intros i a b Hi Hp Hfirst.
      now rewrite (decompose_first _ _ _ _ _ Hi Hp Hfirst).
    + intros Hnone. rewrite (decompose_none _ _ Hnone). split.
      * intros pre key value post Hd Hlen Hinc Hplain Hpre.
        destruct (replace_splices _ _ _ Hinc Hplain) as (before & after & E1 & E2).
        exists before, after. split; [exact E1|].
        unfold affixMatch. rewrite Hd.
        rewrite (@find_first_entry _ _ pre (key, value) post).
        -- now rewrite E2.
        -- intros [k v] Hk. simpl.
           destruct (Nat.ltb 3 (length k)) eqn:E; [|reflexivity]. simpl.
           apply Nat.ltb_lt in E. exact (Hpre k v Hk E).
        -- simpl. apply andb_true_iff. split; [now apply Nat.ltb_lt|exact Hinc].
      * intros Hno. unfold affixMatch. rewrite find_none_all; [reflexivity|].
        intros [k v] Hk. simpl.
        destruct (Nat.ltb 3 (length k)) eqn:E; [|reflexivity]. simpl.
        apply Nat.ltb_lt in E. exact (Hno k v Hk E).
  - intros L1. unfold translateSinhalaWord. rewrite L1. split.
    + intros i a b Hi Hp Hfirst.
      now rewrite (decompose_first _ _ _ _ _ Hi Hp Hfirst).
    + intros Hnone. now rewrite (decompose_none _ _ Hnone).
Qed.

(** Checking every split point of a given word by computation. *)
Lemma no_split_by_computation d word :
  forallb (fun j => match partsAt d word j with None => true | Some _ => false end)
          (splitPoints word) = true ->
  forall j, 1 <= j < length word -> partsAt d word j = None.
Proof.
  intros G j Hj. rewrite forallb_forall in G.
  specialize (G j (proj2 (splitPoints_spec word j) Hj)).
  now destruct (partsAt d word j).
Qed.

End WithHost.

(** ** Examples, on the concrete host and exact numbers *)

Import BasicHost Examples.

Lemma storage_summary_invariant_witness :
  Offline.summary_ok (Offline.getStorageInfo (Offline.construct 0 None []))
  /\ summary_ok_ext (getStorageInfo fresh).
Proof.
  pose proof (storage_summary_invariant (H := basicHost) (NUM := exactNumber))
    as [T1 T2].
  split.
  - apply T1. constructor.
  - apply T2. apply reachable_constructAndPreload.
Defined.

(** The summary of the fresh extended service: three packs, all loaded,
    33.3 MB in all. *)
Example storage_summary_fresh :
  getStorageInfo fresh
  = {| totalSize := 3280%Z; usedSize := 3280%Z;
       availablePacks := 3; downloadedPacks := 3 |}.
Proof. vm_compute. reflexivity. Qed.

(** *** C6: no time limit in the extended service *)

(** C6.  The extended service does not honour the time limit: 48 hours
    after the entry was written, [translateOffline] still returns the
    cached translation and leaves the entry as it is, although the pack
    dictionary translates the text to "Home". *)
Theorem stale_cache_entry_is_reused :
  translateOffline withOldEntry (lit "घर") (lit "ne") (lit "en") 172800000
  = (Some (Own (lit "stale")), withOldEntry)
  /\
  fst (translateOffline fresh (lit "घर") (lit "ne") (lit "en") 172800000)
  = Some (Own (lit "Home")).
Proof. split; vm_compute; reflexivity. Qed.

(** *** C7: no error for a missing pack in the extended service *)


(** *** C8: word fallback *)

(** C8.  The word fallback takes the members a dictionary object
    inherits for entries.  The token "constructor" has no entry in the
    Nepali dictionary (as written or lower-cased), no split point
    gives two keys, and no key longer than 3 occurs in it; yet the
    word fallback returns the inherited function, not the token; the token "constructorघर" is decomposed into the
    source text of that function and "Home".  Through the service:
    with the Nepali pack loaded [translateOffline] returns
    "constructor x" unchanged, and once the pack is removed it returns
    the source text of the function followed by " x". *)
Theorem inherited_member_taken_for_entry :
  own_get neToEnDict (lit "constructor") = None
  /\ own_get neToEnDict (toLowerCase (lit "constructor")) = None
  /\ forallb (fun i =>
               match own_get neToEnDict (firstn i (lit "constructor")),
                     own_get neToEnDict (skipn i (lit "constructor")) with
               | Some _, Some _ => false
               | _, _ => true
               end)
            (splitPoints (lit "constructor")) = true
  /\ existsb (fun key =>
               Nat.ltb 3 (length key) && includes (lit "constructor") key)
            (obj_keys neToEnDict) = false
  /\ translateNepaliWord neToEnDict (lit "constructor")
     = Inherited (lit "constructor")
  /\ translateSinhalaWord siToEnDict (lit "constructor")
     = Inherited (lit "constructor")
  /\ translateNepaliWordsToEnglish (lit "constructorघर") neToEnDict
     = lit "function Object() { [native code] } Home"
  /\ fst (translateOffline fresh (lit "constructor x") (lit "ne") (lit "en") 5)
     = Some (Own (lit "constructor x"))
  /\ fst (translateOffline (snd (removeLanguagePack fresh (lit "ne")))
                           (lit "constructor x") (lit "ne") (lit "en") 5)
     = Some (Own (lit "function Object() { [native code] } x")).
Proof. repeat split; vm_compute; reflexivity. Qed.

(** The Sinhala path has no affix matching. *)

Lemma sinhala_word_without_affix_matching :
  let word := lit "ස්තූතියිx" in
  lookup siToEnDict word = None /\
  decompose siToEnDict word = None /\
  own_get siToEnDict (lit "ස්තූතියි") = Some (lit "Thank you") /\
  Nat.ltb 3 (length (lit "ස්තූතියි")) = true /\
  includes word (lit "ස්තූතියි") = true /\
  translateSinhalaWord siToEnDict word = Own word /\
  translateNepaliWord siToEnDict word = Own (lit "Thank youx").
Proof. repeat split; vm_compute; reflexivity. Qed.

Lemma word_fallback_order_witness :
  translateNepaliWord neToEnDict (lit "घरकाम") = Own (lit "Home Work") /\
  translateSinhalaWord siToEnDict (lit "ස්තූතියිx") = Own (lit "ස්තූතියිx").
Proof.
  split.
  - refine (proj1 (proj1 (word_fallback_order (H := basicHost)
                            neToEnDict (lit "घरकाम")) _ _)
                  2 (Own (lit "Home")) (Own (lit "Work")) _ _ _).
    + vm_compute. reflexivity.
    + vm_compute. reflexivity.
    + vm_compute. split; repeat constructor.
    + vm_compute. reflexivity.
    + intros j Hj. assert (j = 1) as -> by lia. vm_compute. reflexivity.
  - refine (proj2 (proj2 (word_fallback_order (H := basicHost)
                            siToEnDict (lit "ස්තූතියිx")) _) _).
    + vm_compute. reflexivity.
    + apply no_split_by_computation. vm_compute. reflexivity.
Defined.

(** *** C9: removing a pack and the cache *)

(** C9.  In the extended service the cache keys start with the text,
    not with the language, while [removeLanguagePack] still deletes the
    keys that start with the code and a hyphen: removing the Nepali
    pack keeps the entry of the Nepali translation and deletes the
    entry of the Sinhala translation of a text that starts with
    "ne-". *)
Theorem removeLanguagePack_prunes_wrong_entries :
  obj_keys (translationCache twoEntries)
  = [ cacheKey (lit "घर") (lit "ne") (lit "en");
      cacheKey (lit "ne-x") (lit "si") (lit "en") ]
  /\ fst (removeLanguagePack twoEntries (lit "ne")) = true
  /\ obj_keys (translationCache (snd (removeLanguagePack twoEntries (lit "ne"))))
     = [ cacheKey (lit "घर") (lit "ne") (lit "en") ].
Proof. repeat split; vm_compute; reflexivity. Qed.

End OfflineExtFacts.

(* ================================================================== *)
(** * More facts about plain objects and maps *)
(* ================================================================== *)

Module ObjectFacts.
Import JS JSFacts.

Lemma own_get_obj_set_eq {A} (o : jsobject A) k k' v :
  own_get (obj_set o k v) k' = if str_eqb k k' then Some v else own_get o k'.
Proof.
  destruct (str_eqb k k') eqn:E.
  - apply str_eqb_eq in E as ->. apply own_get_obj_set_same.
  - apply str_eqb_neq in E. apply own_get_obj_set_other. congruence.
Qed.

Lemma own_get_map {A B} (f : A -> B) (o : jsobject A) k :
  own_get (map (fun kv => (fst kv, f (snd kv))) o) k
  = option_map f (own_get o k).
Proof.
  induction o as [|[k' v] o IH]; simpl; [reflexivity|].
  now destruct (str_eqb k' k).
Qed.

Lemma own_get_keys {A} (o : jsobject A) k :
  own_get o k <> None <-> In k (obj_keys o).
Proof.
  unfold obj_keys. induction o as [|[k' v] o IH]; simpl.
  - split; [congruence|contradiction].
  - destruct (str_eqb k' k) eqn:E.
    + apply str_eqb_eq in E. split; [now left|discriminate].
    + apply str_eqb_neq in E. rewrite IH. split; [now right|].
      intros [E'|I]; [congruence|exact I].
Qed.

Lemma not_In_by_existsb c (s : jsstring) :
  existsb (N.eqb c) s = false -> ~ In c s.
Proof.
  intros E I.
  assert (T : existsb (N.eqb c) s = true).
  { apply existsb_exists. exists c. split; [exact I|apply N.eqb_refl]. }
  congruence.
Qed.

Lemma none_by_forallb {A} (p : A -> bool) l :
  forallb (fun x => negb (p x)) l = true -> forall x, In x l -> p x = false.
Proof.
  intros F x I. rewrite forallb_forall in F. specialize (F x I).
  now destruct (p x).
Qed.

End ObjectFacts.

(* ================================================================== *)
(** * Properties of the online translation service *)
(* ================================================================== *)

Module OnlineFacts.
Import JS Online JSFacts ObjectFacts.

(** ** What [flush] and the two loop bodies keep *)

Section Kept.
Variable maxLen : nat.
(** A property of the chunks pushed, which [current] has whenever it
    is pushed. *)
Variable R : jsstring -> Prop.
Variable pending : jsstring -> Prop.
Hypothesis pending_nil : pending [].
Hypothesis pushed :
  forall c, pending c -> 0 < length (trim c) -> R c.

Lemma flush_kept st : kept R pending st -> kept R pending (flush st).
Proof.
  intros [Hc Hs]. split; [exact pending_nil|].
  unfold flush; cbn [chunks current].
  destruct (Nat.ltb_spec 0 (length (trim (current st)))) as [L|L];
    [|assumption].
  apply Forall_app. split; [assumption|].
  constructor; [|constructor]. now apply pushed.
Qed.

Lemma fold_kept {A} (f : Chunker -> A -> Chunker) (ok : A -> Prop) l :
  (forall st x, ok x -> kept R pending st -> kept R pending (f st x)) ->
  Forall ok l -> forall st, kept R pending st -> kept R pending (fold_left f l st).
Proof.
  intros Hf. induction l as [|x l IH]; intros Hl st K; simpl; [assumption|].
  inversion Hl; subst. apply IH; [assumption|]. now apply Hf.
Qed.

Hypothesis pending_sentence :
  forall cur s,
    pending cur -> pending s ->
    Nat.ltb maxLen (length (cur ++ spaceAfter cur ++ s)) = false ->
    pending (cur ++ spaceAfter cur ++ s).

Lemma addSentence_kept st s :
  pending s -> kept R pending st -> kept R pending (addSentence maxLen st s).
Proof.
  intros Hs K. unfold addSentence.
  destruct (Nat.ltb maxLen (length (current st ++ spaceAfter (current st) ++ s)))
    eqn:E.
  - destruct (flush_kept _ K) as [_ F]. split; [|exact F].
    cbn [current flush chunks]. exact Hs.
  - destruct K as [Hc F]. split; [|exact F]. cbn [current].
    now apply pending_sentence.
Qed.

Hypothesis pending_paragraph :
  forall cur p,
    pending cur -> pending p ->
    Nat.ltb maxLen (length (cur ++ blankLine ++ p)) = false ->
    pending (cur ++ blankLine ++ p).

Lemma addParagraph_kept st p :
  (Nat.ltb maxLen (length p) = true ->
   Forall pending (split_behind sep_afterSentence p)) ->
  (Nat.ltb maxLen (length p) = false -> pending p) ->
  kept R pending st -> kept R pending (addParagraph maxLen st p).
Proof.
  intros Hlong Hshort K. unfold addParagraph, paragraphWithBreak.
  destruct (Nat.ltb maxLen (length p)) eqn:E.
  - apply flush_kept.
    apply (fold_kept (addSentence maxLen) pending); auto.
    intros st0 x Hx K0. now apply addSentence_kept.
  - specialize (Hshort eq_refl).
    destruct (is_empty (current st)) eqn:Ec.
    + rewrite E. destruct K as [_ F]. now split.
    + destruct (Nat.ltb maxLen (length (current st ++ blankLine ++ p))) eqn:E2.
      * apply flush_kept. destruct (flush_kept _ K) as [_ F]. now split.
      * destruct K as [Hc F]. split; [|exact F]. cbn [current].
        now apply pending_paragraph.
Qed.

Lemma collectChunks_kept text :
  (forall p, In p (split sep_blankLine text) ->
     (Nat.ltb maxLen (length p) = true ->
      Forall pending (split_behind sep_afterSentence p)) /\
     (Nat.ltb maxLen (length p) = false -> pending p)) ->
  Forall R (collectChunks text maxLen).
Proof.
  intros Hp. unfold collectChunks.
  apply flush_kept.
  apply (fold_kept (addParagraph maxLen)
                   (fun p => In p (split sep_blankLine text))).
  - intros st p Ip K. destruct (Hp p Ip). now apply addParagraph_kept.
  - apply Forall_forall. auto.
  - split; [exact pending_nil|constructor].
Qed.

End Kept.

Lemma chunkText_cases text maxLen :
  (collectChunks text maxLen = [] /\ chunkText text maxLen = [text])
  \/ (collectChunks text maxLen <> []
      /\ chunkText text maxLen = collectChunks text maxLen).
Proof.
  unfold chunkText. destruct (collectChunks text maxLen); [left|right]; auto.
  split; [discriminate|reflexivity].
Qed.

(** X1.  Chunks have content.  [chunkText] never returns an empty list,
    and every chunk it returns has visible content (its trimmed text is
    not empty), except when no chunk at all has, in which case the whole
    text is the only chunk. *)
Theorem chunkText_chunks_have_content (text : jsstring) (maxLen : nat) :
  chunkText text maxLen <> []
  /\ (chunkText text maxLen = [text]
      \/ Forall (fun c => trim c <> []) (chunkText text maxLen)).
Proof.
  assert (F : Forall (fun c => trim c <> []) (collectChunks text maxLen)).
  { apply (collectChunks_kept maxLen (fun c => trim c <> []) (fun _ => True));
      auto.
    - intros c _ L E. rewrite E in L. simpl in L. lia.
    - intros p _. split; intros _; [|exact I].
      apply Forall_forall. auto. }
  destruct (chunkText_cases text maxLen) as [[_ E]|[N E]]; rewrite E.
  - split; [discriminate|now left].
  - split; [assumption|now right].
Qed.

(** ** Visible content *)

Lemma trimStart_keeps c s :
  In c s -> isWhiteSpace c = false -> In c (trimStart s).
Proof.
  intros I V. induction s as [|a r IH]; [destruct I|].
  cbn [trimStart]. destruct (isWhiteSpace a) eqn:E; [|exact I].
  destruct I as [->|I]; [congruence|now apply IH].
Qed.

Lemma trimStart_incl c s : In c (trimStart s) -> In c s.
Proof.
  induction s as [|a r IH]; [auto|].
  cbn [trimStart]. destruct (isWhiteSpace a); [|auto].
  intros I. right. now apply IH.
Qed.

Lemma trimStart_visible s : trimStart s <> [] -> hasVisible s.
Proof.
  induction s as [|a r IH]; [intros Hn; now destruct Hn|].
  cbn [trimStart]. destruct (isWhiteSpace a) eqn:E.
  - intros Hn. destruct (IH Hn) as (c & I & V). exists c. split; [now right|exact V].
  - intros _. exists a. split; [now left|exact E].
Qed.

Lemma trim_keeps c s :
  In c s -> isWhiteSpace c = false -> In c (trim s).
Proof.
  intros I V. unfold trim, trimEnd.
  apply in_rev. rewrite rev_involutive.
  apply trimStart_keeps; [|exact V].
  apply -> in_rev. now apply trimStart_keeps.
Qed.

Lemma visible_trim s : hasVisible s -> 0 < length (trim s).
Proof.
  intros (c & I & V). pose proof (trim_keeps c s I V) as K.
  destruct (trim s); [destruct K|simpl; lia].
Qed.

Lemma trim_visible s : trim s <> [] -> hasVisible s.
Proof.
  unfold trim, trimEnd. intros Hn.
  assert (Hn' : trimStart (rev (trimStart s)) <> []).
  { intros E. apply Hn. now rewrite E. }
  destruct (trimStart_visible _ Hn') as (c & I & V).
  exists c. split; [|exact V].
  apply trimStart_incl. now apply in_rev.
Qed.

Lemma blank_trimStart s : blank s -> trimStart s = [].
Proof.
  induction 1 as [|a r E _ IH]; [reflexivity|].
  cbn [trimStart]. now rewrite E.
Qed.

Lemma blank_trim s : blank s -> trim s = [].
Proof.
  intros B. unfold trim, trimEnd. now rewrite (blank_trimStart s B).
Qed.

Lemma trim_blank s : trim s = [] -> blank s.
Proof.
  intros E. apply Forall_forall. intros c I.
  destruct (isWhiteSpace c) eqn:V; [reflexivity|].
  pose proof (trim_keeps c s I V) as K. rewrite E in K. destruct K.
Qed.

Lemma blank_app a b : blank a -> blank b -> blank (a ++ b).
Proof. intros A B. apply Forall_app. now split. Qed.

Lemma hasVisible_app_l a b : hasVisible a -> hasVisible (a ++ b).
Proof.
  intros (c & I & V). exists c. split; [|exact V]. apply in_or_app. now left.
Qed.

Lemma hasVisible_app_r a b : hasVisible b -> hasVisible (a ++ b).
Proof.
  intros (c & I & V). exists c. split; [|exact V]. apply in_or_app. now right.
Qed.

(** *** The pieces of a split *)

(** A separator made of white space only. *)
Lemma sep_run_blank s : blank (firstn (sep_run isWhiteSpace s) s).
Proof.
  induction s as [|a r IH]; [constructor|].
  cbn [sep_run]. destruct (isWhiteSpace a) eqn:E; [|constructor].
  cbn [firstn]. now constructor.
Qed.

Lemma sep_afterSentence_blank prev s :
  blank (firstn (sep_afterSentence prev s) s).
Proof.
  unfold sep_afterSentence. destruct prev as [p|]; [|constructor].
  destruct (isSentenceEnd p); [apply sep_run_blank|constructor].
Qed.

Lemma sep_blankLine_blank s : blank (firstn (sep_blankLine s) s).
Proof.
  unfold sep_blankLine, optionalCR, lineFeedAt, blank.
  destruct s as [|c0 [|c1 [|c2 [|c3 s]]]]; cbn [skipn];
    repeat match goal with
           | |- context [N.eqb ?x ?y] =>
             destruct (N.eqb_spec x y); subst;
             cbn [skipn Nat.add firstn]; try discriminate
           end;
    repeat constructor.
Qed.

(** Every code unit of a piece is one of the text, and every visible
    code unit of the text is in a piece. *)
Lemma split_go_incl sepAt s : forall skip cur p c,
  In p (split_go sepAt skip cur s) -> In c p -> In c cur \/ In c s.
Proof.
  induction s as [|a r IH]; intros skip cur p c; cbn [split_go].
  - intros [<-|[]] I. left. now apply in_rev.
  - destruct skip as [|n].
    + destruct (sepAt (a :: r)) as [|n].
      * intros Ip I. destruct (IH _ _ _ _ Ip I) as [[<-|K]|K]; auto.
        -- right. now left.
        -- right. now right.
      * intros [<-|Ip] I; [left; now apply in_rev|].
        destruct (IH _ _ _ _ Ip I) as [[]|K]. right. now right.
    + intros Ip I. destruct (IH _ _ _ _ Ip I) as [K|K]; auto.
      right. now right.
Qed.

Lemma split_go_cover sepAt :
  (forall s, blank (firstn (sepAt s) s)) ->
  forall s skip cur c,
    isWhiteSpace c = false -> blank (firstn skip s) ->
    In c cur \/ In c s ->
    exists p, In p (split_go sepAt skip cur s) /\ In c p.
Proof.
  intros Hsep s. induction s as [|a r IH]; intros skip cur c V B I;
    cbn [split_go].
  - destruct I as [I|[]]. exists (rev cur). split; [now left|].
    now apply -> in_rev.
  - destruct skip as [|n].
    + pose proof (Hsep (a :: r)) as Bs.
      destruct (sepAt (a :: r)) as [|n].
      * apply IH; [exact V|constructor|].
        destruct I as [I|[<-|I]]; auto.
        -- left. now right.
        -- left. now left.
      * cbn [firstn] in Bs. inversion Bs as [|? ? Ea Bn]; subst.
        destruct I as [I|[<-|I]]; [| congruence |].
        -- exists (rev cur). split; [now left|now apply -> in_rev].
        -- destruct (IH n [] c V Bn (or_intror I)) as (p & Ip & Ic).
           exists p. split; [now right|exact Ic].
    + cbn [firstn] in B. inversion B as [|? ? Ea Bn]; subst.
      apply IH; [exact V|exact Bn|].
      destruct I as [I|[<-|I]]; auto. congruence.
Qed.

Lemma split_behind_go_incl sepAt s : forall skip prev cur p c,
  In p (split_behind_go sepAt skip prev cur s) -> In c p ->
  In c cur \/ In c s.
Proof.
  induction s as [|a r IH]; intros skip prev cur p c; cbn [split_behind_go].
  - intros [<-|[]] I. left. now apply in_rev.
  - destruct skip as [|n].
    + destruct (sepAt prev (a :: r)) as [|n].
      * intros Ip I. destruct (IH _ _ _ _ _ Ip I) as [[<-|K]|K]; auto.
        -- right. now left.
        -- right. now right.
      * intros [<-|Ip] I; [left; now apply in_rev|].
        destruct (IH _ _ _ _ _ Ip I) as [[]|K]. right. now right.
    + intros Ip I. destruct (IH _ _ _ _ _ Ip I) as [K|K]; auto.
      right. now right.
Qed.

Lemma split_behind_go_cover sepAt :
  (forall prev s, blank (firstn (sepAt prev s) s)) ->
  forall s skip prev cur c,
    isWhiteSpace c = false -> blank (firstn skip s) ->
    In c cur \/ In c s ->
    exists p, In p (split_behind_go sepAt skip prev cur s) /\ In c p.
Proof.
  intros Hsep s. induction s as [|a r IH]; intros skip prev cur c V B I;
    cbn [split_behind_go].
  - destruct I as [I|[]]. exists (rev cur). split; [now left|].
    now apply -> in_rev.
  - destruct skip as [|n].
    + pose proof (Hsep prev (a :: r)) as Bs.
      destruct (sepAt prev (a :: r)) as [|n].
      * apply IH; [exact V|constructor|].
        destruct I as [I|[<-|I]]; auto.
        -- left. now right.
        -- left. now left.
      * cbn [firstn] in Bs. inversion Bs as [|? ? Ea Bn]; subst.
        destruct I as [I|[<-|I]]; [| congruence |].
        -- exists (rev cur). split; [now left|now apply -> in_rev].
        -- destruct (IH n (Some a) [] c V Bn (or_intror I)) as (p & Ip & Ic).
           exists p. split; [now right|exact Ic].
    + cbn [firstn] in B. inversion B as [|? ? Ea Bn]; subst.
      apply IH; [exact V|exact Bn|].
      destruct I as [I|[<-|I]]; auto. congruence.
Qed.

Lemma paragraphs_visible text :
  hasVisible text ->
  exists p, In p (split sep_blankLine text) /\ hasVisible p.
Proof.
  intros (c & I & V).
  destruct (split_go_cover sep_blankLine sep_blankLine_blank text 0 [] c V)
    as (p & Ip & Ic); [constructor|now right|].
  exists p. split; [exact Ip|]. now exists c.
Qed.

Lemma sentences_visible p :
  hasVisible p ->
  exists s, In s (split_behind sep_afterSentence p) /\ hasVisible s.
Proof.
  intros (c & I & V).
  destruct (split_behind_go_cover sep_afterSentence sep_afterSentence_blank
                                  p 0 None [] c V)
    as (s & Is & Ic); [constructor|now right|].
  exists s. split; [exact Is|]. now exists c.
Qed.

Lemma paragraphs_blank text p :
  blank text -> In p (split sep_blankLine text) -> blank p.
Proof.
  intros B Ip. apply Forall_forall. intros c Ic.
  destruct (split_go_incl _ _ _ _ _ _ Ip Ic) as [[]|K].
  unfold blank in B. rewrite Forall_forall in B. now apply B.
Qed.

Lemma sentences_blank p s :
  blank p -> In s (split_behind sep_afterSentence p) -> blank s.
Proof.
  intros B Is. apply Forall_forall. intros c Ic.
  destruct (split_behind_go_incl _ _ _ _ _ _ _ Is Ic) as [[]|K].
  unfold blank in B. rewrite Forall_forall in B. now apply B.
Qed.

(** *** Visible content is pushed *)

Lemma flush_seen st : seen st -> chunks (flush st) <> [].
Proof.
  intros [Hn|Hv]; unfold flush; cbn [chunks].
  - destruct (Nat.ltb 0 (length (trim (current st)))); [|exact Hn].
    intros E. apply app_eq_nil in E as [E _]. now apply Hn.
  - apply visible_trim in Hv. apply Nat.ltb_lt in Hv. rewrite Hv.
    intros E. apply app_eq_nil in E as [_ E]. discriminate.
Qed.

Lemma addSentence_seen maxLen st s :
  seen st \/ hasVisible s -> seen (addSentence maxLen st s).
Proof.
  intros Hs. unfold addSentence, seen. cbn [chunks current].
  destruct Hs as [Hs|Hv].
  - destruct (Nat.ltb maxLen
                (length (current st ++ spaceAfter (current st) ++ s))).
    + left. now apply flush_seen.
    + destruct Hs as [Hn|Hv]; [now left|right].
      now apply hasVisible_app_l.
  - right. rewrite app_assoc. now apply hasVisible_app_r.
Qed.

Lemma fold_seen {A} (f : Chunker -> A -> Chunker) (vis : A -> Prop) l :
  (forall st x, seen st \/ vis x -> seen (f st x)) ->
  forall st, seen st \/ (exists x, In x l /\ vis x) -> seen (fold_left f l st).
Proof.
  intros Hf. induction l as [|x l IH]; intros st Hs; cbn [fold_left].
  - destruct Hs as [Hs|(x & [] & _)]. exact Hs.
  - apply IH. destruct Hs as [Hs|(y & [<-|Iy] & Vy)].
    + left. apply Hf. now left.
    + left. apply Hf. now right.
    + right. now exists y.
Qed.

Lemma addParagraph_seen maxLen st p :
  seen st \/ hasVisible p -> seen (addParagraph maxLen st p).
Proof.
  intros Hs. unfold addParagraph.
  destruct (Nat.ltb maxLen (length p)).
  - left. apply flush_seen.
    apply (fold_seen (addSentence maxLen) hasVisible).
    + apply addSentence_seen.
    + destruct Hs as [Hs|Hv]; [now left|right]. now apply sentences_visible.
  - destruct (Nat.ltb maxLen (length (paragraphWithBreak (current st) p))).
    + left. apply flush_seen. unfold seen. cbn [chunks current].
      destruct Hs as [Hs|Hv]; [left; now apply flush_seen|now right].
    + unfold seen, paragraphWithBreak. cbn [chunks current].
      destruct Hs as [[Hn|Hv]|Hv].
      * now left.
      * right. destruct (current st) as [|a r] eqn:E.
        -- destruct Hv as (c & [] & _).
        -- cbn [is_empty]. now apply hasVisible_app_l.
      * right. destruct (is_empty (current st)); [exact Hv|].
        now apply hasVisible_app_r, hasVisible_app_r.
Qed.

Lemma collectChunks_visible text maxLen :
  hasVisible text -> collectChunks text maxLen <> [].
Proof.
  intros Hv. unfold collectChunks. apply flush_seen.
  apply (fold_seen (addParagraph maxLen) hasVisible).
  - apply addParagraph_seen.
  - right. now apply paragraphs_visible.
Qed.

(** X2.  Size of the chunks.  For a text with visible content (its
    trimmed text is not empty), when every sentence of every paragraph
    longer than [maxLen] has at most [maxLen] code units, [chunkText]
    returns chunks of at most [maxLen] code units each.  For a text
    without visible content it returns the whole text as the only
    chunk, whatever its length. *)
Theorem chunkText_chunk_size (text : jsstring) (maxLen : nat) :
  (trim text <> [] ->
   (forall p s,
      In p (split sep_blankLine text) -> maxLen < length p ->
      In s (split_behind sep_afterSentence p) -> length s <= maxLen) ->
   Forall (fun c => length c <= maxLen) (chunkText text maxLen))
  /\ (trim text = [] -> chunkText text maxLen = [text]).
Proof.
  split.
  - intros Hv Hs.
    assert (F : Forall (fun c => length c <= maxLen)
                       (collectChunks text maxLen)).
    { apply (collectChunks_kept maxLen (fun c => length c <= maxLen)
                                (fun c => length c <= maxLen)).
      - simpl. lia.
      - auto.
      - intros cur s _ _ E. apply Nat.ltb_ge in E. exact E.
      - intros cur p _ _ E. apply Nat.ltb_ge in E. exact E.
      - intros p Ip. split; intros E.
        + apply Nat.ltb_lt in E. apply Forall_forall. intros s Is.
          now apply (Hs p s).
        + now apply Nat.ltb_ge in E. }
    destruct (chunkText_cases text maxLen) as [[E _]|[_ E]].
    + exfalso. revert E. apply collectChunks_visible.
      now apply trim_visible.
    + now rewrite E.
  - intros Hb. apply trim_blank in Hb.
    assert (F : Forall (fun _ => False) (collectChunks text maxLen)).
    { apply (collectChunks_kept maxLen (fun _ => False) blank).
      - constructor.
      - intros c B L. rewrite (blank_trim c B) in L. simpl in L. lia.
      - intros cur s Bc Bs _. apply blank_app; [exact Bc|].
        apply blank_app; [|exact Bs].
        unfold spaceAfter. destruct (is_empty cur); repeat constructor.
      - intros cur p Bc Bp _. apply blank_app; [exact Bc|].
        apply blank_app; [repeat constructor|exact Bp].
      - intros p Ip. pose proof (paragraphs_blank text p Hb Ip) as Bp.
        split; intros _; [|exact Bp].
        apply Forall_forall. intros s Is.
        now apply (sentences_blank p s). }
    destruct (chunkText_cases text maxLen) as [[_ E]|[Hn _]]; [exact E|].
    destruct (collectChunks text maxLen) as [|c l]; [congruence|].
    inversion F as [|? ? K _]. destruct K.
Qed.

(** ** A short text is one chunk *)

Lemma split_go_nonempty sepAt s : forall skip cur,
  split_go sepAt skip cur s <> [].
Proof.
  induction s as [|c r IH]; intros skip cur; simpl; [discriminate|].
  destruct skip; [|apply IH].
  destruct (sepAt (c :: r)); [apply IH|discriminate].
Qed.

Lemma join_cons sep x l :
  l <> [] -> join sep (x :: l) = x ++ sep ++ join sep l.
Proof. destruct l; [congruence|reflexivity]. Qed.

(** Without carriage returns the separator is two line feeds. *)
Lemma sep_blankLine_plain s n :
  ~ In 13%N s -> sep_blankLine s = S n ->
  n = 1 /\ exists r, s = 10%N :: 10%N :: r.
Proof.
  intros NoCR. unfold sep_blankLine, optionalCR.
  destruct s as [|c s]; [discriminate|].
  destruct (N.eqb_spec c 13) as [->|_]; [exfalso; apply NoCR; now left|].
  cbn [skipn lineFeedAt].
  destruct (N.eqb_spec c 10) as [->|_]; [|discriminate].
  destruct s as [|d s]; [discriminate|].
  destruct (N.eqb_spec d 13) as [->|_];
    [exfalso; apply NoCR; right; now left|].
  cbn [skipn lineFeedAt].
  destruct (N.eqb_spec d 10) as [->|_]; [|discriminate].
  intros [= <-]. split; [reflexivity|]. now exists s.
Qed.

Lemma sep_blankLine_not_at_start s :
  ~ In 13%N s -> startsWith s blankLine = false -> sep_blankLine s = 0.
Proof.
  intros NoCR S0. destruct (sep_blankLine s) eqn:E; [reflexivity|].
  destruct (sep_blankLine_plain _ _ NoCR E) as [_ [r ->]].
  cbn in S0. now destruct r.
Qed.

(** Splitting on blank lines and joining with ["\n\n"] gives the text
    back. *)
Lemma join_split_blankLine s : forall skip cur,
  ~ In 13%N s ->
  join blankLine (split_go sep_blankLine skip cur s) = rev cur ++ skipn skip s.
Proof.
  induction s as [|c r IH]; intros skip cur NoCR.
  - destruct skip; simpl; now rewrite app_nil_r.
  - assert (NoCR' : ~ In 13%N r) by (intros I; apply NoCR; now right).
    cbn [split_go]. destruct skip as [|n]; [|now rewrite IH].
    destruct (sep_blankLine (c :: r)) as [|n] eqn:E.
    + rewrite IH by assumption. cbn [rev skipn]. now rewrite <- app_assoc.
    + destruct (sep_blankLine_plain _ _ NoCR E) as [-> [r' [= -> ->]]].
      rewrite join_cons by apply split_go_nonempty.
      rewrite IH by assumption. reflexivity.
Qed.

Lemma first_piece_nonempty sepAt s : forall skip cur p l,
  split_go sepAt skip cur s = p :: l -> cur <> [] -> p <> [].
Proof.
  induction s as [|c r IH]; intros skip cur p l; cbn [split_go].
  - intros [= <- _] Hn E. apply Hn.
    apply (f_equal (@rev _)) in E. now rewrite rev_involutive in E.
  - destruct skip; [|apply IH].
    destruct (sepAt (c :: r)).
    + intros E _. apply (IH _ _ _ _ E). discriminate.
    + intros [= <- _] Hn E. apply Hn.
      apply (f_equal (@rev _)) in E. now rewrite rev_involutive in E.
Qed.

Lemma break_length cur p : length cur <= length (paragraphWithBreak cur p).
Proof.
  unfold paragraphWithBreak. destruct cur; simpl; [lia|].
  rewrite length_app. simpl. lia.
Qed.

Lemma break_length_r cur p : length p <= length (paragraphWithBreak cur p).
Proof.
  unfold paragraphWithBreak. destruct cur; simpl; [lia|].
  rewrite length_app. simpl. lia.
Qed.

Lemma fold_break_length ps : forall cur,
  length cur <= length (fold_left paragraphWithBreak ps cur).
Proof.
  induction ps as [|p ps IH]; intros cur; simpl; [lia|].
  etransitivity; [apply (break_length cur p)|apply IH].
Qed.

Lemma fold_addParagraph_short maxLen ps : forall cs cur,
  length (fold_left paragraphWithBreak ps cur) <= maxLen ->
  fold_left (addParagraph maxLen) ps {| chunks := cs; current := cur |}
  = {| chunks := cs; current := fold_left paragraphWithBreak ps cur |}.
Proof.
  induction ps as [|p ps IH]; intros cs cur L; [reflexivity|].
  cbn [fold_left] in *.
  pose proof (fold_break_length ps (paragraphWithBreak cur p)) as L1.
  pose proof (break_length_r cur p) as L2.
  unfold addParagraph at 2. cbn [current chunks].
  replace (Nat.ltb maxLen (length p)) with false
    by (symmetry; apply Nat.ltb_ge; lia).
  replace (Nat.ltb maxLen (length (paragraphWithBreak cur p))) with false
    by (symmetry; apply Nat.ltb_ge; lia).
  now apply IH.
Qed.

Lemma fold_break_join ps : forall cur,
  cur <> [] -> fold_left paragraphWithBreak ps cur = join blankLine (cur :: ps).
Proof.
  induction ps as [|p ps IH]; intros cur Hn; [reflexivity|].
  cbn [fold_left].
  assert (G : paragraphWithBreak cur p = cur ++ blankLine ++ p)
    by (destruct cur; [congruence|reflexivity]).
  rewrite G. rewrite IH by (destruct cur; [congruence|discriminate]).
  destruct ps as [|q ps]; [reflexivity|].
  change (join blankLine ((cur ++ blankLine ++ p) :: q :: ps))
    with ((cur ++ blankLine ++ p) ++ blankLine ++ join blankLine (q :: ps)).
  change (join blankLine (cur :: p :: q :: ps))
    with (cur ++ blankLine ++ p ++ blankLine ++ join blankLine (q :: ps)).
  now rewrite <- !app_assoc.
Qed.

Lemma collectChunks_short (text : jsstring) (maxLen : nat) :
  length text <= maxLen ->
  ~ In 13%N text ->
  startsWith text blankLine = false ->
  collectChunks text maxLen
  = chunks (flush {| chunks := []; current := text |}).
Proof.
  intros L NoCR S0.
  unfold collectChunks. f_equal. f_equal.
  pose proof (join_split_blankLine text 0 [] NoCR) as J.
  cbn [rev skipn app] in J. fold (split sep_blankLine text) in J.
  destruct text as [|c t] eqn:Et; [reflexivity|]. rewrite <- Et in *.
  destruct (split sep_blankLine text) as [|p ps] eqn:Es.
  { exfalso. revert Es. apply split_go_nonempty. }
  assert (Np : p <> []).
  { pose proof (sep_blankLine_not_at_start text NoCR S0) as Z.
    unfold split in Es. rewrite Et in Es, Z. cbn [split_go] in Es.
    rewrite Z in Es. apply (first_piece_nonempty _ _ _ _ _ _ Es).
    discriminate. }
  assert (G : fold_left paragraphWithBreak (p :: ps) [] = text).
  { cbn [fold_left]. unfold paragraphWithBreak at 2. cbn [is_empty].
    now rewrite fold_break_join. }
  rewrite fold_addParagraph_short by (rewrite G; exact L).
  now rewrite G.
Qed.

(** X3.  A short text is one chunk.  A text of at most [maxLen] code
    units that contains no carriage return and does not begin with a
    blank line is returned as a single chunk, the text itself. *)
Theorem chunkText_short_text (text : jsstring) (maxLen : nat) :
  length text <= maxLen ->
  ~ In 13%N text ->
  startsWith text blankLine = false ->
  chunkText text maxLen = [text].
Proof.
  intros L NoCR S0. unfold chunkText.
  rewrite collectChunks_short by assumption.
  unfold flush. cbn [chunks current].
  now destruct (Nat.ltb 0 (length (trim text))).
Qed.

(** X4.  One request for a short text.  For a text of at most 2000 code
    units with no carriage return and no blank line at its start,
    [translate] makes one request, for the whole text: it throws what
    the request throws, or "Online translation failed: <status>" when
    the response is not ok, and otherwise returns the translation of the
    response, or the text itself when the response carries none. *)
Theorem translate_short_text fetch (text sourceLang targetLang : jsstring) :
  length text <= 2000 ->
  ~ In 13%N text ->
  startsWith text blankLine = false ->
  translate fetch text sourceLang targetLang
  = match fetch 0 text sourceLang targetLang with
    | Thrown e => Thrown e
    | Returned res =>
      if ok res then
        match translation res with
        | Thrown e => Thrown e
        | Returned (Some t) => Returned t
        | Returned None => Returned text
        end
      else Thrown (lit "Online translation failed: " ++ decimal (status res))
    end.
Proof.
  intros L NoCR S0. unfold translate, defaultMaxLen.
  replace (chunkText text 2000) with [text].
  2: { unfold chunkText. rewrite collectChunks_short by assumption.
       unfold flush. cbn [chunks current].
       now destruct (Nat.ltb 0 (length (trim text))). }
  cbn [translateChunks].
  destruct (fetch 0 text sourceLang targetLang) as [res|e]; [|reflexivity].
  destruct (ok res); cbn [negb]; [|reflexivity].
  destruct (translation res) as [[t|]|e]; reflexivity.
Qed.

(** ** Examples *)

Import Cases.

Lemma chunkText_chunk_size_witness :
  Forall (fun c => length c <= 12) (chunkText twoParagraphs 12)
  /\ chunkText (lit "  ") 1 = [lit "  "].
Proof.
  split.
  - apply (chunkText_chunk_size twoParagraphs 12); [vm_compute; discriminate|].
    intros p s Ip L Is. vm_compute in Ip.
    destruct Ip as [<-|[<-|[]]].
    + vm_compute in Is. destruct Is as [<-|[<-|[<-|[]]]]; vm_compute; lia.
    + vm_compute in L. lia.
  - apply (chunkText_chunk_size (lit "  ") 1). vm_compute. reflexivity.
Defined.

(** The long paragraph is cut after its sentences, the short one is
    kept whole. *)
Example chunkText_twoParagraphs :
  chunkText twoParagraphs 12
  = [lit "One."; lit "Two three."; lit "Four."; lit "Five."].
Proof. vm_compute. reflexivity. Qed.

Lemma chunkText_short_text_witness :
  chunkText question 2000 = [question].
Proof.
  apply (chunkText_short_text question 2000).
  - vm_compute. lia.
  - apply not_In_by_existsb. vm_compute. reflexivity.
  - vm_compute. reflexivity.
Defined.

Lemma translate_short_text_witness :
  translate silentEndpoint question (lit "en") (lit "ne") = Returned question.
Proof.
  rewrite (translate_short_text silentEndpoint question (lit "en") (lit "ne")).
  - reflexivity.
  - vm_compute. lia.
  - apply not_In_by_existsb. vm_compute. reflexivity.
  - vm_compute. reflexivity.
Defined.

End OnlineFacts.

(* ================================================================== *)
(** * More properties of the fallback translation service *)
(* ================================================================== *)

Module FallbackMore.
Import JS Regex Fallback JSFacts ObjectFacts FallbackFacts.

(** ** Supported pairs *)

(** X5.  The list of supported pairs.  [isLanguagePairSupported] answers
    [true] for exactly the pairs whose key [getSupportedLanguagePairs]
    lists. *)
Theorem supported_pairs_are_listed (sourceLang targetLang : jsstring) :
  isLanguagePairSupported sourceLang targetLang = true
  <-> In (pairKey sourceLang targetLang) getSupportedLanguagePairs.
Proof.
  unfold isLanguagePairSupported, getSupportedLanguagePairs.
  rewrite <- own_get_keys.
  destruct (own_get translations (pairKey sourceLang targetLang));
    split; congruence.
Qed.

Section WithHost.
Context {H : Host}.

(** X6.  Where [translate] can throw.  On a string, [translate] returns
    a value whenever the translation is not bridged through English in
    two steps: when the pair has a dictionary, or the target is English,
    or the source language has no dictionary to English, or English has
    none to the target. *)
Theorem translate_returns_without_bridge
        (text sourceLang targetLang : jsstring) :
  isLanguagePairSupported sourceLang targetLang = true
  \/ str_eqb targetLang (lit "en") = true
  \/ isLanguagePairSupported sourceLang (lit "en") = false
  \/ isLanguagePairSupported (lit "en") targetLang = false ->
  exists v, translate (Own text) sourceLang targetLang = Returned v.
Proof.
  unfold isLanguagePairSupported, translate. intros Hc.
  destruct (own_get translations (pairKey sourceLang targetLang)) as [d|].
  { apply translateComplexText_returns. }
  destruct (own_get translations (pairKey sourceLang (lit "en")))
    as [toEnglish|].
  2: { destruct (str_eqb targetLang (lit "en")); eauto. }
  destruct (str_eqb targetLang (lit "en")).
  { apply translateComplexText_returns. }
  destruct (own_get translations (pairKey (lit "en") targetLang))
    as [fromEnglish|].
  2: { apply translateComplexText_returns. }
  destruct Hc as [Hc|[Hc|[Hc|Hc]]]; discriminate.
Qed.

(** ** Pattern rules *)

(** X7.  The first matching rule wins.  The rules of a language pair are
    tried in declaration order on the trimmed text: the first rule
    whose pattern matches gives the result, its template instantiated
    with the captures, and no later rule is consulted. *)
Theorem first_matching_rule_wins
        (text sourceLang targetLang : jsstring) pre r post m :
  own_get patternRules (pairKey sourceLang targetLang)
  = Some (pre ++ r :: post) ->
  (forall r', In r' pre -> match_ (pattern r') (trim text) = None) ->
  match_ (pattern r) (trim text) = Some m ->
  applyPatternRules text sourceLang targetLang
  = Some (substituteGroups 1 m (template r)).
Proof.
  intros G Hpre Hm. unfold applyPatternRules. rewrite G.
  now apply (applyRules_first_match _ pre r post).
Qed.

(** ** Segmenter *)

Lemma filter_existsb {A} (p : A -> bool) l :
  0 < length (filter p l) -> existsb p l = true.
Proof.
  induction l as [|x l IH]; simpl; [lia|].
  destruct (p x); simpl; [reflexivity|exact IH].
Qed.

(** X8.  The classes of the segmenter are nested.  A text classified
    as a paragraph is also classified as a sentence, and a text
    classified as a sentence that contains no sentence terminator is
    also classified as a phrase; so the word branch of
    [translateComplexText] is reached only by texts of at most one word
    without sentence terminator. *)
Theorem segmenter_classes_are_nested (text : jsstring) :
  (isParagraph text = true -> isSentence text = true)
  /\ (isSentence text = true -> existsb isSentenceEnder text = false ->
      isPhrase text = true)
  /\ (isPhrase text = false -> isSentence text = false ->
      length (split_ws (trim text)) <= 1
      /\ forall c, In c text -> isSentenceEnder c = false).
Proof.
  unfold isParagraph, isSentence, isPhrase. split; [|split].
  - intros P. apply Nat.ltb_lt in P. rewrite filter_existsb by lia.
    reflexivity.
  - intros S E. rewrite E in S. cbn [orb] in S.
    apply Nat.ltb_lt in S. apply Nat.ltb_lt. lia.
  - intros P S. apply Nat.ltb_ge in P. split; [exact P|].
    apply orb_false_iff in S as [S _]. intros c I.
    destruct (isSentenceEnder c) eqn:E; [|reflexivity].
    assert (T : existsb isSentenceEnder text = true)
      by (apply existsb_exists; eauto).
    congruence.
Qed.

(** ** Chunks of a sentence *)







End WithHost.

(** ** Examples *)

Import BasicHost.

Lemma translate_returns_without_bridge_witness :
  exists v,
    translate (Own (lit "constructor")) (lit "fr") (lit "en") = Returned v.
Proof.
  apply (translate_returns_without_bridge (H := basicHost)
           (lit "constructor") (lit "fr") (lit "en")).
  left. vm_compute. reflexivity.
Defined.

Lemma first_matching_rule_wins_witness :
  applyPatternRules (lit "my name is Sam") (lit "en") (lit "ne")
  = Some (lit "मेरो नाम Sam हो").
Proof.
  refine (first_matching_rule_wins (H := basicHost)
            (lit "my name is Sam") (lit "en") (lit "ne")
            [rule pat_this_is "यो $1 हो"]
            (rule pat_my_name_is "मेरो नाम $1 हो")
            [rule pat_i_am "म $1 हुँ";
             rule pat_how_are_you "तपाईं कस्तो हुनुहुन्छ?"]
            [Some (lit "Sam")] _ _ _).
  - vm_compute. reflexivity.
  - intros r' [<-|[]]. vm_compute. reflexivity.
  - vm_compute. reflexivity.
Defined.

Lemma segmenter_classes_are_nested_witness :
  isSentence (lit "Hello. Thank you.") = true
  /\ isPhrase (lit "one two three four") = true.
Proof.
  split.
  - apply (proj1 (segmenter_classes_are_nested (lit "Hello. Thank you."))).
    vm_compute. reflexivity.
  - apply (proj1 (proj2 (segmenter_classes_are_nested
                           (lit "one two three four"))));
      vm_compute; reflexivity.
Defined.


(** Four words make two chunks. *)
Example chunks_of_four_words :
  splitIntoMeaningfulChunks (lit " one two  three four ")
  = [lit "one two three"; lit "four"].
Proof. vm_compute. reflexivity. Qed.

End FallbackMore.

(* ================================================================== *)
(** * More properties of the offline translation service *)
(* ================================================================== *)

Module OfflineMore.
Import JS Numbers Offline JSFacts ObjectFacts NumberFacts OfflineFacts
       Invariants.

Section WithHost.
Context {H : Host} {NUM : Number}.

(** ** The registered packs and their dictionaries *)

Lemma registry_obj_set ps k p p' :
  own_get ps k = Some p -> size p' = size p ->
  registry (obj_set ps k p') = registry ps.
Proof.
  intros G S. unfold registry.
  induction ps as [|[k0 p0] ps IH]; simpl in *; [discriminate|].
  destruct (str_eqb k0 k) eqn:E; simpl.
  - injection G as ->. now rewrite S.
  - now rewrite IH.
Qed.

Lemma registered_codes ps k p :
  registry ps = registered -> own_get ps k = Some p ->
  k = lit "ne" \/ k = lit "si".
Proof.
  intros R G. apply own_get_In in G.
  apply (in_map (fun kp => (fst kp, size (snd kp)))) in G.
  fold (registry ps) in G. rewrite R in G. simpl in G.
  destruct G as [[= <- _]|[[= <- _]|[]]]; auto.
Qed.

Lemma registered_dictionary ps k p :
  registry ps = registered -> own_get ps k = Some p ->
  exists d, own_get dictionaries k = Some d.
Proof.
  intros R G. destruct (registered_codes _ _ _ R G) as [->| ->];
    eexists; reflexivity.
Qed.

(** The pack of [langCode] after its dictionary is loaded and it is
    marked downloaded, in either order. *)
Lemma install_packs (st st' : State) langCode pack d :
  own_get (languagePacks st) langCode = Some pack ->
  own_get dictionaries langCode = Some d ->
  st' = loadLanguageDictionary (setDownloaded st langCode true) langCode
  \/ st' = setDownloaded (loadLanguageDictionary st langCode) langCode true ->
  registry (languagePacks st') = registry (languagePacks st)
  /\ forall k,
       own_get (languagePacks st') k =
       if str_eqb langCode k
       then Some (set_isDownloaded (set_dictionary pack d) true)
       else own_get (languagePacks st) k.
Proof.
  intros G D [-> | ->].
  - unfold setDownloaded. rewrite G.
    unfold loadLanguageDictionary. cbn [languagePacks with_packs].
    rewrite own_get_obj_set_same, D. cbn [languagePacks with_packs].
    split.
    + erewrite registry_obj_set;
        [|apply own_get_obj_set_same|reflexivity].
      now apply registry_obj_set with (p := pack).
    + intros k. rewrite !own_get_obj_set_eq.
      now destruct (str_eqb langCode k).
  - unfold loadLanguageDictionary. rewrite G, D.
    unfold setDownloaded. cbn [languagePacks with_packs].
    rewrite own_get_obj_set_same. cbn [languagePacks with_packs].
    split.
    + erewrite registry_obj_set;
        [|apply own_get_obj_set_same|reflexivity].
      now apply registry_obj_set with (p := pack).
    + intros k. rewrite !own_get_obj_set_eq.
      now destruct (str_eqb langCode k).
Qed.

Lemma install_consistent (st st' : State) langCode pack :
  consistent st ->
  own_get (languagePacks st) langCode = Some pack ->
  st' = loadLanguageDictionary (setDownloaded st langCode true) langCode
  \/ st' = setDownloaded (loadLanguageDictionary st langCode) langCode true ->
  consistent st'.
Proof.
  intros [R C] G E.
  destruct (registered_dictionary _ _ _ R G) as [d D].
  destruct (install_packs st st' langCode pack d G D E) as [R' G'].
  split; [now rewrite R'|].
  intros k p. rewrite G'. destruct (str_eqb langCode k) eqn:Ek.
  - apply str_eqb_eq in Ek as <-. intros [= <-]. exact D.
  - apply C.
Qed.

Lemma uninstall_packs (st : State) langCode pack :
  own_get (languagePacks st) langCode = Some pack ->
  registry (languagePacks
              (clearDictionary (setDownloaded st langCode false) langCode))
  = registry (languagePacks st)
  /\ forall k,
       own_get (languagePacks
                  (clearDictionary (setDownloaded st langCode false) langCode))
               k =
       if str_eqb langCode k
       then Some (set_dictionary (set_isDownloaded pack false) [])
       else own_get (languagePacks st) k.
Proof.
  intros G. unfold setDownloaded. rewrite G.
  unfold clearDictionary. cbn [languagePacks with_packs].
  rewrite own_get_obj_set_same. cbn [languagePacks with_packs].
  split.
  - erewrite registry_obj_set; [|apply own_get_obj_set_same|reflexivity].
    now apply registry_obj_set with (p := pack).
  - intros k. rewrite !own_get_obj_set_eq. now destruct (str_eqb langCode k).
Qed.

Lemma construct_consistent now cached status :
  consistent (construct now cached status).
Proof.
  unfold construct, loadCachedTranslations.
  match goal with
  | |- consistent (fold_left ?f status ?s0) =>
    assert (I0 : consistent s0); [|generalize dependent s0]
  end.
  { split.
    - destruct cached; reflexivity.
    - intros k p G. apply own_get_In in G.
      assert (I : In (k, p) (initializeLanguagePacks now))
        by (destruct cached; exact G).
      simpl in I. destruct I as [[= <- <-]|[[= <- <-]|[]]]; reflexivity. }
  induction status as [|[k b] status IH]; intros s0 I0; simpl;
    [assumption|].
  apply IH.
  destruct (own_get (languagePacks s0) k) as [p|] eqn:G; [|assumption].
  destruct b; [|assumption].
  apply (install_consistent s0 _ k p I0 G). now left.
Qed.

Lemma reachable_consistent st : reachable st -> consistent st.
Proof.
  induction 1 as [now cached status|st st' R IH S].
  - apply construct_consistent.
  - destruct S as [st k b progress st' E|st text sl tl now r st' E
                   |st k b st' E|st].
    + unfold downloadLanguagePack in E.
      destruct (own_get (languagePacks st) k) as [p|] eqn:G; [|discriminate].
      injection E as _ _ <-.
      assert (C : consistent
                    (setDownloaded (loadLanguageDictionary st k) k true))
        by (apply (install_consistent st _ k p IH G); now right).
      exact C.
    + apply translateOffline_packs in E.
      destruct IH as [R0 C0]. split; rewrite E; assumption.
    + unfold removeLanguagePack in E.
      destruct (own_get (languagePacks st) k) as [p|] eqn:G.
      * injection E as _ <-. destruct IH as [R0 C0].
        destruct (uninstall_packs st k p G) as [R1 G1].
        split; cbn [languagePacks with_cache saveLanguagePackStatus with_status].
        -- now rewrite R1.
        -- intros k' p'. rewrite G1. destruct (str_eqb k k').
           ++ intros [= <-]. reflexivity.
           ++ apply C0.
      * now injection E as _ <-.
    + destruct IH as [R0 C0]. split.
      * unfold clearOfflineData, registry in *. cbn [languagePacks].
        rewrite map_map. cbn [fst snd]. rewrite <- R0. apply map_ext.
        now intros [k p].
      * intros k p. unfold clearOfflineData. cbn [languagePacks].
        rewrite (own_get_map
                   (fun p => set_dictionary (set_isDownloaded p false) [])).
        destruct (own_get (languagePacks st) k); [|discriminate].
        intros [= <-]. reflexivity.
Qed.

(** X10.  Installed dictionaries.  In every state the service can reach,
    a pack marked downloaded holds the complete dictionary of its
    language, and a pack that is not marked downloaded holds an empty
    one. *)
Theorem downloaded_pack_holds_its_dictionary st langCode pack :
  reachable st ->
  own_get (languagePacks st) langCode = Some pack ->
  if isDownloaded pack
  then own_get dictionaries langCode = Some (dictionary pack)
  else dictionary pack = [].
Proof.
  intros R G. destruct (reachable_consistent st R) as [_ C].
  exact (C langCode pack G).
Qed.

Lemma sumSizes_registry ps :
  sumSizes (map snd ps) = fold_left add (map snd (registry ps)) zero.
Proof.
  unfold sumSizes, registry. generalize zero.
  induction ps as [|[k p] ps IH]; intros a; simpl; [reflexivity|]. apply IH.
Qed.

(** X11.  The registered packs never change.  In every reachable state
    the storage summary counts two packs, and its total size is the
    sum of the two declared sizes, 15.5 and 12.3: no operation adds or
    deletes a pack, or changes a size. *)
Theorem registered_packs_are_fixed st :
  reachable st ->
  availablePacks (getStorageInfo st) = 2
  /\ totalSize (getStorageInfo st)
     = add (add zero (ofHundredths 1550)) (ofHundredths 1230).
Proof.
  intros R. destruct (reachable_consistent st R) as [E _].
  unfold getStorageInfo. cbn [availablePacks totalSize].
  split.
  - rewrite length_map.
    rewrite <- (length_map (fun kp => (fst kp, size (snd kp)))).
    fold (registry (languagePacks st)). now rewrite E.
  - rewrite sumSizes_registry, E. reflexivity.
Qed.

(** ** The cache *)

(** X12.  A translation is computed once a day.  When a call of
    [translateOffline] is not answered from the cache (there is no
    entry for the text and the pair, or it is older than 24 hours), it
    returns the translation computed from the dictionary of the pack
    and stores it: the cache then holds, under the key of the request,
    an entry with that translation and the time of the call.  The same
    call made less than 24 hours later returns the same translation
    and changes nothing. *)
Theorem translateOffline_repeated st text sourceLang targetLang now now' :
  isLanguagePackDownloaded st sourceLang = true ->
  (forall entry,
     own_get (translationCache st) (cacheKey text sourceLang targetLang)
     = Some entry -> isRecent now entry = false) ->
  (now' - now < 24 * 60 * 60 * 1000)%Z ->
  exists pack r st1 entry,
    own_get (languagePacks st) sourceLang = Some pack
    /\ r = computeTranslation text (dictionary pack)
    /\ translateOffline st text sourceLang targetLang now = Returned (r, st1)
    /\ own_get (translationCache st1) (cacheKey text sourceLang targetLang)
       = Some entry
    /\ translation entry = r
    /\ timestamp entry = Some now
    /\ translateOffline st1 text sourceLang targetLang now'
       = Returned (r, st1).
Proof.
  intros D Old Soon.
  assert (P : exists pack, own_get (languagePacks st) sourceLang = Some pack).
  { unfold isLanguagePackDownloaded in D.
    destruct (own_get (languagePacks st) sourceLang); [eauto|discriminate]. }
  destruct P as [pack P].
  set (key := cacheKey text sourceLang targetLang) in *.
  set (t := computeTranslation text (dictionary pack)).
  set (entry := {| translation := t;
                   confidence := if str_eqb t text then ofHundredths 30
                                 else ofHundredths 80;
                   timestamp := Some now |}).
  exists pack, t, (with_cache st (obj_set (translationCache st) key entry)),
    entry.
  split; [exact P|]. split; [reflexivity|].
  assert (E1 : translateOffline st text sourceLang targetLang now
               = Returned (t, with_cache st (obj_set (translationCache st)
                                                     key entry))).
  { unfold translateOffline. rewrite D. cbn [negb].
    rewrite cache_read_is_own. fold key.
    destruct (own_get (translationCache st) key) as [e|] eqn:C.
    - rewrite (Old e eq_refl). rewrite P. reflexivity.
    - rewrite P. reflexivity. }
  split; [exact E1|].
  split; [cbn [translationCache with_cache]; apply own_get_obj_set_same|].
  split; [reflexivity|]. split; [reflexivity|].
  unfold translateOffline.
  replace (isLanguagePackDownloaded
             (with_cache st (obj_set (translationCache st) key entry))
             sourceLang) with true by (symmetry; exact D).
  cbn [negb]. rewrite cache_read_is_own. fold key.
  cbn [translationCache with_cache].
  rewrite own_get_obj_set_same.
  unfold isRecent, TTL. cbn [timestamp entry].
  replace (now' - now <? 24 * 60 * 60 * 1000)%Z with true
    by (symmetry; now apply Z.ltb_lt).
  reflexivity.
Qed.

(** X13.  What a translation leaves untouched.  A call of
    [translateOffline] that returns changes neither the packs nor the
    persisted status, and no cache entry other than the one of its own
    text and language pair. *)
Theorem translateOffline_frame st text sourceLang targetLang now r st' :
  translateOffline st text sourceLang targetLang now = Returned (r, st') ->
  languagePacks st' = languagePacks st
  /\ languagePackStatus st' = languagePackStatus st
  /\ forall key,
       key <> cacheKey text sourceLang targetLang ->
       own_get (translationCache st') key = own_get (translationCache st) key.
Proof.
  unfold translateOffline.
  destruct (negb (isLanguagePackDownloaded st sourceLang)); [discriminate|].
  assert (W : forall pack e,
             Returned
               (e, with_cache st
                     (obj_set (translationCache st)
                              (cacheKey text sourceLang targetLang) pack))
             = Returned (r, st') ->
             languagePacks st' = languagePacks st
             /\ languagePackStatus st' = languagePackStatus st
             /\ forall key,
                  key <> cacheKey text sourceLang targetLang ->
                  own_get (translationCache st') key
                  = own_get (translationCache st) key).
  { intros pack e [= _ <-]. repeat split.
    intros key Hk. cbn [translationCache with_cache].
    now apply own_get_obj_set_other. }
  destruct (obj_get (translationCache st)
                    (cacheKey text sourceLang targetLang)) as [[c|n]|].
  - destruct (isRecent now c).
    + intros [= _ <-]. now repeat split.
    + destruct (own_get (languagePacks st) sourceLang); [|discriminate].
      apply W.
  - discriminate.
  - destruct (own_get (languagePacks st) sourceLang); [|discriminate].
    apply W.
Qed.

Lemma translateOffline_computes st text sourceLang targetLang now pack :
  own_get (languagePacks st) sourceLang = Some pack ->
  isDownloaded pack = true ->
  (forall entry,
     own_get (translationCache st) (cacheKey text sourceLang targetLang)
     = Some entry -> isRecent now entry = false) ->
  let t := computeTranslation text (dictionary pack) in
  translateOffline st text sourceLang targetLang now
  = Returned
      (t, with_cache st
            (obj_set (translationCache st)
               (cacheKey text sourceLang targetLang)
               {| translation := t;
                  confidence := if str_eqb t text then ofHundredths 30
                                else ofHundredths 80;
                  timestamp := Some now |})).
Proof.
  intros P D Old. cbv zeta. unfold translateOffline, isLanguagePackDownloaded.
  rewrite P, D. cbn [negb]. rewrite cache_read_is_own.
  destruct (own_get (translationCache st)
                    (cacheKey text sourceLang targetLang)) as [e|] eqn:C.
  - rewrite (Old e eq_refl). reflexivity.
  - reflexivity.
Qed.

(** X14.  An entry of the dictionary is returned.  In a reachable state,
    when the pack of the source language is downloaded and the request
    is not answered from the cache, a text whose trimmed form is a key
    of the dictionary of that language is translated by the value of
    the key (provided the value differs from the text). *)
Theorem dictionary_entry_is_returned
        st text sourceLang targetLang now d v :
  reachable st ->
  isLanguagePackDownloaded st sourceLang = true ->
  own_get dictionaries sourceLang = Some d ->
  map_lookup d (trim text) = Some v ->
  v <> text ->
  (forall entry,
     own_get (translationCache st) (cacheKey text sourceLang targetLang)
     = Some entry -> isRecent now entry = false) ->
  exists st',
    translateOffline st text sourceLang targetLang now = Returned (v, st').
Proof.
  intros R D Hd Hv Hne Old.
  unfold isLanguagePackDownloaded in D.
  destruct (own_get (languagePacks st) sourceLang) as [pack|] eqn:P;
    [|discriminate].
  pose proof (proj2 (reachable_consistent st R) sourceLang pack P) as I.
  unfold installed in I. rewrite D, Hd in I. injection I as ->.
  rewrite (translateOffline_computes st text sourceLang targetLang now pack
             P D Old).
  assert (E : computeTranslation text (dictionary pack) = v).
  { unfold computeTranslation, performDictionaryTranslation. rewrite Hv.
    apply str_eqb_neq in Hne. now rewrite Hne. }
  rewrite E. eauto.
Qed.

Lemma marker_differs (text : jsstring) : lit "[Offline] " ++ text <> text.
Proof.
  intros E. apply (f_equal (@length _)) in E. rewrite length_app in E.
  simpl in E. lia.
Qed.

Lemma map_lookup_In (d : Dictionary) k v :
  map_lookup d k = Some v -> exists k', In (k', v) d.
Proof.
  unfold map_lookup. destruct (own_get d k) as [w|] eqn:G; [|discriminate].
  destruct (is_empty w); [discriminate|]. intros [= <-].
  exists k. now apply own_get_In.
Qed.

Lemma computeTranslation_differs text (d : Dictionary) :
  (forall k v, In (k, v) d -> v <> text) ->
  computeTranslation text d <> text.
Proof.
  intros Hd. unfold computeTranslation.
  destruct (str_eqb (performDictionaryTranslation text d) text) eqn:E;
    [|now apply str_eqb_neq].
  unfold performPhraseTranslation.
  destruct (find _ d) as [[k v]|] eqn:F.
  - apply find_some in F as [I _]. now apply (Hd k v).
  - apply marker_differs.
Qed.

(** X15.  A text never comes back unchanged.  When no value of the
    dictionary of the pack is the text itself, a translation that is
    computed differs from the text (a text that matches nothing comes
    back behind the marker "[Offline] "), and the entry put in the
    cache has confidence 0.8: the confidence 0.3 is never recorded. *)
Theorem computed_translation_differs_from_text
        st text sourceLang targetLang now pack :
  own_get (languagePacks st) sourceLang = Some pack ->
  isDownloaded pack = true ->
  (forall k v, In (k, v) (dictionary pack) -> v <> text) ->
  (forall entry,
     own_get (translationCache st) (cacheKey text sourceLang targetLang)
     = Some entry -> isRecent now entry = false) ->
  exists r st' e,
    translateOffline st text sourceLang targetLang now = Returned (r, st')
    /\ r <> text
    /\ own_get (translationCache st') (cacheKey text sourceLang targetLang)
       = Some e
    /\ translation e = r
    /\ confidence e = ofHundredths 80.
Proof.
  intros P D Hd Old.
  pose proof (computeTranslation_differs text (dictionary pack) Hd) as N0.
  rewrite (translateOffline_computes st text sourceLang targetLang now pack
             P D Old).
  eexists _, _, _. split; [reflexivity|]. split; [exact N0|].
  cbn [translationCache with_cache]. rewrite own_get_obj_set_same.
  split; [reflexivity|]. split; [reflexivity|].
  cbn [confidence]. apply str_eqb_neq in N0. now rewrite N0.
Qed.

(** ** Restarting the service *)








(** ** Removing packs *)

(** X17.  Removing a pack.  After [removeLanguagePack] for a registered
    language, [translateOffline] from that language throws, no cached
    translation from that language is left, and the cached
    translations from any other language are kept (language codes
    contain no hyphen). *)
Theorem removeLanguagePack_forgets_the_language st langCode pack :
  own_get (languagePacks st) langCode = Some pack ->
  ~ In 45%N langCode ->
  exists st',
    removeLanguagePack st langCode = (true, st')
    /\ (forall text targetLang now,
          translateOffline st' text langCode targetLang now
          = Thrown (lit "Language pack not downloaded: " ++ langCode))
    /\ (forall text targetLang,
          own_get (translationCache st') (cacheKey text langCode targetLang)
          = None)
    /\ (forall text sourceLang targetLang,
          sourceLang <> langCode -> ~ In 45%N sourceLang ->
          own_get (translationCache st') (cacheKey text sourceLang targetLang)
          = own_get (translationCache st)
                    (cacheKey text sourceLang targetLang)).
Proof.
  intros G Hl.
  destruct (removeLanguagePack_effect st langCode pack G)
    as (st' & E & (p' & Gp & Dp & _) & _ & C).
  exists st'. split; [exact E|]. split; [|split].
  - intros text targetLang now. unfold translateOffline.
    unfold isLanguagePackDownloaded. now rewrite Gp, Dp.
  - intros text targetLang. now rewrite C, cacheKey_own_language.
  - intros text sourceLang targetLang Hne Hs.
    now rewrite C, cacheKey_other_language.
Qed.

(** X18.  Clearing the offline data.  After [clearOfflineData] every call
    of [translateOffline] throws, the cache is empty, and the storage
    summary counts no downloaded pack. *)
Theorem clearOfflineData_uninstalls_everything st :
  (forall text sourceLang targetLang now,
     translateOffline (clearOfflineData st) text sourceLang targetLang now
     = Thrown (lit "Language pack not downloaded: " ++ sourceLang))
  /\ translationCache (clearOfflineData st) = []
  /\ downloadedPacks (getStorageInfo (clearOfflineData st)) = 0
  /\ usedSize (getStorageInfo (clearOfflineData st)) = zero
  /\ availablePacks (getStorageInfo (clearOfflineData st))
     = availablePacks (getStorageInfo st).
Proof.
  assert (F : filter isDownloaded
                     (map snd (languagePacks (clearOfflineData st))) = []).
  { unfold clearOfflineData. cbn [languagePacks].
    induction (languagePacks st) as [|[k p] ps IH]; [reflexivity|exact IH]. }
  split; [|split; [|split; [|split]]].
  - intros text sourceLang targetLang now.
    unfold translateOffline, isLanguagePackDownloaded, clearOfflineData.
    cbn [languagePacks].
    rewrite (own_get_map
               (fun p => set_dictionary (set_isDownloaded p false) [])).
    now destruct (own_get (languagePacks st) sourceLang).
  - reflexivity.
  - unfold getStorageInfo. cbn [downloadedPacks]. now rewrite F.
  - unfold getStorageInfo. cbn [usedSize]. now rewrite F.
  - unfold getStorageInfo, clearOfflineData.
    cbn [availablePacks languagePacks]. now rewrite !length_map.
Qed.

End WithHost.

(** ** Examples, on the concrete host and exact numbers *)

Import BasicHost Cases.

Lemma reachable_downloaded : reachable downloaded.
Proof.
  unfold downloaded.
  destruct (downloadLanguagePack initial (lit "ne"))
    as [[[b progress] st]|e] eqn:E.
  - apply reachable_step with (st := initial); [constructor|].
    eapply step_download. exact E.
  - constructor.
Qed.

Lemma downloaded_ne : isLanguagePackDownloaded downloaded (lit "ne") = true.
Proof. vm_compute. reflexivity. Qed.

Lemma downloaded_cache_empty (key : jsstring) (entry : CacheEntry) :
  own_get (translationCache downloaded) key = Some entry ->
  isRecent 5 entry = false.
Proof. intros G. vm_compute in G. discriminate. Qed.

Lemma downloaded_pack_holds_its_dictionary_witness :
  exists pack,
    own_get (languagePacks downloaded) (lit "ne") = Some pack
    /\ isDownloaded pack = true
    /\ own_get dictionaries (lit "ne") = Some (dictionary pack).
Proof.
  destruct (own_get (languagePacks downloaded) (lit "ne")) as [pack|] eqn:G;
    [|vm_compute in G; discriminate].
  exists pack. split; [reflexivity|].
  pose proof (downloaded_pack_holds_its_dictionary
                (H := basicHost) (NUM := exactNumber)
                downloaded (lit "ne") pack reachable_downloaded G) as T.
  assert (D : isDownloaded pack = true)
    by (vm_compute in G; injection G as <-; reflexivity).
  rewrite D in T. now split.
Defined.

Lemma registered_packs_are_fixed_witness :
  availablePacks (getStorageInfo downloaded) = 2
  /\ totalSize (getStorageInfo downloaded)
     = add (add zero (ofHundredths 1550)) (ofHundredths 1230).
Proof.
  apply (registered_packs_are_fixed (H := basicHost) (NUM := exactNumber)
           downloaded reachable_downloaded).
Defined.

Lemma translateOffline_repeated_witness :
  exists pack r st1 entry,
    own_get (languagePacks downloaded) (lit "ne") = Some pack
    /\ r = computeTranslation (lit "घर") (dictionary pack)
    /\ translateOffline downloaded (lit "घर") (lit "ne") (lit "en") 5
       = Returned (r, st1)
    /\ own_get (translationCache st1)
               (cacheKey (lit "घर") (lit "ne") (lit "en")) = Some entry
    /\ translation entry = r
    /\ timestamp entry = Some 5%Z
    /\ translateOffline st1 (lit "घर") (lit "ne") (lit "en") 86400004
       = Returned (r, st1).
Proof.
  apply (translateOffline_repeated (H := basicHost) (NUM := exactNumber)
           downloaded (lit "घर") (lit "ne") (lit "en") 5 86400004).
  - vm_compute. reflexivity.
  - intros entry. apply downloaded_cache_empty.
  - lia.
Defined.

Lemma translateOffline_frame_witness :
  languagePacks translated = languagePacks downloaded
  /\ languagePackStatus translated = languagePackStatus downloaded
  /\ forall key,
       key <> cacheKey (lit "घर") (lit "ne") (lit "en") ->
       own_get (translationCache translated) key
       = own_get (translationCache downloaded) key.
Proof.
  apply (translateOffline_frame (H := basicHost) (NUM := exactNumber)
           downloaded (lit "घर") (lit "ne") (lit "en") 5 (lit "Home")).
  vm_compute. reflexivity.
Defined.

Lemma dictionary_entry_is_returned_witness :
  exists st',
    translateOffline downloaded (lit " घर ") (lit "ne") (lit "en") 5
    = Returned (lit "Home", st').
Proof.
  apply (dictionary_entry_is_returned (H := basicHost) (NUM := exactNumber)
           downloaded (lit " घर ") (lit "ne") (lit "en") 5
           (map_of dictionary_ne_source) (lit "Home")).
  - exact reachable_downloaded.
  - vm_compute. reflexivity.
  - vm_compute. reflexivity.
  - vm_compute. reflexivity.
  - vm_compute. discriminate.
  - intros entry. apply downloaded_cache_empty.
Defined.

Lemma computed_translation_differs_from_text_witness :
  exists r st' e,
    translateOffline downloaded (lit "xyz") (lit "ne") (lit "en") 5
    = Returned (r, st')
    /\ r <> lit "xyz"
    /\ own_get (translationCache st')
               (cacheKey (lit "xyz") (lit "ne") (lit "en")) = Some e
    /\ translation e = r
    /\ confidence e = ofHundredths 80.
Proof.
  destruct (own_get (languagePacks downloaded) (lit "ne")) as [pack|] eqn:G;
    [|vm_compute in G; discriminate].
  apply (computed_translation_differs_from_text
           (H := basicHost) (NUM := exactNumber)
           downloaded (lit "xyz") (lit "ne") (lit "en") 5 pack G).
  - vm_compute in G. injection G as <-. reflexivity.
  - vm_compute in G. injection G as <-.
    intros k v I E.
    assert (F : str_eqb (snd (k, v)) (lit "xyz") = false).
    { revert I. apply (none_by_forallb (fun kv => str_eqb (snd kv) (lit "xyz"))).
      vm_compute. reflexivity. }
    apply str_eqb_neq in F. now apply F.
  - intros entry. apply downloaded_cache_empty.
Defined.

(** A text that matches nothing comes back behind the marker. *)
Example translateOffline_xyz :
  match translateOffline downloaded (lit "xyz") (lit "ne") (lit "en") 5 with
  | Returned (r, _) => r = lit "[Offline] xyz"
  | Thrown _ => False
  end.
Proof. vm_compute. reflexivity. Qed.


Lemma removeLanguagePack_forgets_the_language_witness :
  exists st',
    removeLanguagePack translated (lit "ne") = (true, st')
    /\ (forall text targetLang now,
          translateOffline st' text (lit "ne") targetLang now
          = Thrown (lit "Language pack not downloaded: " ++ lit "ne"))
    /\ (forall text targetLang,
          own_get (translationCache st')
                  (cacheKey text (lit "ne") targetLang) = None)
    /\ (forall text sourceLang targetLang,
          sourceLang <> lit "ne" -> ~ In 45%N sourceLang ->
          own_get (translationCache st') (cacheKey text sourceLang targetLang)
          = own_get (translationCache translated)
                    (cacheKey text sourceLang targetLang)).
Proof.
  destruct (own_get (languagePacks translated) (lit "ne")) as [pack|] eqn:G;
    [|vm_compute in G; discriminate].
  apply (removeLanguagePack_forgets_the_language
           (H := basicHost) (NUM := exactNumber)
           translated (lit "ne") pack G).
  apply not_In_by_existsb. vm_compute. reflexivity.
Defined.

End OfflineMore.

(* ================================================================== *)
(** * More properties of the extended offline translation service *)
(* ================================================================== *)

Module OfflineExtMore.
Import JS Numbers OfflineExt JSFacts ObjectFacts NumberFacts OfflineExtFacts
       Invariants.

Section WithHost.
Context {H : Host} {NUM : Number}.

(** ** The stored items only grow *)

Lemma grows_refl st : grows st st.
Proof. now intros k. Qed.

Lemma grows_trans st1 st2 st3 : grows st1 st2 -> grows st2 st3 -> grows st1 st3.
Proof. intros A B k F. apply B, A, F. Qed.

Lemma grows_same st st' : localStorage st' = localStorage st -> grows st st'.
Proof. intros E k. unfold flagged. now rewrite E. Qed.

Lemma setFlag_grows st k : grows st (setFlag st k).
Proof.
  intros k' F. unfold flagged, setFlag in *. cbn [localStorage with_storage].
  rewrite own_get_obj_set_eq.
  destruct (str_eqb (flagKey k) (flagKey k')); [reflexivity|exact F].
Qed.

Lemma setFlag_flagged st k : flagged (setFlag st k) k.
Proof. apply own_get_obj_set_same. Qed.

Lemma updatePack_storage st k f :
  localStorage (updatePack st k f) = localStorage st.
Proof.
  unfold updatePack. now destruct (own_get (languagePacks st) k).
Qed.

Lemma updatePack_cache st k f :
  translationCache (updatePack st k f) = translationCache st.
Proof.
  unfold updatePack. now destruct (own_get (languagePacks st) k).
Qed.

Lemma loadLanguageDictionary_grows st k : grows st (loadLanguageDictionary st k).
Proof.
  unfold loadLanguageDictionary.
  destruct (own_get (languagePacks st) k); [|apply grows_refl].
  destruct (own_get dictionaries k); [|apply grows_refl].
  eapply grows_trans; [|apply setFlag_grows].
  apply grows_same, updatePack_storage.
Qed.

Lemma loadLanguageDictionary_cache st k :
  translationCache (loadLanguageDictionary st k) = translationCache st.
Proof.
  unfold loadLanguageDictionary.
  destruct (own_get (languagePacks st) k); [|reflexivity].
  destruct (own_get dictionaries k); [|reflexivity].
  cbn [translationCache setFlag with_storage]. apply updatePack_cache.
Qed.

Lemma isLanguagePackDownloaded_cases st k :
  snd (isLanguagePackDownloaded st k) = st
  \/ snd (isLanguagePackDownloaded st k) = setFlag st k.
Proof.
  unfold isLanguagePackDownloaded.
  destruct (own_get (localStorage st) (flagKey k)) as [v|].
  - destruct (str_eqb v (lit "true")); [now left|].
    destruct (own_get (languagePacks st) k) as [p|]; [|now left].
    destruct (isDownloaded p); [now right|now left].
  - destruct (own_get (languagePacks st) k) as [p|]; [|now left].
    destruct (isDownloaded p); [now right|now left].
Qed.

Lemma isLanguagePackDownloaded_grows st k :
  grows st (snd (isLanguagePackDownloaded st k)).
Proof.
  destruct (isLanguagePackDownloaded_cases st k) as [-> | ->];
    [apply grows_refl|apply setFlag_grows].
Qed.

Lemma isLanguagePackDownloaded_cache st k :
  translationCache (snd (isLanguagePackDownloaded st k)) = translationCache st.
Proof. now destruct (isLanguagePackDownloaded_cases st k) as [-> | ->]. Qed.

Lemma ensured_grows st k : grows st (ensured st k).
Proof.
  unfold ensured. destruct (negb (fst (isLanguagePackDownloaded st k))).
  - eapply grows_trans; [apply isLanguagePackDownloaded_grows|].
    apply loadLanguageDictionary_grows.
  - apply isLanguagePackDownloaded_grows.
Qed.

Lemma ensured_cache st k : translationCache (ensured st k) = translationCache st.
Proof.
  unfold ensured. destruct (negb (fst (isLanguagePackDownloaded st k))).
  - rewrite loadLanguageDictionary_cache. apply isLanguagePackDownloaded_cache.
  - apply isLanguagePackDownloaded_cache.
Qed.

(** What [translateWithPack] does to the state: the two loads, then
    at most one entry put in the cache, holding the result. *)
Lemma translateWithPack_effect st text sourceLang targetLang key now :
  let r := translateWithPack st text sourceLang targetLang key now in
  let st2 := ensured (ensured st sourceLang) targetLang in
  snd r = st2
  \/ exists confidence, snd r = cachePut st2 key (fst r) confidence now.
Proof.
  unfold translateWithPack. fold (ensured st sourceLang).
  fold (ensured (ensured st sourceLang) targetLang).
  set (st2 := ensured (ensured st sourceLang) targetLang).
  cbv zeta.
  destruct (match own_get (languagePacks st2) sourceLang with
            | Some p => if isDownloaded p then Some p else None
            | None => None
            end) as [p|].
  - destruct (Nat.ltb 0 (length (dictionary p))).
    + destruct (map_lookup (dictionary p) (trim text)); right; eexists;
        cbn [fst snd]; reflexivity.
    + destruct (str_eqb sourceLang (lit "ne")); [right; eexists; cbn [fst snd]; reflexivity|].
      destruct (str_eqb sourceLang (lit "si")); right; eexists; cbn [fst snd]; reflexivity.
  - destruct (str_eqb sourceLang (lit "ne")); [right; eexists; cbn [fst snd]; reflexivity|].
    destruct (str_eqb sourceLang (lit "si")); [right; eexists; cbn [fst snd]; reflexivity|].
    now left.
Qed.

Lemma translateWithPack_grows st text sourceLang targetLang key now :
  grows st (snd (translateWithPack st text sourceLang targetLang key now)).
Proof.
  assert (G : grows st (ensured (ensured st sourceLang) targetLang))
    by (eapply grows_trans; apply ensured_grows).
  destruct (translateWithPack_effect st text sourceLang targetLang key now)
    as [-> | [c ->]]; [exact G|].
  eapply grows_trans; [exact G|]. now apply grows_same.
Qed.

(** The outcomes of [translateOffline], by what happens to the cache. *)
Lemma translateOffline_effect st text sourceLang targetLang now :
  let r := translateOffline st text sourceLang targetLang now in
  let key := cacheKey text (resolvedSource text sourceLang) targetLang in
  (translationCache (snd r) = translationCache st
   /\ (snd r = st
       \/ own_get (translationCache st) key = None))
  \/ (own_get (translationCache st) key = None
      /\ exists v confidence,
           fst r = Some v
           /\ translationCache (snd r)
              = obj_set (translationCache st) key
                        {| translation := v;
                           confidence := ofHundredths confidence;
                           timestamp := Some now |}).
Proof.
  unfold translateOffline, resolvedSource.
  destruct (getHardcodedTranslation text sourceLang); [left; auto|].
  set (sl := if str_eqb sourceLang (lit "auto") then _ else _).
  destruct (str_eqb sl targetLang); [left; auto|].
  unfold obj_get.
  destruct (own_get (translationCache st) (cacheKey text sl targetLang))
    as [c|] eqn:C; [left; auto|].
  destruct (isPrototypeName (cacheKey text sl targetLang)); [left; auto|].
  destruct (str_eqb (sl ++ lit "-" ++ targetLang) (lit "en-ne")).
  { right. split; [reflexivity|]. eexists _, 90%Z. split; reflexivity. }
  destruct (str_eqb (sl ++ lit "-" ++ targetLang) (lit "en-si")).
  { right. split; [reflexivity|]. eexists _, 90%Z. split; reflexivity. }
  cbn [fst snd].
  pose proof (translateWithPack_effect st text sl targetLang
                (cacheKey text sl targetLang) now) as E.
  cbv zeta in E.
  assert (K : translationCache (ensured (ensured st sl) targetLang)
              = translationCache st) by now rewrite !ensured_cache.
  destruct E as [E|[c E]]; rewrite E.
  - left. split; [exact K|now right].
  - right. split; [reflexivity|]. eexists _, c. split; [reflexivity|].
    cbn [cachePut translationCache with_cache]. now rewrite K.
Qed.

(** ** The cache is never refreshed *)

(** X19.  Cache entries are permanent under translation.  A call of
    [translateOffline] never changes or deletes an entry the cache
    already holds: it adds at most one entry, under a key that had
    none. *)
Theorem translateOffline_keeps_cache_entries
        st text sourceLang targetLang now key entry :
  own_get (translationCache st) key = Some entry ->
  own_get (translationCache
             (snd (translateOffline st text sourceLang targetLang now))) key
  = Some entry.
Proof.
  intros G.
  destruct (translateOffline_effect st text sourceLang targetLang now)
    as [[E _]|[M (v & c & _ & E)]]; rewrite E; [exact G|].
  rewrite own_get_obj_set_eq.
  destruct (str_eqb (cacheKey text (resolvedSource text sourceLang) targetLang)
                    key) eqn:K; [|exact G].
  apply str_eqb_eq in K. rewrite K in M. congruence.
Qed.

Lemma translateOffline_hit st text sourceLang targetLang now e :
  getHardcodedTranslation text sourceLang = None ->
  str_eqb (resolvedSource text sourceLang) targetLang = false ->
  own_get (translationCache st)
          (cacheKey text (resolvedSource text sourceLang) targetLang)
  = Some e ->
  translateOffline st text sourceLang targetLang now
  = (Some (translation e), st).
Proof.
  intros Hh Hd Hc. unfold translateOffline. rewrite Hh.
  fold (resolvedSource text sourceLang). rewrite Hd.
  unfold obj_get. now rewrite Hc.
Qed.

(** X20.  An answer that is cached is final.  When a call of
    [translateOffline] leaves an entry for its text and language pair
    in the cache, the same call made again, at any later time, returns
    the same value and changes nothing: the entry has no time limit. *)
Theorem translateOffline_answer_is_final
        st text sourceLang targetLang now now' entry :
  own_get (translationCache
             (snd (translateOffline st text sourceLang targetLang now)))
          (cacheKey text (resolvedSource text sourceLang) targetLang)
  = Some entry ->
  translateOffline
    (snd (translateOffline st text sourceLang targetLang now))
    text sourceLang targetLang now'
  = translateOffline st text sourceLang targetLang now.
Proof.
  set (key := cacheKey text (resolvedSource text sourceLang) targetLang).
  destruct (getHardcodedTranslation text sourceLang) as [h|] eqn:Hh.
  { intros _. unfold translateOffline. now rewrite Hh. }
  destruct (str_eqb (resolvedSource text sourceLang) targetLang) eqn:Hd.
  { intros _. unfold translateOffline. rewrite Hh.
    fold (resolvedSource text sourceLang). now rewrite Hd. }
  destruct (own_get (translationCache st) key) as [c|] eqn:C.
  { intros _.
    rewrite (translateOffline_hit st text sourceLang targetLang now c Hh Hd C).
    cbn [snd].
    apply (translateOffline_hit st text sourceLang targetLang now' c Hh Hd C). }
  intros G.
  assert (S : forall v st1 conf,
             translateOffline st text sourceLang targetLang now
             = (Some v, cachePut st1 key v conf now) ->
             translateOffline
               (snd (translateOffline st text sourceLang targetLang now))
               text sourceLang targetLang now'
             = translateOffline st text sourceLang targetLang now).
  { intros v st1 conf E. rewrite E. cbn [snd].
    rewrite (translateOffline_hit
               (cachePut st1 key v conf now) text sourceLang targetLang now'
               {| translation := v; confidence := ofHundredths conf;
                  timestamp := Some now |} Hh Hd); [reflexivity|].
    fold key. cbn [cachePut translationCache with_cache].
    apply own_get_obj_set_same. }
  revert G S. unfold translateOffline. rewrite Hh.
  fold (resolvedSource text sourceLang). rewrite Hd. fold key.
  unfold obj_get. rewrite C.
  destruct (isPrototypeName key).
  { cbn [snd]. intros G. rewrite C in G. discriminate. }
  destruct (str_eqb (resolvedSource text sourceLang ++ lit "-" ++ targetLang)
                    (lit "en-ne")).
  { intros _ S. eapply S. reflexivity. }
  destruct (str_eqb (resolvedSource text sourceLang ++ lit "-" ++ targetLang)
                    (lit "en-si")).
  { intros _ S. eapply S. reflexivity. }
  cbn [snd].
  pose proof (translateWithPack_effect st text
                (resolvedSource text sourceLang) targetLang key now) as E.
  cbv zeta in E.
  destruct E as [E|[conf E]].
  - intros G. rewrite E, !ensured_cache, C in G. discriminate.
  - intros _ S. eapply S. rewrite E at 1. reflexivity.
Qed.

(** ** Automatic detection *)

Lemma no_hardcoded_translation_for_auto text :
  getHardcodedTranslation text (lit "auto") = None.
Proof.
  unfold getHardcodedTranslation.
  change (str_eqb (lit "auto") (lit "ne")) with false.
  change (str_eqb (lit "auto") (lit "si")) with false.
  reflexivity.
Qed.

Lemma detectLanguage_not_auto text :
  str_eqb (detectLanguage text) (lit "auto") = false.
Proof.
  unfold detectLanguage.
  destruct (existsb _ (firstn 100 text)); [reflexivity|].
  destruct (existsb _ (firstn 100 text)); reflexivity.
Qed.

(** X21.  Automatic detection.  With ['auto'] as source language,
    [translateOffline] does what it does with the language
    [detectLanguage] finds, except that the hard-coded translations are
    not consulted. *)
Theorem translateOffline_auto st text targetLang now :
  getHardcodedTranslation text (detectLanguage text) = None ->
  translateOffline st text (lit "auto") targetLang now
  = translateOffline st text (detectLanguage text) targetLang now.
Proof.
  intros Hh. unfold translateOffline.
  rewrite no_hardcoded_translation_for_auto, Hh.
  rewrite detectLanguage_not_auto.
  change (str_eqb (lit "auto") (lit "auto")) with true. reflexivity.
Qed.

(** ** The registered packs and the stored items *)

Lemma registry_ext_obj_set ps k p p' :
  own_get ps k = Some p -> size p' = size p ->
  registry_ext (obj_set ps k p') = registry_ext ps.
Proof.
  intros G S. unfold registry_ext.
  induction ps as [|[k0 p0] ps IH]; simpl in *; [discriminate|].
  destruct (str_eqb k0 k) eqn:E; simpl.
  - injection G as ->. now rewrite S.
  - now rewrite IH.
Qed.

Lemma updatePack_registry st k f :
  (forall p, size (f p) = size p) ->
  registry_ext (languagePacks (updatePack st k f))
  = registry_ext (languagePacks st).
Proof.
  intros S. unfold updatePack.
  destruct (own_get (languagePacks st) k) as [p|] eqn:G; [|reflexivity].
  cbn [languagePacks with_packs]. now apply registry_ext_obj_set with (p := p).
Qed.

Lemma updatePack_other st k f k' :
  str_eqb k k' = false ->
  own_get (languagePacks (updatePack st k f)) k'
  = own_get (languagePacks st) k'.
Proof.
  intros N0. unfold updatePack.
  destruct (own_get (languagePacks st) k) as [p|]; [|reflexivity].
  cbn [languagePacks with_packs]. now rewrite own_get_obj_set_eq, N0.
Qed.

Lemma updatePack_same st k f :
  own_get (languagePacks (updatePack st k f)) k
  = option_map f (own_get (languagePacks st) k).
Proof.
  unfold updatePack.
  destruct (own_get (languagePacks st) k) as [p|] eqn:G;
    [|now rewrite G].
  cbn [languagePacks with_packs]. now rewrite own_get_obj_set_same.
Qed.

Lemma registered_get ps k :
  registry_ext ps = registered_ext ->
  own_get ps k <> None <->
  (k = lit "ne" \/ k = lit "si" \/ k = lit "en").
Proof.
  intros R. rewrite own_get_keys.
  assert (K : obj_keys ps = [lit "ne"; lit "si"; lit "en"]).
  { unfold obj_keys. apply (f_equal (map fst)) in R.
    unfold registry_ext in R. rewrite map_map in R. exact R. }
  rewrite K. simpl. intuition congruence.
Qed.

Lemma registered_dictionary_ext ps k :
  registry_ext ps = registered_ext -> own_get ps k <> None ->
  exists d, own_get dictionaries k = Some d.
Proof.
  intros R G. apply (registered_get ps k R) in G.
  destruct G as [->|[->| ->]]; eexists; reflexivity.
Qed.

(** An operation that rewrites the pack of one language keeps the
    invariant when it leaves that pack with its stored item, or not
    downloaded. *)
Lemma consistent_on_key (care care' : jsstring -> Prop) st st' k :
  consistent_on care st ->
  registry_ext (languagePacks st') = registry_ext (languagePacks st) ->
  grows st st' ->
  (forall k', str_eqb k k' = false ->
     own_get (languagePacks st') k' = own_get (languagePacks st) k') ->
  (forall k', str_eqb k k' = false -> care' k' -> care k') ->
  (flagged st' k
   \/ forall p, own_get (languagePacks st') k = Some p ->
                isDownloaded p = false) ->
  consistent_on care' st'.
Proof.
  intros [R C] R' Gr Oth Care Key. split; [now rewrite R'|].
  intros k' p Ck G D.
  destruct (str_eqb k k') eqn:E.
  - apply str_eqb_eq in E as <-.
    destruct Key as [F|N0]; [exact F|]. rewrite (N0 p G) in D. discriminate.
  - rewrite (Oth k' E) in G. apply Gr. apply (C k' p); auto.
Qed.

Lemma consistent_on_same care st st' :
  consistent_on care st ->
  languagePacks st' = languagePacks st -> grows st st' ->
  consistent_on care st'.
Proof.
  intros [R C] E Gr. split; [now rewrite E|].
  intros k p Ck G D. rewrite E in G. apply Gr. now apply (C k p).
Qed.

Lemma loadLanguageDictionary_consistent care care' st k :
  consistent_on care st ->
  (forall k', str_eqb k k' = false -> care' k' -> care k') ->
  own_get (languagePacks st) k <> None \/ (forall k', care' k' -> care k') ->
  consistent_on care' (loadLanguageDictionary st k).
Proof.
  intros I Care Ex. unfold loadLanguageDictionary.
  destruct (own_get (languagePacks st) k) as [p|] eqn:G.
  - destruct (registered_dictionary_ext (languagePacks st) k (proj1 I))
      as [d D]; [congruence|].
    rewrite D.
    apply (consistent_on_key care care' st _ k I).
    + cbn [languagePacks setFlag with_storage]. now apply updatePack_registry.
    + eapply grows_trans; [|apply setFlag_grows].
      apply grows_same, updatePack_storage.
    + intros k' E. cbn [languagePacks setFlag with_storage].
      now apply updatePack_other.
    + exact Care.
    + left. apply setFlag_flagged.
  - destruct Ex as [Ex|Ex]; [congruence|].
    destruct I as [R C]. split; [exact R|].
    intros k' p Ck. apply C, Ex, Ck.
Qed.

Lemma loadLanguageDictionary_consistent_ext st k :
  consistent_ext st -> consistent_ext (loadLanguageDictionary st k).
Proof.
  intros I.
  apply (loadLanguageDictionary_consistent (fun _ => True) (fun _ => True)
                                           st k I); auto.
Qed.

Lemma isLanguagePackDownloaded_consistent st k :
  consistent_ext st -> consistent_ext (snd (isLanguagePackDownloaded st k)).
Proof.
  intros I. apply (consistent_on_same (fun _ => True) st _ I).
  - apply isLanguagePackDownloaded_packs.
  - apply isLanguagePackDownloaded_grows.
Qed.

Lemma ensured_consistent st k :
  consistent_ext st -> consistent_ext (ensured st k).
Proof.
  intros I. unfold ensured.
  destruct (negb (fst (isLanguagePackDownloaded st k))).
  - apply loadLanguageDictionary_consistent_ext.
    now apply isLanguagePackDownloaded_consistent.
  - now apply isLanguagePackDownloaded_consistent.
Qed.

Lemma translateOffline_state st text sourceLang targetLang now :
  let r := translateOffline st text sourceLang targetLang now in
  let sl := resolvedSource text sourceLang in
  exists st2,
    (st2 = st \/ st2 = ensured (ensured st sl) targetLang)
    /\ (snd r = st2
        \/ exists key v confidence, snd r = cachePut st2 key v confidence now).
Proof.
  unfold translateOffline. fold (resolvedSource text sourceLang).
  set (sl := resolvedSource text sourceLang). cbv zeta.
  destruct (getHardcodedTranslation text sourceLang); [exists st; auto|].
  destruct (str_eqb sl targetLang); [exists st; auto|].
  destruct (obj_get (translationCache st) (cacheKey text sl targetLang))
    as [[c|n]|]; [exists st; auto|exists st; auto|].
  destruct (str_eqb (sl ++ lit "-" ++ targetLang) (lit "en-ne")).
  { exists st. split; [now left|]. right. now eexists _, _, 90%Z. }
  destruct (str_eqb (sl ++ lit "-" ++ targetLang) (lit "en-si")).
  { exists st. split; [now left|]. right. now eexists _, _, 90%Z. }
  cbn [snd]. exists (ensured (ensured st sl) targetLang).
  split; [now right|].
  destruct (translateWithPack_effect st text sl targetLang
              (cacheKey text sl targetLang) now) as [E|[c E]].
  - now left.
  - right. eexists _, _, c. exact E.
Qed.

Lemma translateOffline_grows st text sourceLang targetLang now :
  grows st (snd (translateOffline st text sourceLang targetLang now)).
Proof.
  destruct (translateOffline_state st text sourceLang targetLang now)
    as (st2 & S2 & E).
  assert (G : grows st st2).
  { destruct S2 as [-> | ->]; [apply grows_refl|].
    eapply grows_trans; apply ensured_grows. }
  destruct E as [-> | (key & v & c & ->)]; [exact G|].
  eapply grows_trans; [exact G|]. now apply grows_same.
Qed.

Lemma translateOffline_consistent st text sourceLang targetLang now :
  consistent_ext st ->
  consistent_ext (snd (translateOffline st text sourceLang targetLang now)).
Proof.
  intros I.
  destruct (translateOffline_state st text sourceLang targetLang now)
    as (st2 & S2 & E).
  assert (I2 : consistent_ext st2).
  { destruct S2 as [-> | ->]; [exact I|]. now apply ensured_consistent, ensured_consistent. }
  destruct E as [-> | (key & v & c & ->)]; [exact I2|].
  apply (consistent_on_same (fun _ => True) st2 _ I2);
    [reflexivity|now apply grows_same].
Qed.

Lemma downloadLanguagePack_state st k r :
  downloadLanguagePack st k = Returned r ->
  snd r = saveLanguagePackStatus
            (setFlag (updatePack (loadLanguageDictionary st k) k
                                 (fun p => set_isDownloaded p true)) k)
            k true.
Proof.
  unfold downloadLanguagePack.
  destruct (own_get (languagePacks st) k); [|discriminate].
  now intros [= <-].
Qed.

Lemma downloadLanguagePack_grows st k r :
  downloadLanguagePack st k = Returned r -> grows st (snd r).
Proof.
  intros E. rewrite (downloadLanguagePack_state st k r E).
  eapply grows_trans; [apply loadLanguageDictionary_grows|].
  eapply grows_trans; [apply grows_same, updatePack_storage|].
  eapply grows_trans; [apply setFlag_grows|]. now apply grows_same.
Qed.

Lemma downloadLanguagePack_consistent st k r :
  consistent_ext st -> downloadLanguagePack st k = Returned r ->
  consistent_ext (snd r).
Proof.
  intros I E. rewrite (downloadLanguagePack_state st k r E).
  apply (consistent_on_key (fun _ => True) (fun _ => True)
                           (loadLanguageDictionary st k) _ k).
  - now apply loadLanguageDictionary_consistent_ext.
  - cbn [languagePacks saveLanguagePackStatus with_status setFlag with_storage].
    now apply updatePack_registry.
  - eapply grows_trans; [apply grows_same, updatePack_storage|].
    eapply grows_trans; [apply setFlag_grows|]. now apply grows_same.
  - intros k' N0.
    cbn [languagePacks saveLanguagePackStatus with_status setFlag with_storage].
    now apply updatePack_other.
  - auto.
  - left. apply setFlag_flagged.
Qed.

Lemma removeLanguagePack_grows st k :
  grows st (snd (removeLanguagePack st k)).
Proof.
  unfold removeLanguagePack.
  destruct (own_get (languagePacks st) k); [|apply grows_refl].
  cbn [snd]. apply grows_same.
  cbn [localStorage with_cache saveLanguagePackStatus with_status].
  apply updatePack_storage.
Qed.

Lemma removeLanguagePack_consistent st k :
  consistent_ext st -> consistent_ext (snd (removeLanguagePack st k)).
Proof.
  intros I. pose proof (removeLanguagePack_grows st k) as Gr.
  revert Gr. unfold removeLanguagePack.
  destruct (own_get (languagePacks st) k) as [p|] eqn:G; [|now intros _].
  cbn [snd]. intros Gr.
  apply (consistent_on_key (fun _ => True) (fun _ => True) st _ k I).
  - cbn [languagePacks with_cache saveLanguagePackStatus with_status].
    now apply updatePack_registry.
  - exact Gr.
  - intros k' N0.
    cbn [languagePacks with_cache saveLanguagePackStatus with_status].
    now apply updatePack_other.
  - auto.
  - right. intros p'.
    cbn [languagePacks with_cache saveLanguagePackStatus with_status].
    rewrite updatePack_same, G. now intros [= <-].
Qed.

Lemma clearOfflineData_consistent st :
  consistent_ext st -> consistent_ext (clearOfflineData st).
Proof.
  intros [R C]. split.
  - unfold clearOfflineData, registry_ext in *. cbn [languagePacks].
    rewrite map_map. cbn [fst snd]. rewrite <- R. apply map_ext.
    now intros [k p].
  - intros k p _. unfold clearOfflineData. cbn [languagePacks].
    rewrite (own_get_map
               (fun p => set_dictionary (set_isDownloaded p false) [])).
    destruct (own_get (languagePacks st) k); [|discriminate].
    now intros [= <-].
Qed.

Lemma construct_consistent_ext now cached status items :
  consistent_ext (construct now cached status items).
Proof.
  unfold construct, preloadFirst, loadCachedTranslations.
  assert (F : forall s0,
             consistent_on (fun k => k <> lit "en") s0 ->
             consistent_on (fun k => k <> lit "en")
               (fold_left
                  (fun (s : State) (entry : jsstring * bool) =>
                     match own_get (languagePacks s) (fst entry) with
                     | Some _ =>
                       if snd entry
                       then loadLanguageDictionary
                              (updatePack s (fst entry)
                                          (fun p => set_isDownloaded p true))
                              (fst entry)
                       else s
                     | None => s
                     end) status s0)).
  { induction status as [|[k b] status IH]; intros s0 I0; simpl;
      [assumption|].
    apply IH.
    destruct (own_get (languagePacks s0) k) as [p|] eqn:G; [|assumption].
    destruct b; [|assumption].
    destruct (registered_dictionary_ext (languagePacks s0) k (proj1 I0))
      as [d D]; [congruence|].
    unfold loadLanguageDictionary. rewrite updatePack_same, G.
    cbn [option_map]. rewrite D.
    apply (consistent_on_key (fun k => k <> lit "en") (fun k => k <> lit "en")
                             s0 _ k I0).
    - cbn [languagePacks setFlag with_storage].
      now rewrite !updatePack_registry.
    - eapply grows_trans; [|apply setFlag_grows].
      apply grows_same. now rewrite !updatePack_storage.
    - intros k' E. cbn [languagePacks setFlag with_storage].
      now rewrite !updatePack_other.
    - auto.
    - left. apply setFlag_flagged. }
  match goal with
  | |- consistent_ext (loadLanguageDictionary (fold_left _ status ?s0) _) =>
    assert (I0 : consistent_on (fun k => k <> lit "en") s0)
  end.
  { split.
    - destruct cached; reflexivity.
    - intros k p Ck G D. exfalso. apply own_get_In in G.
      assert (I : In (k, p) (initializeLanguagePacks now))
        by (destruct cached; exact G).
      simpl in I.
      destruct I as [[= <- <-]|[[= <- <-]|[[= <- <-]|[]]]];
        try discriminate D. now apply Ck. }
  specialize (F _ I0).
  apply (loadLanguageDictionary_consistent
           (fun k => k <> lit "en") (fun _ => True) _ (lit "en") F).
  - intros k' E _ ->. vm_compute in E. discriminate.
  - left. apply (registered_get _ _ (proj1 F)). auto.
Qed.

Lemma step_grows st st' : step st st' -> grows st st'.
Proof.
  intros S. destruct S as [st k I|st k|st k b progress st' E
                           |st text sl tl now|st k|st].
  - apply loadLanguageDictionary_grows.
  - apply isLanguagePackDownloaded_grows.
  - apply (downloadLanguagePack_grows st k (b, progress, st') E).
  - apply translateOffline_grows.
  - apply removeLanguagePack_grows.
  - now apply grows_same.
Qed.

Lemma reachable_consistent_ext st : reachable st -> consistent_ext st.
Proof.
  induction 1 as [now cached status items|st st' R IH S].
  - apply construct_consistent_ext.
  - destruct S as [st k I|st k|st k b progress st' E
                   |st text sl tl now|st k|st].
    + now apply loadLanguageDictionary_consistent_ext.
    + now apply isLanguagePackDownloaded_consistent.
    + apply (downloadLanguagePack_consistent st k (b, progress, st') IH E).
    + now apply translateOffline_consistent.
    + now apply removeLanguagePack_consistent.
    + now apply clearOfflineData_consistent.
Qed.

Lemma isLanguagePackDownloaded_flagged st k :
  consistent_ext st ->
  (fst (isLanguagePackDownloaded st k) = true <-> flagged st k).
Proof.
  intros [_ C]. unfold isLanguagePackDownloaded, flagged.
  destruct (own_get (localStorage st) (flagKey k)) as [v|] eqn:F.
  - destruct (str_eqb v (lit "true")) eqn:E.
    + apply str_eqb_eq in E as ->. now split.
    + apply str_eqb_neq in E.
      destruct (own_get (languagePacks st) k) as [p|] eqn:G.
      * destruct (isDownloaded p) eqn:D.
        -- specialize (C k p I G D). unfold flagged in C. congruence.
        -- cbn [fst]. split; [discriminate|congruence].
      * cbn [fst]. split; [discriminate|congruence].
  - destruct (own_get (languagePacks st) k) as [p|] eqn:G.
    + destruct (isDownloaded p) eqn:D.
      * specialize (C k p I G D). unfold flagged in C. congruence.
      * cbn [fst]. split; discriminate.
    + cbn [fst]. split; discriminate.
Qed.

Lemma steps_reachable st st' : reachable st -> steps st st' -> reachable st'.
Proof.
  intros R S. induction S as [|st st' st'' S IH T]; [assumption|].
  eapply reachable_step; [apply IH, R|exact T].
Qed.

Lemma steps_grows st st' : steps st st' -> grows st st'.
Proof.
  induction 1 as [|st st' st'' S IH T]; [apply grows_refl|].
  eapply grows_trans; [exact IH|now apply step_grows].
Qed.

(** X22.  A pack once reported downloaded stays so.  In the extended
    service, once [isLanguagePackDownloaded] has answered [true] for a
    language it answers [true] after any further operations, including
    [removeLanguagePack] and [clearOfflineData]: no operation clears the
    stored item the answer is read from. *)
Theorem isLanguagePackDownloaded_is_permanent st st' langCode :
  reachable st ->
  fst (isLanguagePackDownloaded st langCode) = true ->
  steps st st' ->
  fst (isLanguagePackDownloaded st' langCode) = true.
Proof.
  intros R D S.
  apply (isLanguagePackDownloaded_flagged st langCode) in D;
    [|now apply reachable_consistent_ext].
  apply (isLanguagePackDownloaded_flagged st' langCode).
  - apply reachable_consistent_ext. now apply (steps_reachable st).
  - now apply (steps_grows st st').
Qed.

Lemma sumSizes_registry_ext ps :
  sumSizes (map snd ps) = fold_left add (map snd (registry_ext ps)) zero.
Proof.
  unfold sumSizes, registry_ext. generalize zero.
  induction ps as [|[k p] ps IH]; intros a; simpl; [reflexivity|]. apply IH.
Qed.

(** X23.  The registered packs of the extended service never change.  In
    every reachable state the storage summary counts three packs and
    its total size is the sum of the declared sizes 15.5, 12.3 and 5. *)
Theorem registered_packs_are_fixed_ext st :
  reachable st ->
  availablePacks (getStorageInfo st) = 3
  /\ totalSize (getStorageInfo st)
     = add (add (add zero (ofHundredths 1550)) (ofHundredths 1230))
           (ofHundredths 500).
Proof.
  intros R. destruct (reachable_consistent_ext st R) as [E _].
  unfold getStorageInfo. cbn [availablePacks totalSize]. split.
  - rewrite length_map.
    rewrite <- (length_map (fun kp => (fst kp, size (snd kp)))).
    fold (registry_ext (languagePacks st)). now rewrite E.
  - rewrite sumSizes_registry_ext, E. reflexivity.
Qed.

(** ** A language without a pack *)









End WithHost.

(** ** Examples, on the concrete host and exact numbers *)

Import BasicHost Examples.


Lemma translateOffline_keeps_cache_entries_witness :
  own_get
    (translationCache
       (snd (translateOffline withOldEntry (lit "काम") (lit "ne") (lit "en")
                              172800000)))
    (cacheKey (lit "घर") (lit "ne") (lit "en"))
  = Some {| translation := Own (lit "stale");
            confidence := ofHundredths 80;
            timestamp := Some 0%Z |}.
Proof.
  apply (translateOffline_keeps_cache_entries
           (H := basicHost) (NUM := exactNumber)
           withOldEntry (lit "काम") (lit "ne") (lit "en") 172800000).
  vm_compute. reflexivity.
Defined.

Lemma translateOffline_answer_is_final_witness :
  translateOffline
    (snd (translateOffline fresh (lit "घर") (lit "ne") (lit "en") 5))
    (lit "घर") (lit "ne") (lit "en") 172800005
  = translateOffline fresh (lit "घर") (lit "ne") (lit "en") 5.
Proof.
  destruct (own_get
              (translationCache
                 (snd (translateOffline fresh (lit "घर") (lit "ne")
                                        (lit "en") 5)))
              (cacheKey (lit "घर") (resolvedSource (lit "घर") (lit "ne"))
                        (lit "en"))) as [entry|] eqn:G;
    [|vm_compute in G; discriminate].
  exact (translateOffline_answer_is_final
           (H := basicHost) (NUM := exactNumber)
           fresh (lit "घर") (lit "ne") (lit "en") 5 172800005 entry G).
Defined.

Lemma translateOffline_auto_witness :
  translateOffline fresh (lit "घर") (lit "auto") (lit "en") 5
  = translateOffline fresh (lit "घर") (detectLanguage (lit "घर")) (lit "en") 5.
Proof.
  apply (translateOffline_auto (H := basicHost) (NUM := exactNumber)
           fresh (lit "घर") (lit "en") 5).
  vm_compute. reflexivity.
Defined.

(** With the language given, the greeting is answered from the
    hard-coded texts; with ['auto'] it is translated by the
    dictionary. *)
Example translateOffline_auto_skips_hardcoded :
  fst (translateOffline fresh (lit "नमस्ते") (lit "ne") (lit "en") 5)
  = Some (Own (lit "Hello! Greetings! How are you today?"))
  /\ fst (translateOffline fresh (lit "नमस्ते") (lit "auto") (lit "en") 5)
     = Some (Own (lit "Hello")).
Proof. split; vm_compute; reflexivity. Qed.

Lemma isLanguagePackDownloaded_is_permanent_witness :
  fst (isLanguagePackDownloaded
         (clearOfflineData (snd (removeLanguagePack fresh (lit "ne"))))
         (lit "ne")) = true.
Proof.
  apply (isLanguagePackDownloaded_is_permanent
           (H := basicHost) (NUM := exactNumber) fresh).
  - apply reachable_constructAndPreload.
  - vm_compute. reflexivity.
  - apply steps_step with (st' := snd (removeLanguagePack fresh (lit "ne"))).
    + apply steps_step with (st' := fresh); [apply steps_refl|].
      apply step_remove.
    + apply step_clear.
Defined.

Lemma registered_packs_are_fixed_ext_witness :
  availablePacks (getStorageInfo (clearOfflineData fresh)) = 3
  /\ totalSize (getStorageInfo (clearOfflineData fresh))
     = add (add (add zero (ofHundredths 1550)) (ofHundredths 1230))
           (ofHundredths 500).
Proof.
  apply (registered_packs_are_fixed_ext (H := basicHost) (NUM := exactNumber)).
  apply reachable_step with (st := fresh).
  - apply reachable_constructAndPreload.
  - apply step_clear.
Defined.

End OfflineExtMore.

(* ================================================================== *)
(** * Properties of the translation handler of the page *)
(* ================================================================== *)

Module AppFacts.
Import JS Numbers App JSFacts OfflineFacts.

Section WithHost.
Context {H : Host} {NUM : Number}.
Variable fetch : nat -> jsstring -> jsstring -> jsstring
                 -> completion Online.Response.

(** X24.  The offline tier does not fall back.  When the pack of the
    source language is downloaded and the device is offline or the
    offline tab is open, [handleTranslate] shows what [translateOffline]
    returns: the call does not throw, so the local dictionary of the
    [catch] branch is never used. *)
Theorem offline_tier_never_falls_back
        st inputText sourceLang targetLang isDeviceOnline activeTab now :
  is_empty (trim inputText) = false ->
  Offline.isLanguagePackDownloaded st sourceLang = true ->
  isDeviceOnline = false \/ activeTab = OfflineTab ->
  exists translatedText st',
    Offline.translateOffline st inputText sourceLang targetLang now
    = Returned (translatedText, st')
    /\ handleTranslate fetch st inputText sourceLang targetLang
                       isDeviceOnline activeTab now
       = (Complete (Own translatedText) (lit "Offline (Downloaded Pack)"),
          st').
Proof.
  intros Hn D Off.
  destruct (translateOffline_returns_when_downloaded
              st inputText sourceLang targetLang now D) as (r & st' & E).
  exists r, st'. split; [exact E|].
  unfold handleTranslate. rewrite Hn, D, E.
  destruct Off as [-> | ->]; [reflexivity|].
  now rewrite orb_true_r.
Qed.

(** X25.  The handler fails only if the local dictionary throws.  For an
    input with visible content, whatever the state of the offline
    service, the network and the answers of the online service: when
    the local dictionary returns a value for the input, [handleTranslate]
    shows a translation and not the failure toast. *)
Theorem handleTranslate_completes
        st inputText sourceLang targetLang isDeviceOnline activeTab now v :
  is_empty (trim inputText) = false ->
  Fallback.translate (Own inputText) sourceLang targetLang = Returned v ->
  exists translatedText translationMethod st',
    handleTranslate fetch st inputText sourceLang targetLang
                    isDeviceOnline activeTab now
    = (Complete translatedText translationMethod, st').
Proof.
  intros Hn F. unfold handleTranslate, viaFallback. rewrite Hn, F.
  destruct (Offline.isLanguagePackDownloaded st sourceLang
            && (negb isDeviceOnline || isOfflineTab activeTab)).
  - destruct (Offline.translateOffline st inputText sourceLang targetLang now)
      as [[t st']|e]; eauto.
  - destruct isDeviceOnline; [|eauto].
    destruct (Online.translate fetch inputText sourceLang targetLang); eauto.
Qed.

End WithHost.

(** ** Examples, on the concrete host and exact numbers *)

Import BasicHost Cases.

Lemma offline_tier_never_falls_back_witness :
  exists translatedText st',
    Offline.translateOffline downloaded (lit "घर") (lit "ne") (lit "en") 5
    = Returned (translatedText, st')
    /\ handleTranslate silentEndpoint downloaded (lit "घर") (lit "ne")
                       (lit "en") false TextTab 5
       = (Complete (Own translatedText) (lit "Offline (Downloaded Pack)"),
          st').
Proof.
  apply (offline_tier_never_falls_back (H := basicHost) (NUM := exactNumber)
           silentEndpoint downloaded (lit "घर") (lit "ne") (lit "en")
           false TextTab 5).
  - vm_compute. reflexivity.
  - vm_compute. reflexivity.
  - left. reflexivity.
Defined.

Lemma handleTranslate_completes_witness :
  exists translatedText translationMethod st',
    handleTranslate silentEndpoint initial (lit "hello") (lit "en") (lit "hi")
                    false TextTab 5
    = (Complete translatedText translationMethod, st').
Proof.
  apply (handleTranslate_completes (H := basicHost) (NUM := exactNumber)
           silentEndpoint initial (lit "hello") (lit "en") (lit "hi")
           false TextTab 5 (Own (lit "नमस्ते"))).
  - vm_compute. reflexivity.
  - vm_compute. reflexivity.
Defined.

(** Offline and without a pack, the word comes from the local
    dictionary. *)
Example handleTranslate_hello_offline :
  fst (handleTranslate silentEndpoint initial (lit "hello") (lit "en")
                       (lit "hi") false TextTab 5)
  = Complete (Own (lit "नमस्ते")) (lit "Offline (Basic Dictionary)").
Proof. vm_compute. reflexivity. Qed.

End AppFacts.
